(** * Device adapters: IntegratedLaserEngine and ThorlabsUSBCamera

    A shallow embedding of the two device adapters
    ([DeviceAdapters/IntegratedLaserEngine/IntegratedLaserEngine.cpp] and
    [DeviceAdapters/ThorlabsUSBCamera/ThorlabsUSBCamera.cpp]) and the
    properties of their behaviour.

    Integers of the C++ code are [Z] with the conversions written out,
    [const char*] arguments are [option string] ([None] is the null
    pointer), [std::vector] is a list read and written by index. *)

From Stdlib Require Import ZArith String Ascii List Bool Lia DecimalString DecimalPos DecimalZ.
From stdpp Require Import base list strings.
Import ListNotations.

Local Open Scope Z_scope.

(** ** Host error codes

    MMDeviceConstants.h is not among the sources: the codes the adapters
    return are parameters of the development.  [MMDevice_h] gives them
    the values of the host's header, for evaluating the adapters at
    concrete inputs. *)

Class MMDeviceConstants : Type := {
  DEVICE_OK : Z;
  DEVICE_ERR : Z;
  DEVICE_BUFFER_OVERFLOW : Z;
  DEVICE_CAMERA_BUSY_ACQUIRING : Z
}.

Definition MMDevice_h : MMDeviceConstants :=
  {| DEVICE_OK := 0;
     DEVICE_ERR := 1;
     DEVICE_BUFFER_OVERFLOW := 22;
     DEVICE_CAMERA_BUSY_ACQUIRING := 30 |}.

(** [MM::ActionType] *)
Inductive ActionType : Set :=
| NoAction | BeforeGet | AfterSet
| IsSequenceable | AfterLoadSequence | StartSequence | StopSequence.

Definition ActionType_eqb (a b : ActionType) : bool :=
  match a, b with
  | NoAction, NoAction | BeforeGet, BeforeGet | AfterSet, AfterSet
  | IsSequenceable, IsSequenceable | AfterLoadSequence, AfterLoadSequence
  | StartSequence, StartSequence | StopSequence, StopSequence => true
  | _, _ => false
  end.

(** ** C strings *)

Module CStr.

Definition code (c : ascii) : Z := Z.of_nat (nat_of_ascii c).

Definition NUL : ascii := Ascii.zero.

(** The characters of a C string: what precedes the first NUL. *)
Fixpoint c_str (s : string) : string :=
  match s with
  | EmptyString => EmptyString
  | String c s' => if Ascii.eqb c NUL then EmptyString else String c (c_str s')
  end.

(** [strcmp]: difference of the first pair of differing characters,
    the end of either string counting as NUL. *)
Fixpoint strcmp (a b : string) : Z :=
  match a, b with
  | EmptyString, EmptyString => 0
  | EmptyString, String d _ => 0 - code d
  | String c _, EmptyString => code c - 0
  | String c a', String d b' =>
      if Ascii.eqb c d
      then if Ascii.eqb c NUL then 0 else strcmp a' b'
      else code c - code d
  end.

Lemma code_inj c d : code c = code d -> c = d.
Proof.
  unfold code. intros H. apply Nat2Z.inj in H.
  rewrite <- (ascii_nat_embedding c), <- (ascii_nat_embedding d).
  now f_equal.
Qed.

Lemma code_NUL c : code c = 0 <-> c = NUL.
Proof.
  split.
  - intros H. apply code_inj. exact H.
  - intros ->. reflexivity.
Qed.

Lemma strcmp_zero_iff a b : strcmp a b = 0 <-> c_str a = c_str b.
Proof.
  revert b. induction a as [|c a IH]; intros [|d b]; simpl.
  - tauto.
  - destruct (Ascii.eqb_spec d NUL) as [->|Hd].
    + split; reflexivity.
    + split; [|discriminate]. intros H.
      exfalso. apply Hd, code_NUL. lia.
  - destruct (Ascii.eqb_spec c NUL) as [->|Hc].
    + split; reflexivity.
    + split; [|discriminate]. intros H.
      exfalso. apply Hc, code_NUL. lia.
  - destruct (Ascii.eqb_spec c d) as [->|Hcd].
    + destruct (Ascii.eqb_spec d NUL) as [->|Hd].
      * split; reflexivity.
      * rewrite IH. split; [intros ->; reflexivity|].
        intros H; now injection H.
    + split.
      * intros H. exfalso. apply Hcd, code_inj. lia.
      * destruct (Ascii.eqb_spec c NUL) as [->|Hc];
          destruct (Ascii.eqb_spec d NUL) as [->|Hd];
          try discriminate; try congruence.
  Qed.

Lemma strcmp_eqb a b : (strcmp a b =? 0) = true <-> c_str a = c_str b.
Proof. rewrite Z.eqb_eq. apply strcmp_zero_iff. Qed.

Lemma strcmp_neqb a b : (strcmp a b =? 0) = false <-> c_str a <> c_str b.
Proof. rewrite Z.eqb_neq, strcmp_zero_iff. tauto. Qed.

End CStr.

(** ** IntegratedLaserEngine.cpp *)

Module ILE.

(** What [CreateDevice] allocates: [new CSingleILE()] or
    [new CDualILE( ILE700 )]. *)
Inductive Device : Set :=
| CSingleILE
| CDualILE (ILE700 : bool).

(** [MM::DeviceType], as far as this module registers devices. *)
Inductive DeviceType : Set := ShutterDevice.

(** An access to an element of [DevicesNames_]. *)
Inductive Access : Set :=
| ReadName (i : Z)
| WriteName (i : Z).

(** Conversion of a [long] to [size_t] (64 bits wide), as the comparison
    with [size()] and [operator[]] perform it. *)
Definition SIZE_BITS : Z := 64.
Definition to_size_t (z : Z) : Z := z mod 2 ^ SIZE_BITS.

(** A [long] is at most 64 bits wide. *)
Definition is_long (z : Z) : Prop := - 2 ^ 63 <= z < 2 ^ 63.

Section Adapter.

Context {MM : MMDeviceConstants}.

(** Constants of SingleILE.cpp, DualILE.cpp and
    IntegratedLaserEngine.h, and the laser object of Lasers.cpp. *)
Variables g_DeviceName g_DualDeviceName g_Dual700DeviceName : string.
Variables g_DeviceDescription g_DualDeviceDescription
          g_Dual700DeviceDescription : string.
Variable ERR_DEVICE_INDEXINVALID : Z.
Variable CLasers : Type.
Variable CLasers_SetOpen : bool -> CLasers -> Z * CLasers.
Variable CLasers_GetOpen : bool -> CLasers -> Z * bool * CLasers.

(** The calls [InitializeModuleData] makes to [RegisterDevice]. *)
Definition InitializeModuleData : list (string * DeviceType * string) :=
  [ (g_DeviceName, ShutterDevice, g_DeviceDescription);
    (g_DualDeviceName, ShutterDevice, g_DualDeviceDescription);
    (g_Dual700DeviceName, ShutterDevice, g_Dual700DeviceDescription) ].

Definition registered_names : list string :=
  map (fun r => fst (fst r)) InitializeModuleData.

Definition CreateDevice (DeviceName : option string) : option Device :=
  match DeviceName with
  | None => None
  | Some DeviceName =>
      if CStr.strcmp DeviceName g_DeviceName =? 0 then
        Some CSingleILE
      else if CStr.strcmp DeviceName g_DualDeviceName =? 0 then
        Some (CDualILE false)
      else if CStr.strcmp DeviceName g_Dual700DeviceName =? 0 then
        Some (CDualILE true)
      else None
  end.

(** The fields of [CIntegratedLaserEngine] the modelled members use. *)
Record CIntegratedLaserEngine : Type := mkILE {
  Initialized_ : bool;
  DevicesNames_ : list string;
  Lasers_ : option CLasers
}.

Definition set_DevicesNames (l : list string) (s : CIntegratedLaserEngine) :=
  {| Initialized_ := Initialized_ s; DevicesNames_ := l; Lasers_ := Lasers_ s |}.

Definition set_Lasers (l : option CLasers) (s : CIntegratedLaserEngine) :=
  {| Initialized_ := Initialized_ s; DevicesNames_ := DevicesNames_ s; Lasers_ := l |}.

(** Outcome of a property handler: return code, the property's value,
    the adapter and the element accesses made, in order. *)
Record Handled : Type := mkHandled {
  h_ret : Z;
  h_prop : string;
  h_this : CIntegratedLaserEngine;
  h_trace : list Access
}.

(** [DevicesNames_[i]] for reading; [None] is an access out of range. *)
Definition names_at (s : CIntegratedLaserEngine) (i : Z) : option string :=
  DevicesNames_ s !! Z.to_nat (to_size_t i).

(** [DevicesNames_[i] = v]; [None] is an access out of range. *)
Definition names_store (s : CIntegratedLaserEngine) (i : Z) (v : string)
  : option CIntegratedLaserEngine :=
  if to_size_t i <? Z.of_nat (length (DevicesNames_ s))
  then Some (set_DevicesNames (<[Z.to_nat (to_size_t i) := v]> (DevicesNames_ s)) s)
  else None.

(** [Prop_] is the value held by the property [Prop]; [Prop->Set] replaces
    it by the C string it is given, [Prop->Get] copies it out. *)
Definition OnDeviceChange (Prop_ : string) (Act : ActionType) (DeviceIndex : Z)
           (this : CIntegratedLaserEngine) : option Handled :=
  if to_size_t DeviceIndex >=? Z.of_nat (length (DevicesNames_ this)) then
    Some (mkHandled ERR_DEVICE_INDEXINVALID Prop_ this [])
  else if ActionType_eqb Act BeforeGet then
    match names_at this DeviceIndex with
    | Some v =>
    Some (mkHandled DEVICE_OK (CStr.c_str v) this [ReadName (to_size_t DeviceIndex)])
    | None => None
    end
  else if ActionType_eqb Act AfterSet then
    match names_store this DeviceIndex Prop_ with
    | Some this' =>
        Some (mkHandled DEVICE_OK Prop_ this' [WriteName (to_size_t DeviceIndex)])
    | None => None
    end
  else Some (mkHandled DEVICE_OK Prop_ this []).

Definition SetOpen (Open : bool) (this : CIntegratedLaserEngine)
  : Z * CIntegratedLaserEngine :=
  match Lasers_ this with
  | Some l =>
      let '(r, l') := CLasers_SetOpen Open l in
      (r, set_Lasers (Some l') this)
  | None => (DEVICE_OK, this)
  end.

(** The second component is the value left in the reference [Open]. *)
Definition GetOpen (Open : bool) (this : CIntegratedLaserEngine)
  : Z * bool * CIntegratedLaserEngine :=
  let Open := false in
  match Lasers_ this with
  | Some l =>
      let '(_, Open', l') := CLasers_GetOpen Open l in
      (DEVICE_OK, Open', set_Lasers (Some l') this)
  | None => (DEVICE_OK, Open, this)
  end.

(** Names and values of properties, from the head of the file. *)
Definition g_DeviceListProperty : string := "Device".
Definition g_Undefined : string := "Undefined".

(** [std::to_string] of a [long long]. *)
Definition to_string (z : Z) : string := NilZero.string_of_int (Z.to_int z).

(** An [int] is 32 bits wide. *)
Definition INT_MAX : Z := 2 ^ 31 - 1.

(** What [ILEWrapper_->GetListOfDevices] puts into [DeviceList_]. *)
Variable DeviceList_ : list string.

(** A property made by [CreateDeviceSelectionProperty]: the name and the
    initial value given to [CreateStringProperty], the values given to
    [SetAllowedValues], and the index bound to the handler
    [OnDeviceChange]. *)
Record SelectionProperty : Type := mkSelection {
  sp_name : string;
  sp_value : string;
  sp_allowed : list string;
  sp_index : Z
}.

Definition set_Initialized (b : bool) (s : CIntegratedLaserEngine) :=
  {| Initialized_ := b; DevicesNames_ := DevicesNames_ s; Lasers_ := Lasers_ s |}.

(** [None] is an access out of range. *)
Definition CreateDeviceSelectionProperty (DeviceID DeviceIndex : Z)
           (this : CIntegratedLaserEngine)
  : option (SelectionProperty * CIntegratedLaserEngine) :=
  let vInitialDevice := match DeviceList_ with d :: _ => d | [] => g_Undefined end in
  let vPropertyName :=
    if 0 <? DeviceID then String.append g_DeviceListProperty (to_string DeviceID)
    else g_DeviceListProperty in
  match names_store this DeviceIndex vInitialDevice with
  | Some this' =>
      Some (mkSelection (CStr.c_str vPropertyName) (CStr.c_str vInitialDevice)
                        DeviceList_ DeviceIndex, this')
  | None => None
  end.

(** The loop [for ( vDeviceIndex = 0; vDeviceIndex < NbDevices; ++vDeviceIndex )]
    of the constructor from [vDeviceIndex] on, for at most [fuel] turns;
    [None] is an access out of range, or the turns used up. *)
Fixpoint device_loop (fuel : nat) (NbDevices vDeviceIndex : Z)
         (this : CIntegratedLaserEngine)
  : option (list SelectionProperty * CIntegratedLaserEngine) :=
  if vDeviceIndex <? NbDevices then
    match fuel with
    | O => None
    | S fuel' =>
        match CreateDeviceSelectionProperty (vDeviceIndex + 1) vDeviceIndex this with
        | Some (p, this') =>
            match device_loop fuel' NbDevices (vDeviceIndex + 1) this' with
            | Some (ps, this'') => Some (p :: ps, this'')
            | None => None
            end
        | None => None
        end
    end
  else Some ([], this).

(** What the constructor ends with: the exception it throws, or the
    adapter and the device-selection properties it has created. *)
Inductive Constructed : Type :=
| logic_error
| constructed (properties : list SelectionProperty) (this : CIntegratedLaserEngine).

(** The constructor, as far as the modelled fields go; [None] is an
    access out of range. *)
Definition CIntegratedLaserEngine_new (NbDevices : Z) : option Constructed :=
  if NbDevices <=? 0 then Some logic_error else
  let this := mkILE false (replicate (Z.to_nat NbDevices) g_Undefined) None in
  if NbDevices =? 1 then
    match CreateDeviceSelectionProperty 0 0 this with
    | Some (p, this') => Some (constructed [p] this')
    | None => None
    end
  else
    match device_loop (Z.to_nat NbDevices) NbDevices 0 this with
    | Some (ps, this') => Some (constructed ps this')
    | None => None
    end.

(** [delete Lasers_] and [DeleteILE] act on the laser object and on
    [ILEDevice_], which are not among the modelled fields. *)
Definition Shutdown (this : CIntegratedLaserEngine) : Z * CIntegratedLaserEngine :=
  (DEVICE_OK, set_Initialized false (set_Lasers None this)).

(** The sleep between the two calls is time only. *)
Definition Fire (this : CIntegratedLaserEngine) : Z * CIntegratedLaserEngine :=
  let '(_, this1) := SetOpen true this in
  let '(_, this2) := SetOpen false this1 in
  (DEVICE_OK, this2).

(** The device every selection property starts with. *)
Definition initial_device : string :=
  match DeviceList_ with d :: _ => d | [] => g_Undefined end.

(** The property made for the device of index [k] when there are
    several. *)
Definition selection (k : nat) : SelectionProperty :=
  mkSelection (String.append g_DeviceListProperty (to_string (Z.of_nat (S k))))
              (CStr.c_str initial_device) DeviceList_ (Z.of_nat k).

Definition access_index (a : Access) : Z :=
  match a with ReadName i | WriteName i => i end.

Definition in_bounds (this : CIntegratedLaserEngine) (a : Access) : Prop :=
  0 <= access_index a < Z.of_nat (length (DevicesNames_ this)).

(** *** Properties *)

Lemma to_size_t_range z : 0 <= to_size_t z < 2 ^ SIZE_BITS.
Proof. unfold to_size_t, SIZE_BITS. apply Z.mod_pos_bound. lia. Qed.

Lemma to_size_t_small z : 0 <= z < 2 ^ 63 -> to_size_t z = z.
Proof. intros H. unfold to_size_t, SIZE_BITS. apply Z.mod_small. lia. Qed.

Lemma CreateDevice_Some (s : string) :
  CreateDevice (Some s) =
    if decide (CStr.c_str s = CStr.c_str g_DeviceName) then Some CSingleILE
    else if decide (CStr.c_str s = CStr.c_str g_DualDeviceName) then Some (CDualILE false)
    else if decide (CStr.c_str s = CStr.c_str g_Dual700DeviceName) then Some (CDualILE true)
    else None.
Proof.
  unfold CreateDevice.
  repeat match goal with
  | |- context [CStr.strcmp ?a ?b =? 0] =>
      let E := fresh "E" in
      destruct (CStr.strcmp a b =? 0) eqn:E;
      [apply CStr.strcmp_eqb in E | apply CStr.strcmp_neqb in E]
  end;
  repeat case_decide; congruence.
Qed.

Lemma elem_of_registered_names (n : string) :
  n ∈ registered_names <->
  n = g_DeviceName \/ n = g_DualDeviceName \/ n = g_Dual700DeviceName.
Proof.
  unfold registered_names, InitializeModuleData. simpl.
  rewrite !elem_of_cons, elem_of_nil. tauto.
Qed.

Lemma ex_Some_iff (x : string) (P : string -> Prop) :
  (exists s, Some x = Some s /\ P s) <-> P x.
Proof.
  split.
  - intros [s [[= <-] H]]. exact H.
  - intros H. exists x. split; [reflexivity | exact H].
Qed.

Lemma not_registered_iff (DeviceName : option string) :
  (DeviceName = None \/
   exists s, DeviceName = Some s /\
             forall n, n ∈ registered_names -> CStr.c_str s <> CStr.c_str n) <->
  (DeviceName = None \/
   exists s, DeviceName = Some s /\
             (CStr.c_str s <> CStr.c_str g_DeviceName /\
              CStr.c_str s <> CStr.c_str g_DualDeviceName /\
              CStr.c_str s <> CStr.c_str g_Dual700DeviceName)).
Proof.
  split; (intros [H | [s [Hs H]]]; [left; exact H | right; exists s; split; [exact Hs|]]).
  - repeat split; apply H, elem_of_registered_names; tauto.
  - intros n Hn. apply elem_of_registered_names in Hn.
    destruct Hn as [-> | [-> | ->]]; tauto.
Qed.

Lemma registered_iff (DeviceName : option string) :
  (exists s n, DeviceName = Some s /\ n ∈ registered_names /\
               CStr.c_str s = CStr.c_str n) <->
  (exists s, DeviceName = Some s /\
             (CStr.c_str s = CStr.c_str g_DeviceName \/
              CStr.c_str s = CStr.c_str g_DualDeviceName \/
              CStr.c_str s = CStr.c_str g_Dual700DeviceName)).
Proof.
  split.
  - intros [s [n [Hs [Hn H]]]]. exists s. split; [exact Hs|].
    apply elem_of_registered_names in Hn.
    destruct Hn as [-> | [-> | ->]]; tauto.
  - intros [s [Hs [H | [H | H]]]]; exists s; eexists; (split; [exact Hs|]);
      (split; [apply elem_of_registered_names | exact H]); tauto.
Qed.

(** C7. [CreateDevice] returns a device exactly for the three names
    registered by [InitializeModuleData] (compared as C strings, and
    the three being different strings): the single-ILE object for the
    single-device name, the dual-ILE object for the dual-device name,
    the dual-ILE-700 object for the dual-700 name, and the null
    pointer for a null argument or any other name. *)
Theorem CreateDevice_registered_names (DeviceName : option string) :
  CStr.c_str g_DeviceName <> CStr.c_str g_DualDeviceName ->
  CStr.c_str g_DeviceName <> CStr.c_str g_Dual700DeviceName ->
  CStr.c_str g_DualDeviceName <> CStr.c_str g_Dual700DeviceName ->
  (CreateDevice DeviceName = Some CSingleILE <->
     exists s, DeviceName = Some s /\ CStr.c_str s = CStr.c_str g_DeviceName) /\
  (CreateDevice DeviceName = Some (CDualILE false) <->
     exists s, DeviceName = Some s /\ CStr.c_str s = CStr.c_str g_DualDeviceName) /\
  (CreateDevice DeviceName = Some (CDualILE true) <->
     exists s, DeviceName = Some s /\ CStr.c_str s = CStr.c_str g_Dual700DeviceName) /\
  (CreateDevice DeviceName = None <->
     DeviceName = None \/
     exists s, DeviceName = Some s /\
               forall n, n ∈ registered_names -> CStr.c_str s <> CStr.c_str n) /\
  (is_Some (CreateDevice DeviceName) <->
     exists s n, DeviceName = Some s /\ n ∈ registered_names /\
                 CStr.c_str s = CStr.c_str n).
Proof.
  intros H12 H13 H23.
  rewrite not_registered_iff, registered_iff.
  destruct DeviceName as [s|].
  - rewrite CreateDevice_Some, !ex_Some_iff.
    assert (forall d : Device, is_Some (Some d) <-> True) as HS
        by (intros d; split; [trivial | intros _; eexists; reflexivity]).
    assert (is_Some (@None Device) <-> False) as HN
        by (split; [intros [x [=]] | tauto]).
    repeat case_decide; rewrite ?HS, ?HN;
      repeat split; try tauto; try congruence;
      intros; try discriminate; try (right; tauto); intuition congruence.
  - simpl. repeat split; try (intros [= ]); try (intros [s [[= ] _]]);
      try (intros [x [= ]]); auto.
Qed.

(** C8. When [DeviceIndex] (a [long]) is at least the number of
    device-name slots, [OnDeviceChange] returns
    [ERR_DEVICE_INDEXINVALID], leaves the property and the adapter as
    they were and touches no element of [DevicesNames_]; and for every
    [DeviceIndex] whatsoever the handler completes with every element
    access it makes within the bounds of the array. *)
Theorem OnDeviceChange_index_guard
        (Prop_ : string) (Act : ActionType) (DeviceIndex : Z)
        (this : CIntegratedLaserEngine) :
  is_long DeviceIndex ->
  (Z.of_nat (length (DevicesNames_ this)) <= DeviceIndex ->
   OnDeviceChange Prop_ Act DeviceIndex this =
     Some (mkHandled ERR_DEVICE_INDEXINVALID Prop_ this [])) /\
  (exists h, OnDeviceChange Prop_ Act DeviceIndex this = Some h /\
             Forall (in_bounds this) (h_trace h) /\
             length (DevicesNames_ (h_this h)) = length (DevicesNames_ this)).
Proof.
  intros Hlong. unfold is_long in Hlong. split.
  - intros Hge. unfold OnDeviceChange.
    rewrite to_size_t_small by lia.
    destruct (Z.geb_spec DeviceIndex (Z.of_nat (length (DevicesNames_ this))));
      [reflexivity | lia].
  - unfold OnDeviceChange.
    pose proof (to_size_t_range DeviceIndex) as Hr.
    destruct (Z.geb_spec (to_size_t DeviceIndex)
                         (Z.of_nat (length (DevicesNames_ this)))) as [Hge|Hlt].
    + eexists; split; [reflexivity|]. simpl. split; [constructor | reflexivity].
    + destruct (ActionType_eqb Act BeforeGet).
      * unfold names_at.
        destruct (lookup_lt_is_Some_2 (DevicesNames_ this)
                    (Z.to_nat (to_size_t DeviceIndex))) as [v Hv]; [lia|].
        rewrite Hv. eexists; split; [reflexivity|]. simpl.
        split; [|reflexivity].
        constructor; [|constructor]. unfold in_bounds; simpl; lia.
      * destruct (ActionType_eqb Act AfterSet).
        -- unfold names_store.
           destruct (Z.ltb_spec (to_size_t DeviceIndex)
                       (Z.of_nat (length (DevicesNames_ this)))); [|lia].
           eexists; split; [reflexivity|]. simpl.
           split; [|apply length_insert].
           constructor; [|constructor]. unfold in_bounds; simpl; lia.
        -- eexists; split; [reflexivity|]. simpl.
           split; [constructor | reflexivity].
Qed.

(** C10. With no laser interface ([Lasers_] null) [SetOpen] returns
    [DEVICE_OK] and changes nothing, whatever its argument, and
    [GetOpen] returns [DEVICE_OK] with [Open] set to false. *)
Theorem shutter_without_lasers (Open : bool) (this : CIntegratedLaserEngine) :
  Lasers_ this = None ->
  SetOpen Open this = (DEVICE_OK, this) /\
  GetOpen Open this = (DEVICE_OK, false, this).
Proof.
  intros HL. unfold SetOpen, GetOpen. rewrite HL. split; reflexivity.
Qed.

(** *** The constructor and its device-selection properties *)

Lemma c_str_digits (d : Decimal.uint) :
  CStr.c_str (NilEmpty.string_of_uint d) = NilEmpty.string_of_uint d.
Proof. induction d; simpl; f_equal; auto. Qed.

Lemma to_string_pos (p : positive) :
  to_string (Zpos p) = NilEmpty.string_of_uint (Pos.to_uint p).
Proof.
  unfold to_string. simpl.
  pose proof (DecimalPos.Unsigned.to_uint_nonnil p) as H.
  destruct (Pos.to_uint p); [contradiction | reflexivity ..].
Qed.

Lemma c_str_append (a b : string) :
  CStr.c_str a = a ->
  CStr.c_str (String.append a b) = String.append a (CStr.c_str b).
Proof.
  induction a as [|c a IH]; [reflexivity|]. simpl.
  destruct (Ascii.eqb c CStr.NUL); [discriminate|].
  intros [= H]. now rewrite IH.
Qed.

Lemma c_str_property_name (z : Z) :
  0 < z ->
  CStr.c_str (String.append g_DeviceListProperty (to_string z))
    = String.append g_DeviceListProperty (to_string z).
Proof.
  destruct z as [|p|p]; try lia. intros _.
  rewrite to_string_pos, c_str_append by reflexivity. now rewrite c_str_digits.
Qed.

Lemma to_string_inj (z z' : Z) :
  0 < z -> 0 < z' -> to_string z = to_string z' -> z = z'.
Proof.
  destruct z as [|p|p], z' as [|p'|p']; try lia. intros _ _ H.
  unfold to_string in H. apply DecimalZ.to_int_inj.
  assert (Hnil : forall q, Z.to_int (Zpos q) <> Decimal.Pos Decimal.Nil
                           /\ Z.to_int (Zpos q) <> Decimal.Neg Decimal.Nil).
  { intros q. simpl. split; [|discriminate].
    intros [= Hq]. now apply DecimalPos.Unsigned.to_uint_nonnil in Hq. }
  destruct (Hnil p) as [H1 H2], (Hnil p') as [H1' H2'].
  pose proof (NilZero.isi _ H1 H2) as Hp.
  pose proof (NilZero.isi _ H1' H2') as Hp'.
  rewrite H in Hp. congruence.
Qed.

Lemma names_store_in_range (this : CIntegratedLaserEngine) (i : nat) (v : string) :
  Z.of_nat (length (DevicesNames_ this)) <= INT_MAX ->
  (i < length (DevicesNames_ this))%nat ->
  names_store this (Z.of_nat i) v
    = Some (set_DevicesNames (<[i := v]> (DevicesNames_ this)) this).
Proof.
  unfold INT_MAX. intros Hmax Hi. unfold names_store.
  rewrite to_size_t_small by lia.
  destruct (Z.ltb_spec (Z.of_nat i) (Z.of_nat (length (DevicesNames_ this)))); [|lia].
  now rewrite Nat2Z.id.
Qed.

Lemma device_loop_run (fuel : nat) : forall (i : nat) (this : CIntegratedLaserEngine),
  let N := length (DevicesNames_ this) in
  Z.of_nat N <= INT_MAX -> (i <= N)%nat -> (N - i <= fuel)%nat ->
  device_loop fuel (Z.of_nat N) (Z.of_nat i) this =
    Some (map selection (seq i (N - i)),
          set_DevicesNames (take i (DevicesNames_ this)
                            ++ replicate (N - i) initial_device) this).
Proof.
  induction fuel as [|fuel IH]; intros i this N Hmax Hi Hfuel.
  - assert (i = N) as -> by lia.
    cbn [device_loop]. rewrite Z.ltb_irrefl, Nat.sub_diag. cbn [seq map replicate].
    rewrite take_ge, app_nil_r by (subst N; lia). destruct this; reflexivity.
  - cbn [device_loop].
    destruct (Z.ltb_spec (Z.of_nat i) (Z.of_nat N)) as [Hlt|Hge].
    + unfold CreateDeviceSelectionProperty. cbn zeta. fold initial_device.
      rewrite names_store_in_range by (fold N; lia).
      replace (0 <? Z.of_nat i + 1) with true by (symmetry; apply Z.ltb_lt; lia).
      rewrite c_str_property_name by lia.
      replace (Z.of_nat i + 1) with (Z.of_nat (S i)) by lia.
      set (this' := set_DevicesNames _ this).
      assert (HN : length (DevicesNames_ this') = N)
        by (subst this'; cbn; apply length_insert).
      specialize (IH (S i) this'). cbn zeta in IH. rewrite HN in IH.
      rewrite IH by lia.
      replace (N - i)%nat with (S (N - S i)) by lia.
      cbn [seq map replicate]. fold (selection i).
      f_equal. f_equal. subst this'. unfold set_DevicesNames. cbn. f_equal.
      rewrite (take_S_r _ _ initial_device) by (apply list_lookup_insert_eq; fold N; lia).
      rewrite take_insert_ge by lia. rewrite <- app_assoc. reflexivity.
    + assert (i = N) as -> by lia.
      rewrite Nat.sub_diag. cbn [seq map replicate].
      rewrite take_ge, app_nil_r by (subst N; lia). destruct this; reflexivity.
Qed.

Lemma OnDeviceChange_get (Prop_ : string) (i : nat) (this : CIntegratedLaserEngine)
      (v : string) :
  Z.of_nat (length (DevicesNames_ this)) <= INT_MAX ->
  DevicesNames_ this !! i = Some v ->
  OnDeviceChange Prop_ BeforeGet (Z.of_nat i) this
    = Some (mkHandled DEVICE_OK (CStr.c_str v) this [ReadName (Z.of_nat i)]).
Proof.
  unfold INT_MAX. intros Hmax Hv.
  pose proof (lookup_lt_Some _ _ _ Hv) as Hi.
  unfold OnDeviceChange, names_at. rewrite to_size_t_small by lia.
  destruct (Z.geb_spec (Z.of_nat i) (Z.of_nat (length (DevicesNames_ this)))); [lia|].
  cbn [ActionType_eqb]. rewrite Nat2Z.id, Hv. reflexivity.
Qed.

(** X1. The constructor throws [std::logic_error] when asked for no
    device or a negative number of them.  Otherwise it leaves an adapter
    that is not initialised and has no laser object, with as many slots
    in [DevicesNames_] as devices were asked for, each holding the first
    device of the list (or "Undefined" when the list is empty), and it
    creates one selection property for each slot: named "Device" when
    there is one device and "Device1", "Device2", ... when there are
    several, so that no two have the same name; each property starts with
    the value of its slot and is bound to the index of its slot, for
    which [OnDeviceChange] reports that value and never
    [ERR_DEVICE_INDEXINVALID]. *)
Theorem constructor_selection_properties (NbDevices : Z) :
  NbDevices <= INT_MAX ->
  (NbDevices <= 0 -> CIntegratedLaserEngine_new NbDevices = Some logic_error) /\
  (0 < NbDevices ->
   exists (properties : list SelectionProperty) (this : CIntegratedLaserEngine),
     CIntegratedLaserEngine_new NbDevices = Some (constructed properties this) /\
     Initialized_ this = false /\ Lasers_ this = None /\
     DevicesNames_ this = replicate (Z.to_nat NbDevices) initial_device /\
     map sp_index properties = map Z.of_nat (seq 0 (Z.to_nat NbDevices)) /\
     map sp_name properties
       = (if NbDevices =? 1 then [g_DeviceListProperty]
          else map (fun k => String.append g_DeviceListProperty
                                           (to_string (Z.of_nat (S k))))
                   (seq 0 (Z.to_nat NbDevices))) /\
     NoDup (map sp_name properties) /\
     Forall (fun p =>
               sp_value p = CStr.c_str initial_device /\
               sp_allowed p = DeviceList_ /\
               forall Prop_ : string,
                 OnDeviceChange Prop_ BeforeGet (sp_index p) this
                   = Some (mkHandled DEVICE_OK (sp_value p) this
                                     [ReadName (sp_index p)]))
            properties).
Proof.
  intros Hmax. unfold CIntegratedLaserEngine_new. split.
  - intros Hle. destruct (Z.leb_spec NbDevices 0); [reflexivity | lia].
  - intros Hpos. destruct (Z.leb_spec NbDevices 0); [lia|].
    destruct (Z.eqb_spec NbDevices 1) as [->|Hne].
    + unfold CreateDeviceSelectionProperty. cbn zeta. fold initial_device.
      change (Z.to_nat 1) with 1%nat. cbn [replicate seq map].
      rewrite (names_store_in_range _ 0 initial_device)
        by (cbn [DevicesNames_ length]; unfold INT_MAX; lia).
      cbn [Z.ltb Z.compare]. eexists _, _. split; [reflexivity|].
      cbn [map sp_index sp_name sp_value sp_allowed DevicesNames_ Initialized_ Lasers_
           set_DevicesNames].
      do 5 (split; [reflexivity|]). split.
      * apply NoDup_singleton.
      * constructor; [|constructor]. cbn [sp_index sp_value sp_allowed].
        split; [reflexivity|]. split; [reflexivity|]. intros Prop_.
        apply (OnDeviceChange_get Prop_ 0); [cbn; unfold INT_MAX; lia | reflexivity].
    + set (N := Z.to_nat NbDevices).
      set (this0 := mkILE false (replicate N g_Undefined) None).
      assert (HN : length (DevicesNames_ this0) = N) by apply length_replicate.
      pose proof (device_loop_run N 0 this0) as Hloop. cbn zeta in Hloop.
      rewrite HN in Hloop. replace (Z.of_nat N) with NbDevices in Hloop by (subst N; lia).
      change (Z.of_nat 0) with 0 in Hloop. rewrite Hloop by lia. clear Hloop.
      rewrite Nat.sub_0_r, take_0, app_nil_l.
      eexists _, _. split; [reflexivity|].
      cbn [DevicesNames_ Initialized_ Lasers_ set_DevicesNames].
      rewrite !map_map. cbn [selection sp_index sp_name].
      split; [reflexivity|]. split; [reflexivity|]. split; [reflexivity|].
      split; [reflexivity|]. split; [reflexivity|]. split.
      * change (NoDup ((fun k : nat => String.append g_DeviceListProperty
                                                      (to_string (Z.of_nat (S k))))
                         <$> seq 0 N)).
        apply NoDup_fmap_2; [|apply NoDup_seq].
        intros k k' Hk. apply String.app_inj in Hk. apply to_string_inj in Hk; lia.
      * apply List.Forall_forall. intros p Hp.
        apply List.in_map_iff in Hp as (k & <- & Hk). apply List.in_seq in Hk.
        cbn [selection sp_index sp_value sp_allowed].
        split; [reflexivity|]. split; [reflexivity|]. intros Prop_.
        apply OnDeviceChange_get.
        -- cbn [DevicesNames_ set_DevicesNames]. rewrite length_replicate. subst N. lia.
        -- cbn [DevicesNames_ set_DevicesNames]. apply lookup_replicate_2. lia.
Qed.

(** X2. Written into a slot, a device name is what the property reads
    back: [OnDeviceChange] after a set stores the property's value in the
    slot of its index and changes nothing else, and before a get gives
    the property the C string of what the slot holds; the other slots
    keep what they held. *)
Theorem OnDeviceChange_set_then_get (v q : string) (DeviceIndex : Z)
        (this : CIntegratedLaserEngine) :
  0 <= DeviceIndex < Z.of_nat (length (DevicesNames_ this)) ->
  is_long DeviceIndex ->
  exists this' : CIntegratedLaserEngine,
    OnDeviceChange v AfterSet DeviceIndex this
      = Some (mkHandled DEVICE_OK v this' [WriteName DeviceIndex]) /\
    OnDeviceChange q BeforeGet DeviceIndex this'
      = Some (mkHandled DEVICE_OK (CStr.c_str v) this' [ReadName DeviceIndex]) /\
    Initialized_ this' = Initialized_ this /\ Lasers_ this' = Lasers_ this /\
    length (DevicesNames_ this') = length (DevicesNames_ this) /\
    forall j : Z, is_long j -> j <> DeviceIndex ->
                  names_at this' j = names_at this j.
Proof.
  intros Hi Hlong. unfold is_long in Hlong.
  unfold OnDeviceChange, names_store, names_at.
  rewrite !to_size_t_small by lia.
  destruct (Z.geb_spec DeviceIndex (Z.of_nat (length (DevicesNames_ this)))); [lia|].
  destruct (Z.ltb_spec DeviceIndex (Z.of_nat (length (DevicesNames_ this)))); [|lia].
  cbn [ActionType_eqb]. eexists. split; [reflexivity|].
  cbn [DevicesNames_ set_DevicesNames Initialized_ Lasers_].
  rewrite length_insert.
  destruct (Z.geb_spec DeviceIndex (Z.of_nat (length (DevicesNames_ this)))); [lia|].
  rewrite list_lookup_insert_eq by lia.
  repeat split.
  intros j Hj Hne. unfold is_long in Hj.
  apply list_lookup_insert_ne.
  unfold to_size_t, SIZE_BITS.
  intros Heq. apply Hne.
  destruct (Z_lt_le_dec j 0) as [Hneg|Hpos].
  - exfalso. replace (j mod 2 ^ 64) with (j + 2 ^ 64) in Heq
      by (apply Z.mod_unique with (-1); lia).
    lia.
  - rewrite Z.mod_small in Heq by lia. lia.
Qed.

(** X3. [Shutdown] returns [DEVICE_OK], leaves the adapter not
    initialised and without its laser object and keeps the device names;
    after it the shutter does nothing: [SetOpen], [GetOpen] and [Fire]
    return [DEVICE_OK] without a change, [GetOpen] reporting the shutter
    closed, and a second [Shutdown] changes nothing.  [Fire] returns
    [DEVICE_OK] whatever the two [SetOpen] it makes return, the shutter
    being opened first and closed afterwards. *)
Theorem shutter_after_Shutdown (Open : bool) (this : CIntegratedLaserEngine) :
  let this' := snd (Shutdown this) in
  (fst (Shutdown this) = DEVICE_OK /\
   Initialized_ this' = false /\ Lasers_ this' = None /\
   DevicesNames_ this' = DevicesNames_ this) /\
  (SetOpen Open this' = (DEVICE_OK, this') /\
   GetOpen Open this' = (DEVICE_OK, false, this') /\
   Fire this' = (DEVICE_OK, this') /\
   Shutdown this' = (DEVICE_OK, this')) /\
  (fst (Fire this) = DEVICE_OK /\
   snd (Fire this) = snd (SetOpen false (snd (SetOpen true this)))).
Proof.
  cbn zeta. split; [|split].
  - repeat split.
  - repeat split.
  - unfold Fire. destruct (SetOpen true this) as [r1 this1]. cbn [snd].
    destruct (SetOpen false this1) as [r2 this2]. split; reflexivity.
Qed.

End Adapter.

(** *** The theorems at concrete inputs *)

Definition example_engine : CIntegratedLaserEngine unit :=
  mkILE unit false ["Undefined"; "Undefined"]%string None.

Lemma CreateDevice_registered_names_witness :
  CreateDevice "Andor ILE" "Andor Dual ILE" "Andor Dual ILE 700"
               (Some "Andor Dual ILE"%string) = Some (CDualILE false) /\
  CreateDevice "Andor ILE" "Andor Dual ILE" "Andor Dual ILE 700"
               (Some "Andor"%string) = None.
Proof.
  split.
  - apply (CreateDevice_registered_names
             "Andor ILE" "Andor Dual ILE" "Andor Dual ILE 700" "" "" ""
             (Some "Andor Dual ILE"%string));
      [discriminate | discriminate | discriminate |].
    eexists; split; reflexivity.
  - reflexivity.
Defined.

Lemma OnDeviceChange_index_guard_witness :
  @OnDeviceChange MMDevice_h 109 unit "ILE1" AfterSet 2 example_engine =
    Some (mkHandled unit 109 "ILE1" example_engine []).
Proof.
  apply (@OnDeviceChange_index_guard MMDevice_h 109 unit "ILE1"%string AfterSet 2
           example_engine).
  - unfold is_long. lia.
  - simpl. lia.
Defined.

Lemma shutter_without_lasers_witness :
  @SetOpen MMDevice_h unit (fun _ l => (0, l)) true example_engine
    = (0, example_engine) /\
  @GetOpen MMDevice_h unit (fun o l => (0, true, l)) true example_engine
    = (0, false, example_engine).
Proof.
  apply (@shutter_without_lasers MMDevice_h unit (fun _ l => (0, l))
           (fun o l => (0, true, l)) true example_engine).
  reflexivity.
Defined.

Lemma constructor_selection_properties_witness :
  exists (properties : list SelectionProperty) (this : CIntegratedLaserEngine unit),
    CIntegratedLaserEngine_new unit ["ILE A"; "ILE B"]%string 2
      = Some (constructed unit properties this) /\
    map sp_name properties = ["Device1"; "Device2"]%string /\
    DevicesNames_ unit this = ["ILE A"; "ILE A"]%string.
Proof.
  destruct (@constructor_selection_properties MMDevice_h 109 unit
              ["ILE A"; "ILE B"]%string 2) as [_ H].
  - unfold INT_MAX. lia.
  - destruct H as (properties & this & Hnew & _ & _ & Hnames & _ & Hp & _); [lia|].
    exists properties, this. split; [exact Hnew|]. split; [exact Hp | exact Hnames].
Defined.

Lemma OnDeviceChange_set_then_get_witness :
  exists this' : CIntegratedLaserEngine unit,
    @OnDeviceChange MMDevice_h 109 unit "ILE1" AfterSet 1 example_engine
      = Some (mkHandled unit 0 "ILE1" this' [WriteName 1]) /\
    @OnDeviceChange MMDevice_h 109 unit "" BeforeGet 1 this'
      = Some (mkHandled unit 0 "ILE1" this' [ReadName 1]).
Proof.
  destruct (@OnDeviceChange_set_then_get MMDevice_h 109 unit "ILE1" "" 1 example_engine)
    as (this' & H1 & H2 & _).
  - simpl. lia.
  - unfold is_long. lia.
  - exists this'. split; [exact H1 | exact H2].
Defined.

End ILE.

(** ** ThorlabsUSBCamera.cpp *)

Module Thorlabs.

(** Constants of uc480.h, of the Windows headers and of
    ThorlabsUSBCamera.h, none of them among the sources: parameters. *)
Class Constants : Type := {
  IS_SUCCESS : Z;
  WAIT_OBJECT_0 : Z;
  WAIT_TIMEOUT : Z;
  ERR_THORCAM_LIVE_TIMEOUT : Z;
  ERR_THORCAM_LIVE_UNKNOWN_EVENT : Z;
  ERR_THORCAM_UNKNOWN_PIXEL_TYPE : Z
}.

(** The adapter builds for Windows (events, [DWORD], [HANDLE]), where
    [long], [int] and [unsigned] are 32 bits wide. *)
Definition LONG_MIN : Z := - 2 ^ 31.
Definition LONG_MAX : Z := 2 ^ 31 - 1.
Definition wrap_long (z : Z) : Z := (z + 2 ^ 31) mod 2 ^ 32 - 2 ^ 31.
Definition to_unsigned (z : Z) : Z := z mod 2 ^ 32.
(** [a / b] and [a * b] in [unsigned] arithmetic. *)
Definition udiv (a b : Z) : Z := to_unsigned a / to_unsigned b.
Definition umul (a b : Z) : Z := to_unsigned (a * b).

#[global] Arguments wrap_long : simpl never.
#[global] Arguments to_unsigned : simpl never.
#[global] Arguments udiv : simpl never.
#[global] Arguments umul : simpl never.

Notation "a !=? b" := (negb (Z.eqb a b)) (at level 70, no associativity).

Definition g_PixelType_8bit : string := "8bit".
Definition g_PixelType_16bit : string := "16bit".

(** Modelled from the spec: [ImgBuffer] (MMDevice/ImgBuffer.cpp) is not
    among the sources.  The adapter-owned image buffer, as far as its
    size goes: [Resize] sets the size that [Width], [Height] and
    [Depth] report, the two-argument [Resize] keeping the pixel depth.
    Pixel contents are not tracked. *)
Module ImgBuffer.
Record t : Set := mk { width_ : Z; height_ : Z; pixDepth_ : Z }.
Definition Width (b : t) : Z := width_ b.
Definition Height (b : t) : Z := height_ b.
Definition Depth (b : t) : Z := pixDepth_ b.
Definition Resize (xSize ySize : Z) (b : t) : t := mk xSize ySize (pixDepth_ b).
Definition Resize3 (xSize ySize pixDepth : Z) (b : t) : t := mk xSize ySize pixDepth.
End ImgBuffer.

(** The fields of [MySequenceThread] that its members read. *)
Module MySequenceThread.
Record t : Set := mk {
  numImages_ : Z;
  imageCounter_ : Z;
  stop_ : bool;
  suspend_ : bool
}.
Definition set_imageCounter_ (v : Z) (th : t) : t :=
  mk (numImages_ th) v (stop_ th) (suspend_ th).
Definition set_stop_ (v : bool) (th : t) : t :=
  mk (numImages_ th) (imageCounter_ th) v (suspend_ th).
End MySequenceThread.

(** [SENSORINFO], as far as the adapter reads it. *)
Record SENSORINFO : Set := mkSensor { nMaxWidth : Z; nMaxHeight : Z }.

Inductive ColorMode : Set := IS_CM_SENSOR_RAW8 | IS_CM_SENSOR_RAW16.
Inductive PixelClockCmd : Set :=
| IS_PIXELCLOCK_CMD_GET_RANGE | IS_PIXELCLOCK_CMD_GET | IS_PIXELCLOCK_CMD_SET.
Inductive WaitMode : Set := IS_WAIT | IS_DONT_WAIT.
Inductive Mutex : Set := imgPixelsLock_ | stopLock_ | suspendLock_.

#[global] Instance Mutex_eq_dec : EqDecision Mutex.
Proof. solve_decision. Defined.

Inductive PropertyName : Set :=
| g_Keyword_CameraName | g_Keyword_Binning | g_Keyword_PixelType
| g_Keyword_Exposure | HardwareGain | PixelClockMHz | FPS.

(** The metadata [InsertImage] attaches to a frame; the two time stamps
    come from the wall clock and are left out. *)
Record Metadata : Set := mkMetadata { ROI_X : Z; ROI_Y : Z }.

(** What the adapter does to the world around it, in order: calls of the
    vendor SDK, of the operating system and of the host, the thread it
    starts, the mutexes it takes and releases, and the copies of the
    driver-owned frame buffer into [img_]. *)
Inductive Event : Set :=
| is_InitCamera
| is_GetCameraInfo
| is_GetSensorInfo
| is_SetDisplayMode
| is_SetColorMode (mode : ColorMode)
| is_PixelClock (cmd : PixelClockCmd)
| is_FreeImageMem (buf id : Z)
| is_AllocImageMem (width height bitspixel : Z)
| is_SetImageMem (buf id : Z)
| is_FreezeVideo (wait : WaitMode)
| is_StopLiveVideo (wait : WaitMode)
| is_CaptureVideo (wait : WaitMode)
| is_InitEvent (h : Z)
| is_EnableEvent
| is_DisableEvent
| is_ExitEvent
| is_ExitCamera
| CreateEvent
| WaitForSingleObject (h : Z) (milliseconds : Z)
| CloseHandle (h : Z)
| CreateProperty (name : PropertyName)
| SetAllowedValues (name : PropertyName) (values : list string)
| SetPropertyLimits (name : PropertyName)
| UpdateStatus
| OnPropertyChanged (name : PropertyName) (value : Z)
| PrepareForAcq
| CoreInsertImage (w h b : Z) (md : Metadata) (doProcess : bool)
| ClearImageBuffer
| AcqFinished
| LogMessage
| activate
| Acquire (m : Mutex)
| Release (m : Mutex)
| memcpy (n : Z).

(** What the world answers.  The calls of one run are numbered in the
    order they are made; the [t]-th call returns [w_code t] and, where
    it writes through a pointer, the datum given for [t]. *)
Record World : Type := mkWorld {
  w_code : nat -> Z;
  w_hcam : nat -> Z;
  w_sensor : nat -> SENSORINFO;
  w_mem : nat -> Z * Z
}.

(** The fields of [ThorlabsUSBCam] that the modelled members use,
    followed by the bookkeeping of the model: the number of calls made
    so far, the events so far, and the number of threads started by
    [activate] that have not left [svc]. *)
Record ThorlabsUSBCam : Type := mkCam {
  img_ : ImgBuffer.t;
  initialized_ : bool;
  bitDepth_ : Z;
  roiX_ : Z;
  roiY_ : Z;
  imageCounter_ : Z;
  binSize_ : Z;
  stopOnOverFlow_ : bool;
  camHandle_ : Z;
  sensorInfo : SENSORINFO;
  cameraBuf : Z;
  cameraBufId : Z;
  hEvent : Z;
  thd_ : MySequenceThread.t;
  tick : nat;
  log : list Event;
  threads : nat
}.

Definition set_img_ (v : ImgBuffer.t) (s : ThorlabsUSBCam) : ThorlabsUSBCam :=
  mkCam v (initialized_ s) (bitDepth_ s) (roiX_ s) (roiY_ s)
       (imageCounter_ s) (binSize_ s) (stopOnOverFlow_ s) (camHandle_ s)
       (sensorInfo s) (cameraBuf s) (cameraBufId s) (hEvent s) (thd_ s)
       (tick s) (log s) (threads s).

Definition set_initialized_ (v : bool) (s : ThorlabsUSBCam) : ThorlabsUSBCam :=
  mkCam (img_ s) v (bitDepth_ s) (roiX_ s) (roiY_ s) (imageCounter_ s)
       (binSize_ s) (stopOnOverFlow_ s) (camHandle_ s) (sensorInfo s)
       (cameraBuf s) (cameraBufId s) (hEvent s) (thd_ s) (tick s) (log s)
       (threads s).

Definition set_bitDepth_ (v : Z) (s : ThorlabsUSBCam) : ThorlabsUSBCam :=
  mkCam (img_ s) (initialized_ s) v (roiX_ s) (roiY_ s) (imageCounter_ s)
       (binSize_ s) (stopOnOverFlow_ s) (camHandle_ s) (sensorInfo s)
       (cameraBuf s) (cameraBufId s) (hEvent s) (thd_ s) (tick s) (log s)
       (threads s).

Definition set_roiX_ (v : Z) (s : ThorlabsUSBCam) : ThorlabsUSBCam :=
  mkCam (img_ s) (initialized_ s) (bitDepth_ s) v (roiY_ s)
       (imageCounter_ s) (binSize_ s) (stopOnOverFlow_ s) (camHandle_ s)
       (sensorInfo s) (cameraBuf s) (cameraBufId s) (hEvent s) (thd_ s)
       (tick s) (log s) (threads s).

Definition set_roiY_ (v : Z) (s : ThorlabsUSBCam) : ThorlabsUSBCam :=
  mkCam (img_ s) (initialized_ s) (bitDepth_ s) (roiX_ s) v
       (imageCounter_ s) (binSize_ s) (stopOnOverFlow_ s) (camHandle_ s)
       (sensorInfo s) (cameraBuf s) (cameraBufId s) (hEvent s) (thd_ s)
       (tick s) (log s) (threads s).

Definition set_imageCounter_ (v : Z) (s : ThorlabsUSBCam) : ThorlabsUSBCam :=
  mkCam (img_ s) (initialized_ s) (bitDepth_ s) (roiX_ s) (roiY_ s) v
       (binSize_ s) (stopOnOverFlow_ s) (camHandle_ s) (sensorInfo s)
       (cameraBuf s) (cameraBufId s) (hEvent s) (thd_ s) (tick s) (log s)
       (threads s).

Definition set_binSize_ (v : Z) (s : ThorlabsUSBCam) : ThorlabsUSBCam :=
  mkCam (img_ s) (initialized_ s) (bitDepth_ s) (roiX_ s) (roiY_ s)
       (imageCounter_ s) v (stopOnOverFlow_ s) (camHandle_ s) (sensorInfo s)
       (cameraBuf s) (cameraBufId s) (hEvent s) (thd_ s) (tick s) (log s)
       (threads s).

Definition set_stopOnOverFlow_ (v : bool) (s : ThorlabsUSBCam) : ThorlabsUSBCam :=
  mkCam (img_ s) (initialized_ s) (bitDepth_ s) (roiX_ s) (roiY_ s)
       (imageCounter_ s) (binSize_ s) v (camHandle_ s) (sensorInfo s)
       (cameraBuf s) (cameraBufId s) (hEvent s) (thd_ s) (tick s) (log s)
       (threads s).

Definition set_camHandle_ (v : Z) (s : ThorlabsUSBCam) : ThorlabsUSBCam :=
  mkCam (img_ s) (initialized_ s) (bitDepth_ s) (roiX_ s) (roiY_ s)
       (imageCounter_ s) (binSize_ s) (stopOnOverFlow_ s) v (sensorInfo s)
       (cameraBuf s) (cameraBufId s) (hEvent s) (thd_ s) (tick s) (log s)
       (threads s).

Definition set_sensorInfo (v : SENSORINFO) (s : ThorlabsUSBCam) : ThorlabsUSBCam :=
  mkCam (img_ s) (initialized_ s) (bitDepth_ s) (roiX_ s) (roiY_ s)
       (imageCounter_ s) (binSize_ s) (stopOnOverFlow_ s) (camHandle_ s) v
       (cameraBuf s) (cameraBufId s) (hEvent s) (thd_ s) (tick s) (log s)
       (threads s).

Definition set_cameraBuf (v : Z) (s : ThorlabsUSBCam) : ThorlabsUSBCam :=
  mkCam (img_ s) (initialized_ s) (bitDepth_ s) (roiX_ s) (roiY_ s)
       (imageCounter_ s) (binSize_ s) (stopOnOverFlow_ s) (camHandle_ s)
       (sensorInfo s) v (cameraBufId s) (hEvent s) (thd_ s) (tick s) (log s)
       (threads s).

Definition set_cameraBufId (v : Z) (s : ThorlabsUSBCam) : ThorlabsUSBCam :=
  mkCam (img_ s) (initialized_ s) (bitDepth_ s) (roiX_ s) (roiY_ s)
       (imageCounter_ s) (binSize_ s) (stopOnOverFlow_ s) (camHandle_ s)
       (sensorInfo s) (cameraBuf s) v (hEvent s) (thd_ s) (tick s) (log s)
       (threads s).

Definition set_hEvent (v : Z) (s : ThorlabsUSBCam) : ThorlabsUSBCam :=
  mkCam (img_ s) (initialized_ s) (bitDepth_ s) (roiX_ s) (roiY_ s)
       (imageCounter_ s) (binSize_ s) (stopOnOverFlow_ s) (camHandle_ s)
       (sensorInfo s) (cameraBuf s) (cameraBufId s) v (thd_ s) (tick s)
       (log s) (threads s).

Definition set_thd_ (v : MySequenceThread.t) (s : ThorlabsUSBCam) : ThorlabsUSBCam :=
  mkCam (img_ s) (initialized_ s) (bitDepth_ s) (roiX_ s) (roiY_ s)
       (imageCounter_ s) (binSize_ s) (stopOnOverFlow_ s) (camHandle_ s)
       (sensorInfo s) (cameraBuf s) (cameraBufId s) (hEvent s) v (tick s)
       (log s) (threads s).

Definition set_tick (v : nat) (s : ThorlabsUSBCam) : ThorlabsUSBCam :=
  mkCam (img_ s) (initialized_ s) (bitDepth_ s) (roiX_ s) (roiY_ s)
       (imageCounter_ s) (binSize_ s) (stopOnOverFlow_ s) (camHandle_ s)
       (sensorInfo s) (cameraBuf s) (cameraBufId s) (hEvent s) (thd_ s) v
       (log s) (threads s).

Definition set_log (v : list Event) (s : ThorlabsUSBCam) : ThorlabsUSBCam :=
  mkCam (img_ s) (initialized_ s) (bitDepth_ s) (roiX_ s) (roiY_ s)
       (imageCounter_ s) (binSize_ s) (stopOnOverFlow_ s) (camHandle_ s)
       (sensorInfo s) (cameraBuf s) (cameraBufId s) (hEvent s) (thd_ s)
       (tick s) v (threads s).

Definition set_threads (v : nat) (s : ThorlabsUSBCam) : ThorlabsUSBCam :=
  mkCam (img_ s) (initialized_ s) (bitDepth_ s) (roiX_ s) (roiY_ s)
       (imageCounter_ s) (binSize_ s) (stopOnOverFlow_ s) (camHandle_ s)
       (sensorInfo s) (cameraBuf s) (cameraBufId s) (hEvent s) (thd_ s)
       (tick s) (log s) v.

(** *** Computations on the adapter *)

Definition M (A : Type) : Type := ThorlabsUSBCam -> A * ThorlabsUSBCam.

Definition ret {A : Type} (a : A) : M A := fun s => (a, s).

Definition bind {A B : Type} (m : M A) (k : A -> M B) : M B :=
  fun s => let (a, s') := m s in k a s'.

Definition get {A : Type} (f : ThorlabsUSBCam -> A) : M A := fun s => (f s, s).

Definition modify (f : ThorlabsUSBCam -> ThorlabsUSBCam) : M unit :=
  fun s => (tt, f s).

Notation "x <- m ;; k" := (bind m (fun x => k))
  (at level 100, m at next level, right associativity).
Notation "m ;;; k" := (bind m (fun _ => k))
  (at level 100, right associativity).

Definition emit (e : Event) : M unit :=
  modify (fun s => set_log (log s ++ [e]) s).

(** [MMThreadGuard g(m)] around [body]. *)
Definition MMThreadGuard {A : Type} (m : Mutex) (body : M A) : M A :=
  emit (Acquire m) ;;;
  a <- body ;;
  emit (Release m) ;;;
  ret a.

Definition set_thd (f : MySequenceThread.t -> MySequenceThread.t) : M unit :=
  modify (fun s => set_thd_ (f (thd_ s)) s).

Section Adapter.

Context {MM : MMDeviceConstants} {K : Constants}.
Variable W : World.

(** A call out of the adapter: it is recorded, and answered by the
    world. *)
Definition call (e : Event) : M Z :=
  fun s => (w_code W (tick s),
            set_tick (S (tick s)) (set_log (log s ++ [e]) s)).

(** [is_InitCamera(&camHandle_, NULL)] *)
Definition call_is_InitCamera : M Z :=
  t <- get tick ;;
  nRet <- call is_InitCamera ;;
  modify (set_camHandle_ (w_hcam W t)) ;;;
  ret nRet.

(** [is_GetSensorInfo(camHandle_, &sensorInfo)] *)
Definition call_is_GetSensorInfo : M Z :=
  t <- get tick ;;
  nRet <- call is_GetSensorInfo ;;
  modify (set_sensorInfo (w_sensor W t)) ;;;
  ret nRet.

(** [is_AllocImageMem(camHandle_, w, h, bits, &cameraBuf, &cameraBufId)] *)
Definition call_is_AllocImageMem (w h bits : Z) : M Z :=
  t <- get tick ;;
  nRet <- call (is_AllocImageMem w h bits) ;;
  modify (set_cameraBuf (fst (w_mem W t))) ;;;
  modify (set_cameraBufId (snd (w_mem W t))) ;;;
  ret nRet.

(** The second half of a call: the world answers the call that has been
    made.  Until it does, the caller is blocked. *)
Definition answer : M Z :=
  fun s => (w_code W (tick s), set_tick (S (tick s)) s).

(** [memcpy(img_.GetPixelsRW(), cameraBuf, img_.Width()*img_.Height()*img_.Depth())] *)
Definition copy_frame : M unit :=
  img <- get img_ ;;
  emit (memcpy (umul (umul (ImgBuffer.Width img) (ImgBuffer.Height img))
                     (ImgBuffer.Depth img))).

(** **** MySequenceThread *)

(** [MMThreadGuard(this->stopLock_);] is a temporary: the lock is
    released before the next statement. *)
Definition MySequenceThread_Stop : M unit :=
  MMThreadGuard stopLock_ (ret tt) ;;;
  set_thd (MySequenceThread.set_stop_ true).

Definition MySequenceThread_Start (numImages : Z) : M unit :=
  MMThreadGuard stopLock_ (ret tt) ;;;
  MMThreadGuard suspendLock_ (ret tt) ;;;
  set_thd (fun _ => MySequenceThread.mk numImages 0 false false) ;;;
  emit activate ;;;
  modify (fun s => set_threads (S (threads s)) s).

Definition MySequenceThread_IsStopped : M bool :=
  MMThreadGuard stopLock_ (ret tt) ;;;
  get (fun s => MySequenceThread.stop_ (thd_ s)).

(** **** ThorlabsUSBCam *)

Definition GetImageBuffer : M unit :=
  MMThreadGuard imgPixelsLock_ (ret tt).

Definition GetImageWidth : M Z := get (fun s => ImgBuffer.Width (img_ s)).
Definition GetImageHeight : M Z := get (fun s => ImgBuffer.Height (img_ s)).
Definition GetImageBytesPerPixel : M Z := get (fun s => ImgBuffer.Depth (img_ s)).

(** [bitDepth_], returned as [unsigned]. *)
Definition GetBitDepth : M Z := get (fun s => to_unsigned (bitDepth_ s)).

(** The product is formed in [unsigned] arithmetic and returned as a
    [long]. *)
Definition GetImageBufferSize : M Z :=
  img <- get img_ ;;
  b <- GetImageBytesPerPixel ;;
  ret (wrap_long (umul (umul (ImgBuffer.Width img) (ImgBuffer.Height img)) b)).

Definition SetAllowedBinning : M Z :=
  call (SetAllowedValues g_Keyword_Binning ["1"%string]).

Definition ResizeImageBuffer : M Z :=
  buf <- get cameraBuf ;;
  id <- get cameraBufId ;;
  freed <- (if buf !=? 0 then call (is_FreeImageMem buf id) else ret IS_SUCCESS) ;;
  if freed !=? IS_SUCCESS then ret freed else
  (if buf !=? 0
   then modify (set_cameraBuf 0) ;;; modify (set_cameraBufId 0)
   else ret tt) ;;;
  bitDepth <- get bitDepth_ ;;
  let byteDepth := if bitDepth =? 8 then 1 else 2 in
  sensor <- get sensorInfo ;;
  binSize <- get binSize_ ;;
  ret_ <- call_is_AllocImageMem (udiv (nMaxWidth sensor) binSize)
                                (udiv (nMaxHeight sensor) binSize)
                                (byteDepth * 8) ;;
  if ret_ !=? IS_SUCCESS then ret ret_ else
  buf <- get cameraBuf ;;
  id <- get cameraBufId ;;
  call (is_SetImageMem buf id) ;;;
  modify (fun s => set_img_ (ImgBuffer.Resize3 (udiv (nMaxWidth sensor) binSize)
                                               (udiv (nMaxHeight sensor) binSize)
                                               byteDepth (img_ s)) s) ;;;
  ret DEVICE_OK.

(** The [assert]s on the results of [CreateProperty] are those of a
    release build: no code. *)
Definition Initialize : M Z :=
  initialized <- get initialized_ ;;
  if initialized then ret DEVICE_OK else
  call (CreateProperty g_Keyword_CameraName) ;;;
  modify (set_camHandle_ 0) ;;;
  nRet <- call_is_InitCamera ;;
  if nRet !=? IS_SUCCESS then ret nRet else
  nRet <- call is_GetCameraInfo ;;
  if nRet !=? IS_SUCCESS then ret nRet else
  nRet <- call_is_GetSensorInfo ;;
  if nRet !=? IS_SUCCESS then ret nRet else
  nRet <- call is_SetDisplayMode ;;
  if nRet !=? IS_SUCCESS then ret nRet else
  nRet <- call (is_SetColorMode IS_CM_SENSOR_RAW8) ;;
  if nRet !=? IS_SUCCESS then ret nRet else
  modify (set_bitDepth_ 8) ;;;
  call (CreateProperty g_Keyword_Binning) ;;;
  nRet <- SetAllowedBinning ;;
  if nRet !=? DEVICE_OK then ret nRet else
  call (CreateProperty g_Keyword_PixelType) ;;;
  nRet <- call (SetAllowedValues g_Keyword_PixelType
                  [g_PixelType_8bit; g_PixelType_16bit]) ;;
  if nRet !=? DEVICE_OK then ret nRet else
  call (CreateProperty g_Keyword_Exposure) ;;;
  call (SetPropertyLimits g_Keyword_Exposure) ;;;
  call (CreateProperty HardwareGain) ;;;
  call (SetPropertyLimits HardwareGain) ;;;
  nRet <- call (is_PixelClock IS_PIXELCLOCK_CMD_GET_RANGE) ;;
  if nRet !=? IS_SUCCESS then ret nRet else
  nRet <- call (is_PixelClock IS_PIXELCLOCK_CMD_GET) ;;
  call (CreateProperty PixelClockMHz) ;;;
  call (SetPropertyLimits PixelClockMHz) ;;;
  call (CreateProperty FPS) ;;;
  nRet <- call UpdateStatus ;;
  if nRet !=? DEVICE_OK then ret nRet else
  nRet <- ResizeImageBuffer ;;
  if nRet !=? DEVICE_OK then ret nRet else
  modify (set_initialized_ true) ;;;
  ret DEVICE_OK.

Definition Shutdown : M Z :=
  buf <- get cameraBuf ;;
  id <- get cameraBufId ;;
  freed <- (if buf !=? 0 then call (is_FreeImageMem buf id) else ret IS_SUCCESS) ;;
  if freed !=? IS_SUCCESS then ret freed else
  (if buf !=? 0
   then modify (set_cameraBuf 0) ;;; modify (set_cameraBufId 0)
   else ret tt) ;;;
  call is_ExitCamera ;;;
  modify (set_initialized_ false) ;;;
  ret DEVICE_OK.

Definition SnapImage : M Z :=
  ret_ <- call (is_FreezeVideo IS_WAIT) ;;
  if ret_ !=? IS_SUCCESS then ret ret_ else
  copy_frame ;;;
  ret DEVICE_OK.

Definition SetROI (x y xSize ySize : Z) : M Z :=
  (if (xSize =? 0) && (ySize =? 0) then
     ResizeImageBuffer ;;;
     modify (set_roiX_ 0) ;;;
     modify (set_roiY_ 0)
   else
     modify (fun s => set_img_ (ImgBuffer.Resize xSize ySize (img_ s)) s) ;;;
     modify (set_roiX_ x) ;;;
     modify (set_roiY_ y)) ;;;
  ret DEVICE_OK.

(** The result carries what is left in [x], [y], [xSize], [ySize]. *)
Definition GetROI : M (Z * (Z * Z * Z * Z)) :=
  x <- get roiX_ ;;
  y <- get roiY_ ;;
  xSize <- get (fun s => ImgBuffer.Width (img_ s)) ;;
  ySize <- get (fun s => ImgBuffer.Height (img_ s)) ;;
  ret (DEVICE_OK, (x, y, xSize, ySize)).

Definition ClearROI : M Z :=
  ResizeImageBuffer ;;;
  modify (set_roiX_ 0) ;;;
  modify (set_roiY_ 0) ;;;
  ret DEVICE_OK.

Definition IsCapturing : M bool :=
  stopped <- MySequenceThread_IsStopped ;;
  ret (negb stopped).

Definition InsertImage : M Z :=
  roiX <- get roiX_ ;;
  roiY <- get roiY_ ;;
  let md := mkMetadata (wrap_long roiX) (wrap_long roiY) in
  modify (fun s => set_imageCounter_ (wrap_long (imageCounter_ s + 1)) s) ;;;
  MMThreadGuard imgPixelsLock_
    (GetImageBuffer ;;;
     w <- GetImageWidth ;;
     h <- GetImageHeight ;;
     b <- GetImageBytesPerPixel ;;
     ret_ <- call (CoreInsertImage w h b md true) ;;
     stopOnOverFlow <- get stopOnOverFlow_ ;;
     if negb stopOnOverFlow && (ret_ =? DEVICE_BUFFER_OVERFLOW) then
       call ClearImageBuffer ;;;
       call (CoreInsertImage w h b md false)
     else
       ret ret_).

(** [ThreadRun] from the return of [WaitForSingleObject], which
    returned [dwRet]. *)
Definition ThreadRun_after (dwRet : Z) : M Z :=
  if dwRet =? WAIT_TIMEOUT then
    ret ERR_THORCAM_LIVE_TIMEOUT
  else if dwRet =? WAIT_OBJECT_0 then
    copy_frame ;;;
    InsertImage
  else
    call LogMessage ;;;
    ret ERR_THORCAM_LIVE_UNKNOWN_EVENT.

Definition ThreadRun : M Z :=
  h <- get hEvent ;;
  dwRet <- call (WaitForSingleObject h 2000) ;;
  ThreadRun_after dwRet.

(** [ThreadRun] in the two parts the wait divides it into: up to the call
    of [WaitForSingleObject], in which the thread is blocked, and from
    the moment the world answers that call. *)
Definition ThreadRun_blocked : M unit :=
  h <- get hEvent ;;
  emit (WaitForSingleObject h 2000).

Definition ThreadRun_woken : M Z :=
  dwRet <- answer ;;
  ThreadRun_after dwRet.

Definition OnThreadExiting : M unit :=
  call is_DisableEvent ;;;
  call is_ExitEvent ;;;
  h <- get hEvent ;;
  call (CloseHandle h) ;;;
  modify (set_hEvent 0) ;;;
  call LogMessage ;;;
  call AcqFinished ;;;
  ret tt.

(** The condition of the [do ... while] loop of [svc]:
    [DEVICE_OK == ret && !IsStopped() && imageCounter_++ < numImages_-1]. *)
Definition loop_condition (ret_ : Z) : M bool :=
  if DEVICE_OK =? ret_ then
    stopped <- MySequenceThread_IsStopped ;;
    if negb stopped then
      imageCounter <- get (fun s => MySequenceThread.imageCounter_ (thd_ s)) ;;
      set_thd (MySequenceThread.set_imageCounter_ (wrap_long (imageCounter + 1))) ;;;
      numImages <- get (fun s => MySequenceThread.numImages_ (thd_ s)) ;;
      ret (imageCounter <? wrap_long (numImages - 1))
    else ret false
  else ret false.

(** One turn of the loop: the body, then the loop condition, whose value
    comes first in the result.  The frame rate kept in [fps] is floating
    point on wall-clock time and is left out; the calls made are taken to
    return, so that the [catch] is not entered. *)
Definition svc_iteration : M (bool * Z) :=
  ret_ <- ThreadRun ;;
  again <- loop_condition ret_ ;;
  ret (again, ret_).

(** The rest of a turn in which the thread is blocked in
    [WaitForSingleObject]. *)
Definition svc_woken : M (bool * Z) :=
  ret_ <- ThreadRun_woken ;;
  again <- loop_condition ret_ ;;
  ret (again, ret_).

(** The loop, for at most [fuel] turns; [None] when they are used up
    before the loop condition fails. *)
Fixpoint svc_loop (fuel : nat) : M (option Z) :=
  match fuel with
  | O => ret None
  | S fuel' =>
      r <- svc_iteration ;;
      if fst r then svc_loop fuel' else ret (Some (snd r))
  end.

(** Turns that the loop cannot exceed from state [s]. *)
Definition svc_fuel (s : ThorlabsUSBCam) : nat :=
  S (Z.to_nat (wrap_long (MySequenceThread.numImages_ (thd_ s) - 1)
               - MySequenceThread.imageCounter_ (thd_ s))).

(** [svc] from the end of the loop to [stop_=true]. *)
Definition svc_leave : M unit :=
  stopped <- MySequenceThread_IsStopped ;;
  (if stopped then call LogMessage else ret 0) ;;;
  set_thd (MySequenceThread.set_stop_ true).

(** [svc] from [stop_=true] to its return, with which the thread is
    gone; [actualDuration_] is wall-clock time and is left out. *)
Definition svc_return : M unit :=
  OnThreadExiting ;;;
  modify (fun s => set_threads (pred (threads s)) s).

Definition MySequenceThread_svc : M (option Z) :=
  fuel <- get svc_fuel ;;
  r <- svc_loop fuel ;;
  match r with
  | None => ret None
  | Some ret_ =>
      svc_leave ;;;
      svc_return ;;;
      ret (Some ret_)
  end.

(** [wait()]: the caller is blocked until the threads started by
    [activate] have left [svc]. *)
Fixpoint run_threads (n : nat) : M unit :=
  match n with
  | O => ret tt
  | S n' => MySequenceThread_svc ;;; run_threads n'
  end.

Definition MySequenceThread_wait : M unit :=
  n <- get threads ;;
  run_threads n.

Definition StopSequenceAcquisition : M Z :=
  ret_ <- call (is_StopLiveVideo IS_DONT_WAIT) ;;
  (if ret_ !=? IS_SUCCESS then call LogMessage else ret 0) ;;;
  stopped <- MySequenceThread_IsStopped ;;
  (if negb stopped then
     MySequenceThread_Stop ;;;
     MySequenceThread_wait
   else ret tt) ;;;
  ret DEVICE_OK.

(** [interval_ms] is a [double] that only [MySequenceThread::Start]
    stores; it is left out. *)
Definition StartSequenceAcquisition (numImages : Z) (stopOnOverflow : bool) : M Z :=
  capturing <- IsCapturing ;;
  if capturing then ret DEVICE_CAMERA_BUSY_ACQUIRING else
  ret_ <- call PrepareForAcq ;;
  if ret_ !=? DEVICE_OK then ret ret_ else
  modify (set_imageCounter_ 0) ;;;
  h <- call CreateEvent ;;
  modify (set_hEvent h) ;;;
  call (is_InitEvent h) ;;;
  call is_EnableEvent ;;;
  ret_ <- call (is_CaptureVideo IS_WAIT) ;;
  if ret_ !=? IS_SUCCESS then ret ret_ else
  MySequenceThread_Start numImages ;;;
  modify (set_stopOnOverFlow_ stopOnOverflow) ;;;
  ret DEVICE_OK.

(** [pProp] is the value held by the property: [pProp->Get] reads it,
    [pProp->Set] replaces it; the result carries the value it has in
    the end. *)
Definition OnBinning (pProp : Z) (eAct : ActionType) : M (Z * Z) :=
  match eAct with
  | AfterSet =>
      capturing <- IsCapturing ;;
      if capturing then ret (DEVICE_CAMERA_BUSY_ACQUIRING, pProp) else
      let binFactor := pProp in
      if (0 <? binFactor) && (binFactor <? 10) then
        sensor <- get sensorInfo ;;
        modify (fun s => set_img_ (ImgBuffer.Resize (udiv (nMaxWidth sensor) binFactor)
                                                    (udiv (nMaxHeight sensor) binFactor)
                                                    (img_ s)) s) ;;;
        modify (set_binSize_ binFactor) ;;;
        call (OnPropertyChanged g_Keyword_Binning binFactor) ;;;
        ret (DEVICE_OK, pProp)
      else ret (DEVICE_ERR, pProp)
  | BeforeGet =>
      binSize <- get binSize_ ;;
      ret (DEVICE_OK, binSize)
  | _ => ret (DEVICE_ERR, pProp)
  end.

Definition OnPixelType (pProp : string) (eAct : ActionType) : M (Z * string) :=
  if ActionType_eqb eAct AfterSet then
    capturing <- IsCapturing ;;
    if capturing then ret (DEVICE_CAMERA_BUSY_ACQUIRING, pProp) else
    let pixelType := pProp in
    if String.eqb pixelType g_PixelType_8bit then
      nRet <- call (is_SetColorMode IS_CM_SENSOR_RAW8) ;;
      if nRet !=? IS_SUCCESS then ret (nRet, pProp) else
      modify (set_bitDepth_ 8) ;;;
      r <- ResizeImageBuffer ;;
      ret (r, pProp)
    else if String.eqb pixelType g_PixelType_16bit then
      nRet <- call (is_SetColorMode IS_CM_SENSOR_RAW16) ;;
      if nRet !=? IS_SUCCESS then ret (nRet, pProp) else
      modify (set_bitDepth_ 16) ;;;
      r <- ResizeImageBuffer ;;
      ret (r, pProp)
    else
      modify (set_bitDepth_ 8) ;;;
      ret (ERR_THORCAM_UNKNOWN_PIXEL_TYPE, pProp)
  else if ActionType_eqb eAct BeforeGet then
    bitDepth <- get bitDepth_ ;;
    if bitDepth =? 8 then ret (DEVICE_OK, g_PixelType_8bit)
    else ret (DEVICE_OK, g_PixelType_16bit)
  else ret (DEVICE_OK, pProp).

(** The destructor, up to [delete thd_]. *)
Definition ThorlabsUSBCam_delete : M unit :=
  StopSequenceAcquisition ;;;
  ret tt.

End Adapter.

(** The constructor: [fresh] stands for the memory the object is built
    in, which gives their values to the fields without an initialiser. *)
Definition ThorlabsUSBCam_new (default_numImages : Z) (fresh : ThorlabsUSBCam)
  : ThorlabsUSBCam :=
  mkCam (img_ fresh) false 8 0 0 (imageCounter_ fresh) 1 (stopOnOverFlow_ fresh)
        (camHandle_ fresh) (sensorInfo fresh) 0 0 0
        (MySequenceThread.mk default_numImages 0 true false)
        0 [] 0.

Definition g_CameraDeviceName : string := "ThorCam".

(** The call [InitializeModuleData] makes to [AddAvailableDeviceName]. *)
Definition InitializeModuleData : list (string * string) :=
  [ (g_CameraDeviceName, "Thorlabs DCx USB Camera"%string) ].

Definition CreateDevice (default_numImages : Z) (fresh : ThorlabsUSBCam)
           (deviceName : option string) : option ThorlabsUSBCam :=
  match deviceName with
  | None => None
  | Some deviceName =>
      if CStr.strcmp deviceName g_CameraDeviceName =? 0
      then Some (ThorlabsUSBCam_new default_numImages fresh)
      else None
  end.

(** *** Reading the record of events *)

(** The events of [l'] that come after those of [l]. *)
Definition since (l l' : list Event) : list Event := drop (length l) l'.

Definition is_wait (e : Event) : bool :=
  match e with WaitForSingleObject _ _ => true | _ => false end.

Definition is_stop_check (e : Event) : bool :=
  match e with Acquire stopLock_ => true | _ => false end.

Definition is_activate (e : Event) : bool :=
  match e with activate => true | _ => false end.

Definition is_finished (e : Event) : bool :=
  match e with AcqFinished => true | _ => false end.

Definition count (p : Event -> bool) (l : list Event) : nat :=
  length (filter (fun e => p e = true) l).

(** How many times [m] is held after the events [l], the adapter's
    mutexes being recursive. *)
Fixpoint held (m : Mutex) (l : list Event) (depth : nat) : nat :=
  match l with
  | [] => depth
  | Acquire m' :: l' =>
      held m l' (if decide (m' = m) then S depth else depth)
  | Release m' :: l' =>
      held m l' (if decide (m' = m) then pred depth else depth)
  | _ :: l' => held m l' depth
  end.

(** Every copy of a frame in [l] is made with [m] held, [depth] being
    how many times [m] is held before [l]. *)
Fixpoint copies_guarded (m : Mutex) (l : list Event) (depth : nat) : bool :=
  match l with
  | [] => true
  | memcpy _ :: l' => negb (Nat.eqb depth 0) && copies_guarded m l' depth
  | e :: l' => copies_guarded m l' (held m [e] depth)
  end.

(** What [svc] does once its loop has ended in state [s1]. *)
Definition svc_epilogue (s1 : ThorlabsUSBCam) : list Event :=
  [Acquire stopLock_; Release stopLock_]
  ++ (if MySequenceThread.stop_ (thd_ s1) then [LogMessage] else [])
  ++ [is_DisableEvent; is_ExitEvent; CloseHandle (hEvent s1); LogMessage; AcqFinished].

(** *** Further notions of the record of events *)

(** [p] holds of no event of [l] but with [m] held, [depth] being how
    many times [m] is held before [l]. *)
Fixpoint guarded (p : Event -> bool) (m : Mutex) (l : list Event) (depth : nat) : bool :=
  match l with
  | [] => true
  | e :: l' =>
      (negb (p e) || negb (Nat.eqb depth 0)) && guarded p m l' (held m [e] depth)
  end.

(** The calls into the host's circular buffer. *)
Definition is_buffer_call (e : Event) : bool :=
  match e with
  | CoreInsertImage _ _ _ _ _ | ClearImageBuffer => true
  | _ => false
  end.

Definition is_lock (e : Event) : bool :=
  match e with Acquire _ | Release _ => true | _ => false end.

(** Every mutex is held after [ev] as many times as before. *)
Definition balanced (ev : list Event) : Prop :=
  forall (m : Mutex) (depth : nat), held m ev depth = depth.

(** The calls that free the driver-owned buffer, and the frames handed to
    the host's buffer. *)
Definition is_free (e : Event) : bool :=
  match e with is_FreeImageMem _ _ => true | _ => false end.


(** No event of [ev] satisfies [p]. *)
Definition quiet (p : Event -> bool) (ev : list Event) : Prop := count p ev = 0%nat.

(** Said of the events a computation adds to the record: every mutex is
    left held as many times as it was found, and the host's buffer is
    called only with the pixel mutex held, the computation starting with
    that mutex free ([tidy false]) or held ([tidy true]). *)
Definition tidy (inside : bool) (ev : list Event) : Prop :=
  balanced ev /\
  forall depth : nat,
    (if inside then (0 < depth)%nat else True) ->
    guarded is_buffer_call imgPixelsLock_ ev depth = true.

(** *** What a computation keeps and what it adds *)

(** A computation that leaves [f] of the adapter as it was. *)
Definition preserves {A B : Type} (f : ThorlabsUSBCam -> B) (m : M A) : Prop :=
  forall s, f (snd (m s)) = f s.

(** What a computation adds to the record of events satisfies [Q]. *)
Definition appends {A : Type} (Q : list Event -> Prop) (m : M A) : Prop :=
  forall s, exists ev, log (snd (m s)) = log s ++ ev /\ Q ev.

(** *** Concrete constants and worlds

    The values of the vendor's and the Windows headers, codes for
    ThorlabsUSBCamera.h, a world in which every call succeeds, and the
    adapter after its constructor, [Initialize] and
    [StartSequenceAcquisition] in that world. *)

Definition K0 : Constants :=
  {| IS_SUCCESS := 0;
     WAIT_OBJECT_0 := 0;
     WAIT_TIMEOUT := 258;
     ERR_THORCAM_LIVE_TIMEOUT := 10001;
     ERR_THORCAM_LIVE_UNKNOWN_EVENT := 10002;
     ERR_THORCAM_UNKNOWN_PIXEL_TYPE := 10003 |}.

Definition world_of (code : nat -> Z) : World :=
  mkWorld code (fun _ => 1) (fun _ => mkSensor 1280 1024) (fun _ => (4096, 1)).

Definition W_ok : World := world_of (fun _ => 0).

Definition cam_new : ThorlabsUSBCam :=
  ThorlabsUSBCam_new 1
    (mkCam (ImgBuffer.mk 0 0 0) false 0 0 0 0 0 false 0 (mkSensor 0 0) 0 0 0
           (MySequenceThread.mk 0 0 false false) 0 [] 0).

Definition cam_ready : ThorlabsUSBCam :=
  snd (@Initialize MMDevice_h K0 W_ok cam_new).

Definition cam_live (numImages : Z) (stopOnOverflow : bool) : ThorlabsUSBCam :=
  snd (@StartSequenceAcquisition MMDevice_h K0 W_ok numImages stopOnOverflow cam_ready).

(** *** What is claimed of the image buffer *)

(** The size of [img_] is the full frame for the current binning and
    pixel depth, the divisions being those of [unsigned] arithmetic. *)
Definition buffer_matches (s : ThorlabsUSBCam) : Prop :=
  ImgBuffer.Width (img_ s) = udiv (nMaxWidth (sensorInfo s)) (binSize_ s) /\
  ImgBuffer.Height (img_ s) = udiv (nMaxHeight (sensorInfo s)) (binSize_ s) /\
  ImgBuffer.Depth (img_ s) = (if bitDepth_ s =? 8 then 1 else 2).

(** The frame [InsertImage] hands to the host from state [s]. *)
Definition frame_of (s : ThorlabsUSBCam) (doProcess : bool) : Event :=
  CoreInsertImage (ImgBuffer.Width (img_ s)) (ImgBuffer.Height (img_ s))
                  (ImgBuffer.Depth (img_ s))
                  (mkMetadata (wrap_long (roiX_ s)) (wrap_long (roiY_ s))) doProcess.

(** The bytes a copy of the frame moves. *)
Definition frame_bytes (s : ThorlabsUSBCam) : Z :=
  umul (umul (ImgBuffer.Width (img_ s)) (ImgBuffer.Height (img_ s)))
       (ImgBuffer.Depth (img_ s)).

(** Modelled from the spec: the fixed host error-code enumeration
    (MMDeviceConstants.h is not among the sources).  Its codes are
    consecutive from [DEVICE_OK = 0]; 64 is beyond the last of them. *)
Definition host_error_code (c : Z) : bool := (0 <=? c) && (c <? 64).

(** The vendor calls whose result [Initialize] tests, each with its place
    among the calls [Initialize] makes. *)
Definition checked_vendor_calls : list (nat * Event) :=
  [ (1%nat, is_InitCamera);
    (2%nat, is_GetCameraInfo);
    (3%nat, is_GetSensorInfo);
    (4%nat, is_SetDisplayMode);
    (5%nat, is_SetColorMode IS_CM_SENSOR_RAW8);
    (14%nat, is_PixelClock IS_PIXELCLOCK_CMD_GET_RANGE) ].

Section Notions.

Context {MM : MMDeviceConstants} {K : Constants}.
Variable W : World.

(** The state in which [WaitForSingleObject] leaves the thread. *)
Definition waited (s : ThorlabsUSBCam) : ThorlabsUSBCam :=
  set_tick (S (tick s))
    (set_log (log s ++ [WaitForSingleObject (hEvent s) 2000]) s).

(** What [ThreadRun] does after [WaitForSingleObject] has answered
    [dwRet]. *)
Definition after_wait (s : ThorlabsUSBCam) : list Event :=
  let dwRet := w_code W (tick s) in
  if dwRet =? WAIT_TIMEOUT then []
  else if dwRet =? WAIT_OBJECT_0 then
    let retry := negb (stopOnOverFlow_ s)
                 && (w_code W (1 + tick s)%nat =? DEVICE_BUFFER_OVERFLOW) in
    [memcpy (frame_bytes s);
     Acquire imgPixelsLock_; Acquire imgPixelsLock_; Release imgPixelsLock_;
     frame_of s true]
    ++ (if retry then [ClearImageBuffer; frame_of s false] else [])
    ++ [Release imgPixelsLock_]
  else [LogMessage].

(** The codes that tell success from failure are what the headers make
    them: the vendor's success is the host's, and no error code is. *)
Definition codes_ok : Prop :=
  IS_SUCCESS = DEVICE_OK /\
  DEVICE_ERR <> DEVICE_OK /\
  DEVICE_CAMERA_BUSY_ACQUIRING <> DEVICE_OK /\
  ERR_THORCAM_UNKNOWN_PIXEL_TYPE <> DEVICE_OK.

(** What [ThreadRun] returns from state [s]. *)
Definition thread_result (s : ThorlabsUSBCam) : Z :=
  let dwRet := w_code W (tick s) in
  if dwRet =? WAIT_TIMEOUT then ERR_THORCAM_LIVE_TIMEOUT
  else if dwRet =? WAIT_OBJECT_0 then
    if negb (stopOnOverFlow_ s)
       && (w_code W (1 + tick s)%nat =? DEVICE_BUFFER_OVERFLOW)
    then w_code W (3 + tick s)%nat
    else w_code W (1 + tick s)%nat
  else ERR_THORCAM_LIVE_UNKNOWN_EVENT.

(** A computation that leaves the acquisition thread alone. *)
Definition keeps_thread {A : Type} (m : M A) : Prop :=
  forall s, thd_ (snd (m s)) = thd_ s /\ threads (snd (m s)) = threads s.

(** [StopSequenceAcquisition] up to the test of [IsStopped]. *)
Definition stop_asked (s : ThorlabsUSBCam) : ThorlabsUSBCam :=
  let failed := w_code W (tick s) !=? IS_SUCCESS in
  set_tick ((if failed then 2 else 1) + tick s)%nat
    (set_log (log s ++ is_StopLiveVideo IS_DONT_WAIT
                       :: (if failed then [LogMessage] else [])
                       ++ [Acquire stopLock_; Release stopLock_]) s).

End Notions.

#[global] Arguments waited : simpl never.

(** *** Properties *)

Section Properties.

Context {MM : MMDeviceConstants} {K : Constants}.
Variable W : World.

Ltac run :=
  cbv [InsertImage GetImageBuffer GetImageWidth GetImageHeight GetImageBytesPerPixel
       ThreadRun SnapImage MMThreadGuard call emit modify get bind ret set_thd
       MySequenceThread_IsStopped MySequenceThread_Stop MySequenceThread_Start
       IsCapturing copy_frame ThreadRun_after call_is_AllocImageMem
       call_is_InitCamera call_is_GetSensorInfo SetAllowedBinning];
  cbn.

(** Two states with the same fields are the same state. *)
Lemma cam_ext (s s' : ThorlabsUSBCam) :
  img_ s = img_ s' -> initialized_ s = initialized_ s' ->
  bitDepth_ s = bitDepth_ s' -> roiX_ s = roiX_ s' -> roiY_ s = roiY_ s' ->
  imageCounter_ s = imageCounter_ s' -> binSize_ s = binSize_ s' ->
  stopOnOverFlow_ s = stopOnOverFlow_ s' -> camHandle_ s = camHandle_ s' ->
  sensorInfo s = sensorInfo s' -> cameraBuf s = cameraBuf s' ->
  cameraBufId s = cameraBufId s' -> hEvent s = hEvent s' ->
  thd_ s = thd_ s' -> tick s = tick s' -> log s = log s' ->
  threads s = threads s' -> s = s'.
Proof. destruct s, s'; cbn; intros; subst; reflexivity. Qed.

Ltac logs := cbn; rewrite <- ?app_assoc; cbn; try reflexivity.

(** Equality of results: componentwise, the states field by field. *)
Ltac same :=
  repeat match goal with
         | |- (_, _) = (_, _) => f_equal
         end;
  try reflexivity;
  try (apply cam_ext; logs).

Lemma since_app (l ev : list Event) : since l (l ++ ev) = ev.
Proof. unfold since. apply drop_app_length. Qed.

Lemma count_app (p : Event -> bool) (l1 l2 : list Event) :
  count p (l1 ++ l2) = (count p l1 + count p l2)%nat.
Proof. unfold count. now rewrite filter_app, length_app. Qed.

(** **** InsertImage *)

Lemma InsertImage_run (s : ThorlabsUSBCam) :
  InsertImage W s =
    let retry := negb (stopOnOverFlow_ s) && (w_code W (tick s) =? DEVICE_BUFFER_OVERFLOW) in
    ((if retry then w_code W (2 + tick s)%nat else w_code W (tick s)),
     set_tick (if retry then 3 + tick s else 1 + tick s)%nat
       (set_log (log s ++ [Acquire imgPixelsLock_; Acquire imgPixelsLock_;
                           Release imgPixelsLock_; frame_of s true]
                       ++ (if retry then [ClearImageBuffer; frame_of s false] else [])
                       ++ [Release imgPixelsLock_])
          (set_imageCounter_ (wrap_long (imageCounter_ s + 1)) s))).
Proof.
  run.
  destruct (negb (stopOnOverFlow_ s) && (w_code W (tick s) =? DEVICE_BUFFER_OVERFLOW));
    cbn; same.
Qed.

Lemma StartSequenceAcquisition_flag (numImages : Z) (b : bool) (s : ThorlabsUSBCam) :
  MySequenceThread.stop_ (thd_ s) = true ->
  MySequenceThread.stop_ (thd_ (snd (StartSequenceAcquisition W numImages b s))) = false ->
  stopOnOverFlow_ (snd (StartSequenceAcquisition W numImages b s)) = b.
Proof.
  intros Hstop. unfold StartSequenceAcquisition. run. rewrite Hstop. cbn.
  destruct (w_code W (tick s) !=? DEVICE_OK); cbn; [congruence|].
  destruct (w_code W (S (S (S (S (tick s))))) !=? IS_SUCCESS); cbn; [congruence|].
  reflexivity.
Qed.

(** C1. When the first insertion of the frame into the host buffer
    answers [DEVICE_BUFFER_OVERFLOW]: with [stopOnOverFlow_] false,
    [InsertImage] clears the host buffer, inserts the frame once more and
    returns what that one retry answers, the acquisition thread left as
    it was; with [stopOnOverFlow_] true it returns the overflow code at
    once, with no second insertion.  [stopOnOverFlow_] is what the
    [StartSequenceAcquisition] that started the thread was asked. *)
Theorem InsertImage_overflow (s : ThorlabsUSBCam) :
  w_code W (tick s) = DEVICE_BUFFER_OVERFLOW ->
  (stopOnOverFlow_ s = false ->
   InsertImage W s =
     (w_code W (2 + tick s)%nat,
      set_tick (3 + tick s)%nat
        (set_log (log s ++ [Acquire imgPixelsLock_; Acquire imgPixelsLock_;
                            Release imgPixelsLock_; frame_of s true;
                            ClearImageBuffer; frame_of s false;
                            Release imgPixelsLock_])
           (set_imageCounter_ (wrap_long (imageCounter_ s + 1)) s)))) /\
  (stopOnOverFlow_ s = true ->
   InsertImage W s =
     (DEVICE_BUFFER_OVERFLOW,
      set_tick (1 + tick s)%nat
        (set_log (log s ++ [Acquire imgPixelsLock_; Acquire imgPixelsLock_;
                            Release imgPixelsLock_; frame_of s true;
                            Release imgPixelsLock_])
           (set_imageCounter_ (wrap_long (imageCounter_ s + 1)) s)))) /\
  (forall (numImages : Z) (requested : bool) (s0 : ThorlabsUSBCam),
      MySequenceThread.stop_ (thd_ s0) = true ->
      MySequenceThread.stop_
        (thd_ (snd (StartSequenceAcquisition W numImages requested s0))) = false ->
      stopOnOverFlow_ (snd (StartSequenceAcquisition W numImages requested s0))
        = requested).
Proof.
  intros Hov. repeat split.
  - intros Hso. rewrite InsertImage_run, Hso, Hov, Z.eqb_refl. reflexivity.
  - intros Hso. rewrite InsertImage_run, Hso, Hov. reflexivity.
  - intros. now apply StartSequenceAcquisition_flag.
Qed.

(** **** The copies of the frame and the pixel mutex *)

Lemma GetImageBuffer_log (s : ThorlabsUSBCam) :
  log (snd (GetImageBuffer s)) =
    log s ++ [Acquire imgPixelsLock_; Release imgPixelsLock_].
Proof. run. logs. Qed.

Lemma SnapImage_log (s : ThorlabsUSBCam) :
  log (snd (SnapImage W s)) =
    log s ++ is_FreezeVideo IS_WAIT ::
             (if w_code W (tick s) =? IS_SUCCESS then [memcpy (frame_bytes s)] else []).
Proof.
  run. destruct (w_code W (tick s) =? IS_SUCCESS); unfold frame_bytes; logs.
Qed.

Lemma ThreadRun_run (s : ThorlabsUSBCam) :
  ThreadRun W s =
    let dwRet := w_code W (tick s) in
    let s1 := waited s in
    if dwRet =? WAIT_TIMEOUT then (ERR_THORCAM_LIVE_TIMEOUT, s1)
    else if dwRet =? WAIT_OBJECT_0 then
      InsertImage W (set_log (log s1 ++ [memcpy (frame_bytes s)]) s1)
    else (ERR_THORCAM_LIVE_UNKNOWN_EVENT,
          set_tick (S (tick s1)) (set_log (log s1 ++ [LogMessage]) s1)).
Proof.
  unfold ThreadRun, ThreadRun_after, waited.
  cbv [copy_frame call emit modify get bind ret set_thd].
  cbn -[InsertImage].
  (destruct (w_code W (tick s) =? WAIT_TIMEOUT); [reflexivity|]);
    (destruct (w_code W (tick s) =? WAIT_OBJECT_0); reflexivity).
Qed.

Lemma waited_fields (s : ThorlabsUSBCam) :
  tick (waited s) = S (tick s) /\
  log (waited s) = log s ++ [WaitForSingleObject (hEvent s) 2000] /\
  stopOnOverFlow_ (waited s) = stopOnOverFlow_ s /\
  img_ (waited s) = img_ s /\ roiX_ (waited s) = roiX_ s /\ roiY_ (waited s) = roiY_ s /\
  threads (waited s) = threads s /\
  MySequenceThread.numImages_ (thd_ (waited s)) = MySequenceThread.numImages_ (thd_ s) /\
  MySequenceThread.imageCounter_ (thd_ (waited s))
    = MySequenceThread.imageCounter_ (thd_ s) /\
  MySequenceThread.stop_ (thd_ (waited s)) = MySequenceThread.stop_ (thd_ s).
Proof. unfold waited. cbn. repeat split; reflexivity. Qed.

Lemma ThreadRun_log (s : ThorlabsUSBCam) :
  log (snd (ThreadRun W s)) =
    log s ++ WaitForSingleObject (hEvent s) 2000 :: after_wait W s.
Proof.
  rewrite ThreadRun_run. unfold after_wait. cbn zeta.
  destruct (waited_fields s) as (Ht & Hl & Hso & Hi & Hx & Hy & _).
  destruct (w_code W (tick s) =? WAIT_TIMEOUT); [cbn; rewrite Hl; reflexivity|].
  destruct (w_code W (tick s) =? WAIT_OBJECT_0);
    [|cbn; rewrite Hl; logs].
  rewrite InsertImage_run. cbn. rewrite Hl, Hso, Ht.
  unfold frame_of. cbn. rewrite Hi, Hx, Hy.
  rewrite <- !app_assoc. reflexivity.
Qed.

(** C5, as the code has it.  [GetImageBuffer] takes and releases the pixel
    mutex.  [SnapImage] copies the frame without taking it at all.
    [ThreadRun] copies the frame first and takes the mutex only
    afterwards, in [InsertImage], around the hand-over of the frame to
    the host.  So with the mutex free on entry, neither copy is made with
    the mutex held. *)
Theorem copies_outside_pixel_lock (s : ThorlabsUSBCam) :
  since (log s) (log (snd (GetImageBuffer s)))
    = [Acquire imgPixelsLock_; Release imgPixelsLock_] /\
  since (log s) (log (snd (SnapImage W s)))
    = is_FreezeVideo IS_WAIT ::
        (if w_code W (tick s) =? IS_SUCCESS then [memcpy (frame_bytes s)] else []) /\
  since (log s) (log (snd (ThreadRun W s)))
    = WaitForSingleObject (hEvent s) 2000 :: after_wait W s /\
  copies_guarded imgPixelsLock_ (since (log s) (log (snd (SnapImage W s)))) 0
    = negb (w_code W (tick s) =? IS_SUCCESS) /\
  copies_guarded imgPixelsLock_ (since (log s) (log (snd (ThreadRun W s)))) 0
    = negb (negb (w_code W (tick s) =? WAIT_TIMEOUT)
            && (w_code W (tick s) =? WAIT_OBJECT_0)).
Proof.
  rewrite GetImageBuffer_log, SnapImage_log, ThreadRun_log, !since_app.
  repeat split.
  - destruct (w_code W (tick s) =? IS_SUCCESS); reflexivity.
  - unfold after_wait.
    destruct (w_code W (tick s) =? WAIT_TIMEOUT); [reflexivity|].
    destruct (w_code W (tick s) =? WAIT_OBJECT_0); reflexivity.
Qed.

(** **** Running a computation step by step *)

Lemma bind_run {A B : Type} (m : M A) (k : A -> M B) (s : ThorlabsUSBCam) :
  bind m k s = k (fst (m s)) (snd (m s)).
Proof. unfold bind. destruct (m s); reflexivity. Qed.

Lemma bind_assoc {A B C : Type} (m : M A) (f : A -> M B) (g : B -> M C)
      (s : ThorlabsUSBCam) :
  bind (bind m f) g s = bind m (fun a => bind (f a) g) s.
Proof. unfold bind. destruct (m s); reflexivity. Qed.

Lemma bind_if {A B : Type} (c : bool) (m1 m2 : M A) (k : A -> M B)
      (s : ThorlabsUSBCam) :
  bind (if c then m1 else m2) k s = if c then bind m1 k s else bind m2 k s.
Proof. destruct c; reflexivity. Qed.

Lemma if_run {A : Type} (c : bool) (m1 m2 : M A) (s : ThorlabsUSBCam) :
  (if c then m1 else m2) s = if c then m1 s else m2 s.
Proof. destruct c; reflexivity. Qed.


Tactic Notation "prim" :=
  cbn [fst snd call get modify emit ret set_thd
       img_ initialized_ bitDepth_ roiX_ roiY_ imageCounter_ binSize_ stopOnOverFlow_ camHandle_ sensorInfo cameraBuf cameraBufId hEvent thd_ tick log threads set_img_ set_initialized_ set_bitDepth_ set_roiX_ set_roiY_ set_imageCounter_ set_binSize_ set_stopOnOverFlow_ set_camHandle_ set_sensorInfo set_cameraBuf set_cameraBufId set_hEvent set_thd_ set_tick set_log set_threads].
Tactic Notation "prim" "in" hyp(H) :=
  cbn [fst snd call get modify emit ret set_thd
       img_ initialized_ bitDepth_ roiX_ roiY_ imageCounter_ binSize_ stopOnOverFlow_ camHandle_ sensorInfo cameraBuf cameraBufId hEvent thd_ tick log threads set_img_ set_initialized_ set_bitDepth_ set_roiX_ set_roiY_ set_imageCounter_ set_binSize_ set_stopOnOverFlow_ set_camHandle_ set_sensorInfo set_cameraBuf set_cameraBufId set_hEvent set_thd_ set_tick set_log set_threads] in H.

Ltac step_in H :=
  first [ rewrite bind_assoc in H
        | rewrite bind_if in H
        | rewrite bind_run in H; prim in H
        | rewrite if_run in H ];
  cbn beta in H.

(** **** Initialize *)

Ltac absurd_code :=
  match goal with
  | H : ?x = ?c, H' : ?x <> ?c |- _ => exact (False_ind _ (H' H))
  end.

Ltac split_code H :=
  match type of H with
  | context [if ?a !=? ?b then _ else _] =>
      let E := fresh "E" in
      destruct (Z.eqb_spec a b) as [E|E]; cbn [negb] in H
  end.

(** C6, as the code has it.  When one of the vendor calls that
    [Initialize] tests ([is_InitCamera], [is_GetCameraInfo],
    [is_GetSensorInfo], [is_SetDisplayMode], [is_SetColorMode] and the
    range query of [is_PixelClock]) is made and answers a code other than
    [IS_SUCCESS], [Initialize] makes no further call, returns that very
    code, as the vendor gave it, and leaves [initialized_] false. *)
Theorem Initialize_vendor_failure (s : ThorlabsUSBCam) (k : nat) (e : Event) :
  initialized_ s = false ->
  (k, e) ∈ checked_vendor_calls ->
  since (log s) (log (snd (Initialize W s))) !! k = Some e ->
  w_code W (k + tick s)%nat <> IS_SUCCESS ->
  fst (Initialize W s) = w_code W (k + tick s)%nat /\
  initialized_ (snd (Initialize W s)) = false /\
  length (since (log s) (log (snd (Initialize W s)))) = S k.
Proof.
  intros Hinit Hk. destruct (Initialize W s) as [r s'] eqn:HI.
  cbn [fst snd]. unfold Initialize in HI.
  unfold call_is_InitCamera, call_is_GetSensorInfo, SetAllowedBinning in HI.
  repeat step_in HI. rewrite Hinit in HI.
  unfold checked_vendor_calls in Hk.
  repeat (apply elem_of_cons in Hk as [Hk|Hk]);
    [injection Hk as -> -> .. | now apply elem_of_nil in Hk];
    cbn [Nat.add]; intros Hmade Hfail.

  all: repeat (first [ absurd_code
                     | split_code HI;
                       [| prim in HI; injection HI as <- <-; revert Hmade; prim;
                          rewrite <- ?app_assoc, ?since_app; intros Hmade;
                          first [ absurd_code
                                | discriminate Hmade
                                | split; [reflexivity|]; split; [exact Hinit | reflexivity] ]
                       ] ]).
Qed.

(** **** The size of the image buffer *)

Ltac split_if H :=
  match type of H with
  | context [if ?a !=? ?b then _ else _] =>
      let E := fresh "E" in
      destruct (Z.eqb_spec a b) as [E|E]; cbn [negb] in H
  | context [if ?c then _ else _] =>
      let E := fresh "E" in
      destruct c eqn:E
  end.

Ltac leaf H := prim in H; injection H as <- <-.

Ltac exec H :=
  unfold IsCapturing, MySequenceThread_IsStopped, MMThreadGuard,
         call_is_AllocImageMem, set_thd in H;
  repeat step_in H; prim in H.

Ltac decided :=
  repeat match goal with
         | H : ?c = _ |- context [if ?c then _ else _] => rewrite H
         end.

Lemma ResizeImageBuffer_ok (s : ThorlabsUSBCam) :
  IS_SUCCESS = DEVICE_OK ->
  fst (ResizeImageBuffer W s) = DEVICE_OK ->
  buffer_matches (snd (ResizeImageBuffer W s)).
Proof.
  intros Hc. destruct (ResizeImageBuffer W s) as [r s'] eqn:HR.
  cbn [fst snd]. intros Hok.
  unfold ResizeImageBuffer in HR. exec HR.
  repeat split_if HR; leaf HR;
    try (exfalso; rewrite <- Hc in Hok; auto; fail);
    unfold buffer_matches; prim; cbn [ImgBuffer.Resize3 ImgBuffer.Width
      ImgBuffer.Height ImgBuffer.Depth ImgBuffer.width_ ImgBuffer.height_
      ImgBuffer.pixDepth_]; decided; auto.
Qed.

(** The fields of the state that decide the full frame, and the origin of
    the region of interest. *)
Lemma buffer_matches_ext (s s' : ThorlabsUSBCam) :
  img_ s' = img_ s -> sensorInfo s' = sensorInfo s ->
  binSize_ s' = binSize_ s -> bitDepth_ s' = bitDepth_ s ->
  buffer_matches s -> buffer_matches s'.
Proof. unfold buffer_matches. intros -> -> -> ->. trivial. Qed.

Lemma Initialize_ok (s : ThorlabsUSBCam) :
  IS_SUCCESS = DEVICE_OK ->
  initialized_ s = false ->
  fst (Initialize W s) = DEVICE_OK ->
  buffer_matches (snd (Initialize W s)).
Proof.
  intros Hc Hinit. destruct (Initialize W s) as [r s'] eqn:HI.
  cbn [fst snd]. intros Hok.
  unfold Initialize in HI.
  unfold call_is_InitCamera, call_is_GetSensorInfo, SetAllowedBinning in HI.
  repeat step_in HI. rewrite Hinit in HI.
  match type of HI with
  | context [ResizeImageBuffer W ?st] =>
      pose proof (ResizeImageBuffer_ok st Hc) as HR;
      destruct (ResizeImageBuffer W st) as [a st'];
      cbn [fst snd] in HI, HR
  end.
  repeat (split_if HI; [| leaf HI; exfalso; solve [auto | rewrite <- Hc in Hok; auto]]).
  leaf HI.
  eapply buffer_matches_ext; [..| apply HR; assumption]; reflexivity.
Qed.

Lemma OnPixelType_ok (pProp : string) (s : ThorlabsUSBCam) :
  codes_ok ->
  fst (fst (OnPixelType W pProp AfterSet s)) = DEVICE_OK ->
  buffer_matches (snd (OnPixelType W pProp AfterSet s)).
Proof.
  intros (Hc & _ & Hbusy & Hunk).
  destruct (OnPixelType W pProp AfterSet s) as [[r p] s'] eqn:HP.
  cbn [fst snd]. intros Hok.
  unfold OnPixelType in HP. cbn [ActionType_eqb] in HP. exec HP.
  repeat match type of HP with
  | context [ResizeImageBuffer W ?st] =>
      let HR := fresh "HR" in
      pose proof (ResizeImageBuffer_ok st Hc) as HR;
      destruct (ResizeImageBuffer W st) as [? ?];
      cbn [fst snd] in HP, HR
  end.
  repeat split_if HP; prim in HP; injection HP as <- <- <-;
    try (exfalso; solve [auto | rewrite <- Hc in Hok; auto]);
    auto.
Qed.

Lemma OnBinning_ok (pProp : Z) (s : ThorlabsUSBCam) :
  codes_ok ->
  fst (fst (OnBinning W pProp AfterSet s)) = DEVICE_OK ->
  let s' := snd (OnBinning W pProp AfterSet s) in
  binSize_ s' = pProp /\ 0 < pProp < 10 /\
  sensorInfo s' = sensorInfo s /\ bitDepth_ s' = bitDepth_ s /\
  ImgBuffer.Width (img_ s') = udiv (nMaxWidth (sensorInfo s')) (binSize_ s') /\
  ImgBuffer.Height (img_ s') = udiv (nMaxHeight (sensorInfo s')) (binSize_ s') /\
  ImgBuffer.Depth (img_ s') = ImgBuffer.Depth (img_ s).
Proof.
  intros (Hc & Herr & Hbusy & _).
  destruct (OnBinning W pProp AfterSet s) as [[r p] s'] eqn:HB.
  cbn [fst snd]. intros Hok.
  unfold OnBinning in HB. exec HB.
  repeat split_if HB; prim in HB; injection HB as <- <- <-;
    try (exfalso; auto; fail).
  apply andb_prop in E0 as [H1 H2].
  apply Z.ltb_lt in H1, H2.
  prim. repeat split; try reflexivity; assumption.
Qed.

Lemma SetROI_run (x y xSize ySize : Z) (s : ThorlabsUSBCam) :
  SetROI W x y xSize ySize s =
    if (xSize =? 0) && (ySize =? 0)
    then (DEVICE_OK, set_roiY_ 0 (set_roiX_ 0 (snd (ResizeImageBuffer W s))))
    else (DEVICE_OK,
          set_roiY_ y (set_roiX_ x
            (set_img_ (ImgBuffer.Resize xSize ySize (img_ s)) s))).
Proof.
  unfold SetROI. rewrite bind_run.
  destruct ((xSize =? 0) && (ySize =? 0));
    repeat (rewrite bind_run; prim); reflexivity.
Qed.

Lemma ClearROI_run (s : ThorlabsUSBCam) :
  ClearROI W s = (DEVICE_OK, set_roiY_ 0 (set_roiX_ 0 (snd (ResizeImageBuffer W s)))).
Proof. unfold ClearROI. repeat (rewrite bind_run; prim). reflexivity. Qed.

Lemma GetROI_run (s : ThorlabsUSBCam) :
  GetROI s =
    ((DEVICE_OK, (roiX_ s, roiY_ s, ImgBuffer.Width (img_ s), ImgBuffer.Height (img_ s))),
     s).
Proof. reflexivity. Qed.

(** C4, as the code has it.  After [ResizeImageBuffer], after an
    [Initialize] that had work to do, and after a change of pixel type
    have returned [DEVICE_OK], the size of [img_] is the full frame for
    the current binning and pixel depth: width and height are the sensor's
    maxima divided by the binning factor, the byte depth is 1 for 8 bits
    and 2 otherwise.  After a change of binning has returned [DEVICE_OK],
    width and height are those of the full frame for the new factor and
    the byte depth is what it was.  [SetROI] with a size other than
    (0, 0) makes [img_] that size, not the full frame, and leaves the
    byte depth.  [ClearROI] and [SetROI] with size (0, 0) leave the full
    frame when the [ResizeImageBuffer] they call has succeeded. *)
Theorem buffer_size_after_operations (s : ThorlabsUSBCam) :
  codes_ok ->
  (fst (ResizeImageBuffer W s) = DEVICE_OK ->
   buffer_matches (snd (ResizeImageBuffer W s))) /\
  (initialized_ s = false -> fst (Initialize W s) = DEVICE_OK ->
   buffer_matches (snd (Initialize W s))) /\
  (forall pProp : string,
      fst (fst (OnPixelType W pProp AfterSet s)) = DEVICE_OK ->
      buffer_matches (snd (OnPixelType W pProp AfterSet s))) /\
  (forall pProp : Z,
      fst (fst (OnBinning W pProp AfterSet s)) = DEVICE_OK ->
      let s' := snd (OnBinning W pProp AfterSet s) in
      ImgBuffer.Width (img_ s') = udiv (nMaxWidth (sensorInfo s')) (binSize_ s') /\
      ImgBuffer.Height (img_ s') = udiv (nMaxHeight (sensorInfo s')) (binSize_ s') /\
      ImgBuffer.Depth (img_ s') = ImgBuffer.Depth (img_ s)) /\
  (forall x y xSize ySize : Z,
      (xSize =? 0) && (ySize =? 0) = false ->
      let s' := snd (SetROI W x y xSize ySize s) in
      fst (SetROI W x y xSize ySize s) = DEVICE_OK /\
      ImgBuffer.Width (img_ s') = xSize /\
      ImgBuffer.Height (img_ s') = ySize /\
      ImgBuffer.Depth (img_ s') = ImgBuffer.Depth (img_ s)) /\
  (forall x y : Z,
      fst (ResizeImageBuffer W s) = DEVICE_OK ->
      buffer_matches (snd (SetROI W x y 0 0 s)) /\
      buffer_matches (snd (ClearROI W s))).
Proof.
  intros Hcodes. pose proof Hcodes as (Hc & _).
  split; [apply ResizeImageBuffer_ok, Hc|].
  split; [apply Initialize_ok, Hc|].
  split; [intros pProp; apply OnPixelType_ok, Hcodes|].
  split.
  { intros pProp Hok. pose proof (OnBinning_ok pProp s Hcodes Hok) as H.
    cbn zeta in *. tauto. }
  split.
  - intros x y xSize ySize Hsz. rewrite SetROI_run, Hsz. cbn. auto.
  - intros x y Hok. rewrite SetROI_run, ClearROI_run. cbn [Z.eqb andb snd].
    split; (eapply buffer_matches_ext;
            [..| apply ResizeImageBuffer_ok; [exact Hc | exact Hok]]; reflexivity).
Qed.

(** C9, as the code has it.  After [SetROI (x, y, xSize, ySize)] with a
    size other than (0, 0), which returns [DEVICE_OK], [GetROI] returns
    [DEVICE_OK] and exactly [(x, y, xSize, ySize)].  [SetROI] with size
    (0, 0) does what [ClearROI] does: the origin becomes (0, 0), and when
    the [ResizeImageBuffer] it calls has succeeded the call returns
    [DEVICE_OK] with the buffer at the full frame for the current binning
    and pixel depth.  [GetROI] always returns [DEVICE_OK] and changes
    nothing. *)
Theorem ROI_set_get_clear (x y xSize ySize : Z) (s : ThorlabsUSBCam) :
  ((xSize =? 0) && (ySize =? 0) = false ->
   fst (SetROI W x y xSize ySize s) = DEVICE_OK /\
   fst (GetROI (snd (SetROI W x y xSize ySize s)))
     = (DEVICE_OK, (x, y, xSize, ySize))) /\
  SetROI W x y 0 0 s = ClearROI W s /\
  (roiX_ (snd (ClearROI W s)) = 0 /\ roiY_ (snd (ClearROI W s)) = 0) /\
  (IS_SUCCESS = DEVICE_OK ->
   fst (ResizeImageBuffer W s) = DEVICE_OK ->
   fst (ClearROI W s) = DEVICE_OK /\ buffer_matches (snd (ClearROI W s))) /\
  (fst (fst (GetROI s)) = DEVICE_OK /\ snd (GetROI s) = s).
Proof.
  split; [|split; [|split; [|split]]].
  - intros Hsz. rewrite SetROI_run, Hsz. cbn. auto.
  - rewrite SetROI_run, ClearROI_run. reflexivity.
  - rewrite ClearROI_run. cbn. auto.
  - intros Hc Hok. rewrite ClearROI_run. cbn [fst snd]. split; [reflexivity|].
    eapply buffer_matches_ext;
      [..| apply ResizeImageBuffer_ok; [exact Hc | exact Hok]]; reflexivity.
  - rewrite GetROI_run. auto.
Qed.

(** **** Computations that leave the thread alone *)

Lemma keeps_ret {A : Type} (a : A) : keeps_thread (ret a).
Proof. intros s. split; reflexivity. Qed.

Lemma keeps_get {A : Type} (f : ThorlabsUSBCam -> A) : keeps_thread (get f).
Proof. intros s. split; reflexivity. Qed.

Lemma keeps_call (e : Event) : keeps_thread (call W e).
Proof. intros s. split; reflexivity. Qed.

Lemma keeps_emit (e : Event) : keeps_thread (emit e).
Proof. intros s. split; reflexivity. Qed.

Lemma keeps_modify (f : ThorlabsUSBCam -> ThorlabsUSBCam) :
  (forall s, thd_ (f s) = thd_ s /\ threads (f s) = threads s) ->
  keeps_thread (modify f).
Proof. intros H s. apply H. Qed.

Lemma keeps_bind {A B : Type} (m : M A) (k : A -> M B) :
  keeps_thread m -> (forall a, keeps_thread (k a)) -> keeps_thread (bind m k).
Proof.
  intros Hm Hk s. rewrite bind_run.
  destruct (Hk (fst (m s)) (snd (m s))) as [H1 H2].
  destruct (Hm s) as [H3 H4]. split; congruence.
Qed.

Lemma keeps_if {A : Type} (c : bool) (m1 m2 : M A) :
  keeps_thread m1 -> keeps_thread m2 -> keeps_thread (if c then m1 else m2).
Proof. destruct c; auto. Qed.

Create HintDb keeps.
#[local] Hint Resolve keeps_ret keeps_get keeps_call keeps_emit keeps_if : keeps.

Ltac keeps :=
  repeat first
    [ progress intros
    | apply keeps_bind
    | apply keeps_if
    | apply keeps_modify; intros; split; reflexivity
    | solve [auto with keeps]
    | match goal with
      | |- keeps_thread (match ?e with _ => _ end) => destruct e
      end ].

Lemma keeps_IsCapturing : keeps_thread IsCapturing.
Proof. unfold IsCapturing, MySequenceThread_IsStopped, MMThreadGuard. keeps. Qed.

Lemma keeps_ResizeImageBuffer : keeps_thread (ResizeImageBuffer W).
Proof. unfold ResizeImageBuffer, call_is_AllocImageMem. keeps. Qed.

#[local] Hint Resolve keeps_IsCapturing keeps_ResizeImageBuffer : keeps.

Lemma keeps_Initialize : keeps_thread (Initialize W).
Proof.
  unfold Initialize, call_is_InitCamera, call_is_GetSensorInfo, SetAllowedBinning.
  keeps.
Qed.

Lemma keeps_SnapImage : keeps_thread (SnapImage W).
Proof. unfold SnapImage, copy_frame. keeps. Qed.

Lemma keeps_SetROI (x y xSize ySize : Z) : keeps_thread (SetROI W x y xSize ySize).
Proof. unfold SetROI. keeps. Qed.

Lemma keeps_ClearROI : keeps_thread (ClearROI W).
Proof. unfold ClearROI. keeps. Qed.

Lemma keeps_OnBinning (pProp : Z) (eAct : ActionType) :
  keeps_thread (OnBinning W pProp eAct).
Proof. unfold OnBinning. destruct eAct; keeps. Qed.

Lemma keeps_OnPixelType (pProp : string) (eAct : ActionType) :
  keeps_thread (OnPixelType W pProp eAct).
Proof. unfold OnPixelType. keeps. Qed.

Lemma keeps_InsertImage : keeps_thread (InsertImage W).
Proof.
  unfold InsertImage, MMThreadGuard, GetImageBuffer, GetImageWidth,
         GetImageHeight, GetImageBytesPerPixel, MMThreadGuard.
  keeps.
Qed.

(** **** The acquisition thread *)

Lemma wrap_long_range (z : Z) : LONG_MIN <= wrap_long z <= LONG_MAX.
Proof.
  unfold wrap_long, LONG_MIN, LONG_MAX.
  pose proof (Z.mod_pos_bound (z + 2 ^ 31) (2 ^ 32) ltac:(lia)). lia.
Qed.

Lemma wrap_long_small (z : Z) : LONG_MIN <= z <= LONG_MAX -> wrap_long z = z.
Proof.
  unfold wrap_long, LONG_MIN, LONG_MAX. intros H.
  rewrite Z.mod_small by lia. lia.
Qed.

Lemma count_after_wait (s : ThorlabsUSBCam) :
  count is_wait (after_wait W s) = 0%nat /\
  count is_stop_check (after_wait W s) = 0%nat.
Proof.
  unfold after_wait. cbn zeta.
  destruct (w_code W (tick s) =? WAIT_TIMEOUT); [split; reflexivity|].
  destruct (w_code W (tick s) =? WAIT_OBJECT_0); [|split; reflexivity].
  destruct (negb (stopOnOverFlow_ s)
            && (w_code W (1 + tick s)%nat =? DEVICE_BUFFER_OVERFLOW));
    split; reflexivity.
Qed.

Lemma ThreadRun_fst (s : ThorlabsUSBCam) :
  fst (ThreadRun W s) = thread_result W s.
Proof.
  rewrite ThreadRun_run. unfold thread_result. cbn zeta.
  destruct (waited_fields s) as (Ht & _ & Hso & _).
  destruct (w_code W (tick s) =? WAIT_TIMEOUT); [reflexivity|].
  destruct (w_code W (tick s) =? WAIT_OBJECT_0); [|reflexivity].
  rewrite InsertImage_run. cbn. rewrite Ht, Hso. reflexivity.
Qed.

Lemma ThreadRun_thread (s : ThorlabsUSBCam) :
  let s1 := snd (ThreadRun W s) in
  threads s1 = threads s /\
  MySequenceThread.numImages_ (thd_ s1) = MySequenceThread.numImages_ (thd_ s) /\
  MySequenceThread.imageCounter_ (thd_ s1)
    = MySequenceThread.imageCounter_ (thd_ s) /\
  MySequenceThread.stop_ (thd_ s1) = MySequenceThread.stop_ (thd_ s).
Proof.
  cbn zeta. rewrite ThreadRun_run. cbn zeta.
  destruct (waited_fields s) as (_ & _ & _ & _ & _ & _ & Hth & Hn & Hc & Hs).
  destruct (w_code W (tick s) =? WAIT_TIMEOUT); [cbn; auto|].
  destruct (w_code W (tick s) =? WAIT_OBJECT_0); [|cbn; auto].
  match goal with
  | |- context [InsertImage W ?st] => destruct (keeps_InsertImage st) as [H1 H2]
  end.
  rewrite H1, H2. cbn. auto.
Qed.

(** One turn of the loop, from what [ThreadRun] does in it. *)
Lemma svc_iteration_run (s : ThorlabsUSBCam) :
  svc_iteration W s =
    let ret_ := fst (ThreadRun W s) in
    let s1 := snd (ThreadRun W s) in
    if DEVICE_OK =? ret_ then
      let s2 := set_log ((log s1 ++ [Acquire stopLock_]) ++ [Release stopLock_])
                  (set_log (log s1 ++ [Acquire stopLock_]) s1) in
      if negb (MySequenceThread.stop_ (thd_ s1)) then
        ((MySequenceThread.imageCounter_ (thd_ s1)
            <? wrap_long (MySequenceThread.numImages_ (thd_ s1) - 1), ret_),
         set_thd_ (MySequenceThread.set_imageCounter_
                     (wrap_long (MySequenceThread.imageCounter_ (thd_ s1) + 1))
                     (thd_ s1)) s2)
      else ((false, ret_), s2)
    else ((false, ret_), s1).
Proof.
  unfold svc_iteration, loop_condition. rewrite bind_run. cbn zeta.
  destruct (DEVICE_OK =? fst (ThreadRun W s));
    [|repeat (rewrite bind_run; prim); reflexivity].
  unfold MySequenceThread_IsStopped, MMThreadGuard, set_thd.
  repeat (first [rewrite bind_assoc | rewrite bind_run; prim]; cbn beta).
  destruct (MySequenceThread.stop_ (thd_ (snd (ThreadRun W s)))); cbn [negb];
    repeat (first [rewrite bind_assoc | rewrite bind_run; prim]; cbn beta);
    reflexivity.
Qed.

Lemma svc_iteration_facts (s : ThorlabsUSBCam) :
  let run := ThreadRun W s in
  let turn := svc_iteration W s in
  let c := MySequenceThread.imageCounter_ (thd_ s) in
  let n := MySequenceThread.numImages_ (thd_ s) in
  snd (fst turn) = fst run /\
  (fst (fst turn) = true <->
     fst run = DEVICE_OK /\ MySequenceThread.stop_ (thd_ (snd run)) = false /\
     c < wrap_long (n - 1)) /\
  (exists ev,
      log (snd turn) = log s ++ WaitForSingleObject (hEvent s) 2000 :: ev /\
      count is_wait ev = 0%nat /\
      count is_stop_check ev = (if DEVICE_OK =? fst run then 1%nat else 0%nat)) /\
  threads (snd turn) = threads s /\
  MySequenceThread.numImages_ (thd_ (snd turn)) = n /\
  MySequenceThread.stop_ (thd_ (snd turn)) = MySequenceThread.stop_ (thd_ (snd run)) /\
  (fst (fst turn) = true ->
   MySequenceThread.imageCounter_ (thd_ (snd turn)) = wrap_long (c + 1)) /\
  (LONG_MIN <= c <= LONG_MAX ->
   LONG_MIN <= MySequenceThread.imageCounter_ (thd_ (snd turn)) <= LONG_MAX).
Proof.
  cbn zeta. rewrite svc_iteration_run. cbn zeta.
  destruct (ThreadRun_thread s) as (Hth & Hn & Hc & Hs). cbn zeta in *.
  pose proof (ThreadRun_log s) as Hlog.
  destruct (count_after_wait s) as [Hw Hk].
  destruct (Z.eqb_spec DEVICE_OK (fst (ThreadRun W s))) as [Hok|Hok].
  - destruct (MySequenceThread.stop_ (thd_ (snd (ThreadRun W s)))) eqn:Hstop;
      cbn [negb fst snd]; prim.
    + repeat split; try tauto; try congruence; try discriminate.
      * intros (_ & H & _). discriminate.
      * eexists. split; [rewrite Hlog, <- !app_assoc; cbn; reflexivity|].
        rewrite !count_app, Hw, Hk. split; reflexivity.
      * rewrite Hc; tauto.
      * rewrite Hc; tauto.
    + cbn [MySequenceThread.set_imageCounter_ MySequenceThread.imageCounter_
           MySequenceThread.numImages_ MySequenceThread.stop_].
      rewrite Hn, Hc.
      destruct (Z.ltb_spec (MySequenceThread.imageCounter_ (thd_ s))
                  (wrap_long (MySequenceThread.numImages_ (thd_ s) - 1))).
      * repeat split; auto; try apply wrap_long_range.
        eexists. split; [rewrite Hlog, <- !app_assoc; cbn; reflexivity|].
        rewrite !count_app, Hw, Hk. split; reflexivity.
      * repeat split; auto; try discriminate; try apply wrap_long_range.
        -- intros (_ & _ & H'). lia.
        -- eexists. split; [rewrite Hlog, <- !app_assoc; cbn; reflexivity|].
           rewrite !count_app, Hw, Hk. split; reflexivity.
  - cbn [fst snd]. repeat split; auto; try discriminate; try tauto.
    + intros (H & _). congruence.
    + eexists. split; [exact Hlog|]. auto.
    + rewrite Hc; tauto.
    + rewrite Hc; tauto.
Qed.

Lemma svc_loop_run (fuel : nat) : forall s : ThorlabsUSBCam,
  let n1 := wrap_long (MySequenceThread.numImages_ (thd_ s) - 1) in
  let c := MySequenceThread.imageCounter_ (thd_ s) in
  LONG_MIN <= c <= LONG_MAX ->
  (Z.to_nat (n1 - c) < fuel)%nat ->
  exists (r : Z) (s' : ThorlabsUSBCam) (ev : list Event),
    svc_loop W fuel s = (Some r, s') /\
    log s' = log s ++ ev /\
    1 <= Z.of_nat (count is_wait ev) <= Z.max 1 (n1 - c + 1) /\
    (Z.of_nat (count is_wait ev) < n1 - c + 1 ->
     r <> DEVICE_OK \/ MySequenceThread.stop_ (thd_ s') = true) /\
    threads s' = threads s /\
    LONG_MIN <= MySequenceThread.imageCounter_ (thd_ s') <= LONG_MAX.
Proof.
  induction fuel as [|fuel IH]; intros s n1 c Hc Hfuel; [lia|].
  cbn [svc_loop]. rewrite bind_run.
  destruct (svc_iteration_facts s)
    as (Hret & Hagain & (ev & Hlog & Hw & _) & Hth & Hn & Hstop & Hcount & Hrange).
  cbn zeta in *. fold c in Hagain, Hcount, Hrange. fold n1 in Hagain.
  pose proof (wrap_long_range (MySequenceThread.numImages_ (thd_ s) - 1)) as Hn1.
  fold n1 in Hn1. unfold LONG_MIN, LONG_MAX in *.
  destruct (fst (fst (svc_iteration W s))) eqn:Eagain.
  - destruct Hagain as [(Hok & Hs & Hlt) _]; [reflexivity|].
    specialize (Hcount eq_refl).
    rewrite wrap_long_small in Hcount by (unfold LONG_MIN, LONG_MAX; lia).
    destruct (IH (snd (svc_iteration W s))) as (r & s' & ev' & Hrun & Hlog' & Hk & Hwhy & Hth' & Hc').
    + rewrite Hcount. lia.
    + rewrite Hn, Hcount. fold n1. lia.
    + rewrite Hn, Hcount in Hk, Hwhy. fold n1 in Hk, Hwhy.
      exists r, s', (WaitForSingleObject (hEvent s) 2000 :: ev ++ ev').
      split; [exact Hrun|].
      split; [rewrite Hlog', Hlog, <- app_assoc; reflexivity|].
      change (WaitForSingleObject (hEvent s) 2000 :: ev ++ ev')
        with ([WaitForSingleObject (hEvent s) 2000] ++ ev ++ ev').
      rewrite !count_app, Hw. cbn [count filter length is_wait Nat.add].
      change (count is_wait [WaitForSingleObject (hEvent s) 2000]) with 1%nat.
      split; [lia|]. split; [|split; [congruence | exact Hc']].
      intros Hlt'. apply Hwhy. lia.
  - exists (snd (fst (svc_iteration W s))), (snd (svc_iteration W s)),
           (WaitForSingleObject (hEvent s) 2000 :: ev).
    split; [reflexivity|]. split; [exact Hlog|].
    change (WaitForSingleObject (hEvent s) 2000 :: ev)
      with ([WaitForSingleObject (hEvent s) 2000] ++ ev).
    rewrite count_app, Hw.
    change (count is_wait [WaitForSingleObject (hEvent s) 2000]) with 1%nat.
    split; [lia|]. split; [|split; [exact Hth | apply Hrange; lia]].
    intros Hlt. rewrite Hret, Hstop.
    destruct (Z.eq_dec (fst (ThreadRun W s)) DEVICE_OK) as [Hok|Hok]; [|left; exact Hok].
    destruct (MySequenceThread.stop_ (thd_ (snd (ThreadRun W s)))) eqn:Hs;
      [right; reflexivity|].
    assert (false = true) by (apply Hagain; repeat split; auto; lia).
    discriminate.
Qed.

(** **** [StartSequenceAcquisition] while a sequence is captured *)

Lemma StartSequenceAcquisition_busy (numImages : Z) (stopOnOverflow : bool)
      (s : ThorlabsUSBCam) :
  MySequenceThread.stop_ (thd_ s) = false ->
  StartSequenceAcquisition W numImages stopOnOverflow s =
    (DEVICE_CAMERA_BUSY_ACQUIRING,
     set_log (log s ++ [Acquire stopLock_; Release stopLock_]) s).
Proof.
  intros Hstop.
  destruct (StartSequenceAcquisition W numImages stopOnOverflow s) as [r s'] eqn:HS.
  unfold StartSequenceAcquisition in HS. exec HS.
  rewrite Hstop in HS. cbn [negb] in HS. leaf HS. same.
Qed.

(** **** The thread blocked in its wait, and [Stop] *)

Lemma MySequenceThread_Stop_run (s : ThorlabsUSBCam) :
  MySequenceThread_Stop s =
    (tt, set_thd_ (MySequenceThread.set_stop_ true (thd_ s))
           (set_log (log s ++ [Acquire stopLock_; Release stopLock_]) s)).
Proof. run. same. Qed.

Lemma ThreadRun_blocked_run (s : ThorlabsUSBCam) :
  ThreadRun_blocked s =
    (tt, set_log (log s ++ [WaitForSingleObject (hEvent s) 2000]) s).
Proof. reflexivity. Qed.

Lemma ThreadRun_split (s : ThorlabsUSBCam) :
  ThreadRun W s = ThreadRun_woken W (snd (ThreadRun_blocked s)).
Proof.
  unfold ThreadRun, ThreadRun_woken.
  rewrite ThreadRun_blocked_run, !bind_run. reflexivity.
Qed.

Lemma svc_iteration_split (s : ThorlabsUSBCam) :
  svc_iteration W s = svc_woken W (snd (ThreadRun_blocked s)).
Proof.
  unfold svc_iteration, svc_woken. rewrite !bind_run, ThreadRun_split. reflexivity.
Qed.

(** A blocked thread woken in [b] does what it would do woken in [b']
    when the two states differ in the stop flag and in the events so far
    only. *)
Lemma ThreadRun_woken_run (b : ThorlabsUSBCam) :
  ThreadRun_woken W b =
    let dwRet := w_code W (tick b) in
    let b1 := set_tick (S (tick b)) b in
    if dwRet =? WAIT_TIMEOUT then (ERR_THORCAM_LIVE_TIMEOUT, b1)
    else if dwRet =? WAIT_OBJECT_0 then
      InsertImage W (set_log (log b1 ++ [memcpy (frame_bytes b)]) b1)
    else (ERR_THORCAM_LIVE_UNKNOWN_EVENT,
          set_tick (S (tick b1)) (set_log (log b1 ++ [LogMessage]) b1)).
Proof.
  unfold ThreadRun_woken, ThreadRun_after, answer.
  cbv [copy_frame call emit modify get bind ret set_thd].
  cbn -[InsertImage].
  (destruct (w_code W (tick b) =? WAIT_TIMEOUT); [reflexivity|]);
    (destruct (w_code W (tick b) =? WAIT_OBJECT_0); reflexivity).
Qed.

Lemma ThreadRun_woken_fst (b : ThorlabsUSBCam) :
  fst (ThreadRun_woken W b) = thread_result W b.
Proof.
  rewrite ThreadRun_woken_run. unfold thread_result. cbn zeta.
  destruct (w_code W (tick b) =? WAIT_TIMEOUT); [reflexivity|].
  destruct (w_code W (tick b) =? WAIT_OBJECT_0); [|reflexivity].
  rewrite InsertImage_run. reflexivity.
Qed.

Lemma ThreadRun_woken_log (b : ThorlabsUSBCam) :
  log (snd (ThreadRun_woken W b)) = log b ++ after_wait W b.
Proof.
  rewrite ThreadRun_woken_run. unfold after_wait. cbn zeta.
  destruct (w_code W (tick b) =? WAIT_TIMEOUT); [cbn; now rewrite app_nil_r|].
  destruct (w_code W (tick b) =? WAIT_OBJECT_0); [|reflexivity].
  rewrite InsertImage_run. cbn. unfold frame_of. cbn.
  rewrite <- !app_assoc. reflexivity.
Qed.

Lemma keeps_ThreadRun_woken : keeps_thread (ThreadRun_woken W).
Proof.
  intros b. rewrite ThreadRun_woken_run. cbn zeta.
  destruct (w_code W (tick b) =? WAIT_TIMEOUT); [split; reflexivity|].
  destruct (w_code W (tick b) =? WAIT_OBJECT_0); [|split; reflexivity].
  match goal with
  | |- context [InsertImage W ?st] => destruct (keeps_InsertImage st) as [H1 H2]
  end.
  rewrite H1, H2. split; reflexivity.
Qed.

Lemma loop_condition_run (ret_ : Z) (b : ThorlabsUSBCam) :
  loop_condition ret_ b =
    if DEVICE_OK =? ret_ then
      let b' := set_log (log b ++ [Acquire stopLock_; Release stopLock_]) b in
      if negb (MySequenceThread.stop_ (thd_ b)) then
        (MySequenceThread.imageCounter_ (thd_ b)
           <? wrap_long (MySequenceThread.numImages_ (thd_ b) - 1),
         set_thd_ (MySequenceThread.set_imageCounter_
                     (wrap_long (MySequenceThread.imageCounter_ (thd_ b) + 1))
                     (thd_ b)) b')
      else (false, b')
    else (false, b).
Proof.
  unfold loop_condition. run.
  destruct (DEVICE_OK =? ret_); [|reflexivity].
  destruct (MySequenceThread.stop_ (thd_ b)); cbn; same.
Qed.

(** The rest of a turn, from the wait's return: the turn is the last
    exactly when [ThreadRun] returns an error, or the stop flag is set by
    then, or the images are counted. *)
Lemma svc_woken_facts (b : ThorlabsUSBCam) :
  let c := MySequenceThread.imageCounter_ (thd_ b) in
  let n := MySequenceThread.numImages_ (thd_ b) in
  snd (fst (svc_woken W b)) = fst (ThreadRun_woken W b) /\
  (fst (fst (svc_woken W b)) = false <->
     fst (ThreadRun_woken W b) <> DEVICE_OK \/
     MySequenceThread.stop_ (thd_ b) = true \/
     wrap_long (n - 1) <= c) /\
  log (snd (svc_woken W b))
    = log b ++ after_wait W b
      ++ (if DEVICE_OK =? fst (ThreadRun_woken W b)
          then [Acquire stopLock_; Release stopLock_] else []).
Proof.
  cbn zeta. unfold svc_woken. rewrite !bind_run. prim.
  rewrite loop_condition_run.
  destruct (keeps_ThreadRun_woken b) as [Hthd _].
  pose proof (ThreadRun_woken_log b) as Hlog.
  destruct (Z.eqb_spec DEVICE_OK (fst (ThreadRun_woken W b))) as [Hok|Hok].
  - cbn zeta. rewrite Hthd.
    destruct (MySequenceThread.stop_ (thd_ b)) eqn:Hstop; cbn [negb fst snd]; prim.
    + split; [reflexivity|]. split; [tauto|]. rewrite Hlog, <- app_assoc. reflexivity.
    + split; [reflexivity|]. split; [|rewrite Hlog, <- app_assoc; reflexivity].
      rewrite Z.ltb_ge. split; [tauto|].
      intros [H|[H|H]]; [congruence | discriminate | exact H].
  - cbn [fst snd]. split; [reflexivity|]. split; [|rewrite Hlog, app_nil_r; reflexivity].
    split; [intros _; left; congruence | reflexivity].
Qed.

Lemma count_after_wait_woken (b : ThorlabsUSBCam) (c : bool) :
  count is_wait (after_wait W b
                 ++ (if c then [Acquire stopLock_; Release stopLock_] else [])) = 0%nat.
Proof.
  rewrite count_app. destruct (count_after_wait b) as [-> _].
  destruct c; reflexivity.
Qed.

(** **** [svc] as a whole *)

Lemma svc_run (s s1 : ThorlabsUSBCam) (r : Z) :
  svc_loop W (svc_fuel s) s = (Some r, s1) ->
  MySequenceThread_svc W s =
    (Some r,
     set_threads (pred (threads s1))
       (set_tick ((if MySequenceThread.stop_ (thd_ s1) then 6 else 5) + tick s1)%nat
          (set_log (log s1 ++ svc_epilogue s1)
             (set_hEvent 0
                (set_thd_ (MySequenceThread.set_stop_ true (thd_ s1)) s1))))).
Proof.
  intros Hrun. unfold MySequenceThread_svc.
  rewrite bind_run. prim. rewrite bind_run, Hrun. cbn [fst snd].
  unfold svc_leave, svc_return, OnThreadExiting, svc_epilogue. run.
  destruct (MySequenceThread.stop_ (thd_ s1)); cbn; same.
Qed.

(** C2, as the code has it.  In every turn of the loop of [svc],
    [ThreadRun] is called once and, when it has returned [DEVICE_OK], the
    stop flag is read once, after it; when [ThreadRun] has returned
    another code the flag is not read in that turn.  The loop ends with
    the turn exactly when [ThreadRun] returned a code other than
    [DEVICE_OK], or the stop flag is set, or the turn was the
    [numImages_]-th; so the loop always ends, after at most [numImages_]
    turns (one, when [numImages_] is less than one), and after fewer only
    for an error or a stop, and [svc] returns what the last [ThreadRun]
    returned, having waited no more.  [MySequenceThread::Stop] called
    while the thread is blocked in [WaitForSingleObject (hEvent, 2000)]
    sets the flag under the stop lock and does nothing else: it makes no
    call and leaves the event alone, so that the wait returns what it
    would have returned and [ThreadRun] does and returns the same; the
    flag is read in the loop condition after [ThreadRun], the turn is the
    last, and the thread does not wait again. *)
Theorem svc_terminates_exactly_when (s : ThorlabsUSBCam) :
  let n := MySequenceThread.numImages_ (thd_ s) in
  let c := MySequenceThread.imageCounter_ (thd_ s) in
  LONG_MIN < n <= LONG_MAX ->
  LONG_MIN <= c <= LONG_MAX ->
  (snd (fst (svc_iteration W s)) = fst (ThreadRun W s) /\
   (fst (fst (svc_iteration W s)) = false <->
      fst (ThreadRun W s) <> DEVICE_OK \/
      MySequenceThread.stop_ (thd_ s) = true \/
      n <= c + 1) /\
   exists ev : list Event,
     log (snd (svc_iteration W s))
       = log s ++ WaitForSingleObject (hEvent s) 2000 :: ev /\
     count is_wait ev = 0%nat /\
     count is_stop_check ev
       = (if DEVICE_OK =? fst (ThreadRun W s) then 1%nat else 0%nat)) /\
  (exists (r : Z) (s' : ThorlabsUSBCam) (ev : list Event),
      svc_loop W (svc_fuel s) s = (Some r, s') /\
      log s' = log s ++ ev /\
      1 <= Z.of_nat (count is_wait ev) <= Z.max 1 (n - c) /\
      (Z.of_nat (count is_wait ev) < n - c ->
       r <> DEVICE_OK \/ MySequenceThread.stop_ (thd_ s') = true) /\
      fst (MySequenceThread_svc W s) = Some r /\
      log (snd (MySequenceThread_svc W s)) = log s' ++ svc_epilogue s' /\
      count is_wait (svc_epilogue s') = 0%nat /\
      MySequenceThread.stop_ (thd_ (snd (MySequenceThread_svc W s))) = true) /\
  (let blocked := snd (ThreadRun_blocked s) in
   let stopped := snd (MySequenceThread_Stop blocked) in
   svc_iteration W s = svc_woken W blocked /\
   since (log s) (log blocked) = [WaitForSingleObject (hEvent s) 2000] /\
   stopped = set_thd_ (MySequenceThread.set_stop_ true (thd_ blocked))
               (set_log (log blocked ++ [Acquire stopLock_; Release stopLock_])
                  blocked) /\
   fst (ThreadRun_woken W stopped) = fst (ThreadRun W s) /\
   since (log stopped) (log (snd (ThreadRun_woken W stopped)))
     = since (log blocked) (log (snd (ThreadRun_woken W blocked))) /\
   fst (fst (svc_woken W stopped)) = false /\
   count is_wait (since (log stopped) (log (snd (svc_woken W stopped)))) = 0%nat).
Proof.
  intros n c Hn Hc.
  assert (Hwrap : wrap_long (n - 1) = n - 1)
    by (apply wrap_long_small; unfold LONG_MIN, LONG_MAX in *; lia).
  destruct (svc_iteration_facts s) as (Hret & Hagain & Hev & _).
  cbn zeta in Hagain. fold n c in Hagain. rewrite Hwrap in Hagain.
  destruct (ThreadRun_thread s) as (_ & _ & _ & Hstop). cbn zeta in Hstop.
  rewrite Hstop in Hagain.
  split; [|split].
  - split; [exact Hret|]. split; [|exact Hev].
    destruct (fst (fst (svc_iteration W s))).
    + split; [discriminate|].
      destruct Hagain as [Hyes _]. destruct (Hyes eq_refl) as (Hok & Hs & Hlt).
      intros [H | [H | H]]; [congruence | congruence | lia].
    + split; [|reflexivity]. intros _.
      destruct (Z.eq_dec (fst (ThreadRun W s)) DEVICE_OK) as [Hok|Hok];
        [|left; exact Hok].
      destruct (MySequenceThread.stop_ (thd_ s)) eqn:Hs;
        [right; left; reflexivity|].
      right; right.
      destruct (Z_lt_le_dec c (n - 1)) as [Hlt|Hge]; [|lia].
      assert (false = true) by (apply Hagain; auto). discriminate.
  - destruct (svc_loop_run (svc_fuel s) s Hc)
      as (r & s' & ev & Hrun & Hlog & Hk & Hwhy & _);
      [unfold svc_fuel; lia|].
    fold n c in Hk, Hwhy. rewrite Hwrap in Hk, Hwhy.
    exists r, s', ev. split; [exact Hrun|]. split; [exact Hlog|].
    split; [lia|]. split; [intros; apply Hwhy; lia|].
    rewrite (svc_run s s' r Hrun). cbn [fst snd]. prim.
    split; [reflexivity|]. split; [reflexivity|].
    split; [|reflexivity].
    unfold svc_epilogue. destruct (MySequenceThread.stop_ (thd_ s')); reflexivity.
  - cbn zeta. rewrite MySequenceThread_Stop_run, ThreadRun_blocked_run. cbn [snd].
    split; [apply svc_iteration_split|].
    split; [prim; apply since_app|].
    split; [reflexivity|].
    split; [rewrite ThreadRun_split, !ThreadRun_woken_fst; reflexivity|].
    split; [rewrite !ThreadRun_woken_log, !since_app; reflexivity|].
    match goal with
    | |- context [svc_woken W ?st] =>
        destruct (svc_woken_facts st) as (_ & Hlast & Hlog)
    end.
    cbn zeta in Hlast. split.
    + apply Hlast. right; left. reflexivity.
    + rewrite Hlog, since_app. apply count_after_wait_woken.
Qed.

(** **** [Shutdown] *)

Lemma Shutdown_run (s : ThorlabsUSBCam) :
  Shutdown W s =
    if cameraBuf s !=? 0 then
      if w_code W (tick s) !=? IS_SUCCESS then
        (w_code W (tick s),
         set_tick (S (tick s))
           (set_log (log s ++ [is_FreeImageMem (cameraBuf s) (cameraBufId s)]) s))
      else
        (DEVICE_OK,
         set_initialized_ false
           (set_tick (S (S (tick s)))
              (set_log (log s ++ [is_FreeImageMem (cameraBuf s) (cameraBufId s);
                                  is_ExitCamera])
                 (set_cameraBufId 0 (set_cameraBuf 0 s)))))
    else
      (DEVICE_OK,
       set_initialized_ false
         (set_tick (S (tick s)) (set_log (log s ++ [is_ExitCamera]) s))).
Proof.
  unfold Shutdown. run.
  destruct (cameraBuf s !=? 0); cbn.
  - destruct (w_code W (tick s) !=? IS_SUCCESS); cbn; same.
  - rewrite Z.eqb_refl. cbn. same.
Qed.

(** X4. [Shutdown] frees the driver-owned buffer when there is one, and
    that once.  When the vendor refuses to free it, [Shutdown] returns
    the vendor's code having done nothing else: the camera is not closed
    and [initialized_] and the buffer are as they were.  Otherwise it
    returns [DEVICE_OK] with the camera closed by [is_ExitCamera],
    [initialized_] false and no buffer left, and a [Shutdown] that follows
    closes the camera again without freeing anything. *)
Theorem Shutdown_frees_once (s : ThorlabsUSBCam) :
  let s' := snd (Shutdown W s) in
  (cameraBuf s <> 0 /\ w_code W (tick s) <> IS_SUCCESS ->
   fst (Shutdown W s) = w_code W (tick s) /\
   since (log s) (log s') = [is_FreeImageMem (cameraBuf s) (cameraBufId s)] /\
   initialized_ s' = initialized_ s /\
   cameraBuf s' = cameraBuf s /\ cameraBufId s' = cameraBufId s) /\
  (cameraBuf s = 0 \/ w_code W (tick s) = IS_SUCCESS ->
   fst (Shutdown W s) = DEVICE_OK /\
   since (log s) (log s')
     = (if cameraBuf s =? 0 then []
        else [is_FreeImageMem (cameraBuf s) (cameraBufId s)]) ++ [is_ExitCamera] /\
   initialized_ s' = false /\ cameraBuf s' = 0 /\
   fst (Shutdown W s') = DEVICE_OK /\
   since (log s') (log (snd (Shutdown W s'))) = [is_ExitCamera] /\
   initialized_ (snd (Shutdown W s')) = false).
Proof.
  cbn zeta. rewrite !(Shutdown_run s).
  destruct (Z.eqb_spec (cameraBuf s) 0) as [Hbuf|Hbuf]; cbn [negb].
  - split; [intros [H _]; contradiction|]. intros _. cbn [fst snd]. prim.
    rewrite since_app, Shutdown_run. prim.
    rewrite Hbuf. cbn [Z.eqb negb fst snd]. prim.
    rewrite since_app. repeat split.
  - destruct (Z.eqb_spec (w_code W (tick s)) IS_SUCCESS) as [Hfree|Hfree]; cbn [negb].
    + split; [intros [_ H]; contradiction|]. intros _. cbn [fst snd]. prim.
      rewrite since_app, Shutdown_run. prim. cbn [Z.eqb negb fst snd]. prim.
      rewrite since_app. repeat split.
    + split; [|intros [H|H]; contradiction]. intros _. cbn [fst snd]. prim.
      rewrite since_app. repeat split.
Qed.

(** **** What a computation keeps *)

Lemma preserves_ret {A B : Type} (f : ThorlabsUSBCam -> B) (a : A) : preserves f (ret a).
Proof. intros s. reflexivity. Qed.

Lemma preserves_get {A B : Type} (f : ThorlabsUSBCam -> B) (g : ThorlabsUSBCam -> A) :
  preserves f (get g).
Proof. intros s. reflexivity. Qed.

Lemma preserves_modify {B : Type} (f : ThorlabsUSBCam -> B)
      (g : ThorlabsUSBCam -> ThorlabsUSBCam) :
  (forall s, f (g s) = f s) -> preserves f (modify g).
Proof. intros H s. apply H. Qed.

Lemma preserves_call {B : Type} (f : ThorlabsUSBCam -> B) (e : Event) :
  (forall s t l, f (set_tick t (set_log l s)) = f s) -> preserves f (call W e).
Proof. intros H s. apply H. Qed.

Lemma preserves_bind {A B C : Type} (f : ThorlabsUSBCam -> C) (m : M A) (k : A -> M B) :
  preserves f m -> (forall a, preserves f (k a)) -> preserves f (bind m k).
Proof. intros Hm Hk s. rewrite bind_run, Hk. apply Hm. Qed.

Lemma preserves_if {A B : Type} (f : ThorlabsUSBCam -> B) (c : bool) (m1 m2 : M A) :
  preserves f m1 -> preserves f m2 -> preserves f (if c then m1 else m2).
Proof. destruct c; auto. Qed.

Ltac frame :=
  repeat first
    [ progress intros
    | apply preserves_bind
    | apply preserves_if
    | apply preserves_ret
    | apply preserves_get
    | apply preserves_call; intros; reflexivity
    | apply preserves_modify; intros; reflexivity
    | assumption
    | match goal with
      | |- preserves _ (match ?e with _ => _ end) => destruct e
      end ].

Ltac open_prims :=
  unfold MMThreadGuard, emit, set_thd, call_is_AllocImageMem, call_is_InitCamera,
         call_is_GetSensorInfo, ThreadRun_after, SetAllowedBinning,
         copy_frame, GetImageBuffer, GetImageWidth, GetImageHeight,
         GetImageBytesPerPixel, MySequenceThread_IsStopped, IsCapturing.

Lemma ResizeImageBuffer_initialized :
  preserves initialized_ (ResizeImageBuffer W).
Proof. unfold ResizeImageBuffer. open_prims. frame. Qed.

(** **** [Initialize], once *)

Lemma Initialize_again (s : ThorlabsUSBCam) :
  initialized_ s = true -> Initialize W s = (DEVICE_OK, s).
Proof.
  intros H. unfold Initialize. rewrite bind_run. prim. rewrite H. reflexivity.
Qed.

Lemma Initialize_flag (s : ThorlabsUSBCam) :
  IS_SUCCESS = DEVICE_OK ->
  initialized_ s = false ->
  (initialized_ (snd (Initialize W s)) = true <-> fst (Initialize W s) = DEVICE_OK).
Proof.
  intros Hc Hinit. destruct (Initialize W s) as [r s'] eqn:HI.
  cbn [fst snd].
  unfold Initialize in HI.
  unfold call_is_InitCamera, call_is_GetSensorInfo, SetAllowedBinning in HI.
  repeat step_in HI. rewrite Hinit in HI.
  match type of HI with
  | context [ResizeImageBuffer W ?st] =>
      pose proof (ResizeImageBuffer_initialized st) as HR;
      destruct (ResizeImageBuffer W st) as [a st'];
      cbn [fst snd] in HI, HR; prim in HR; rewrite Hinit in HR
  end.
  repeat (split_if HI;
          [| leaf HI; prim; rewrite ?Hinit, ?HR;
             split; [discriminate | intros Hok; exfalso; congruence]]).
  leaf HI. prim. split; reflexivity.
Qed.

(** X5. [Initialize] of an adapter that is initialised returns [DEVICE_OK]
    and does nothing: it makes no call.  Of an adapter that is not, it
    sets [initialized_] exactly when it returns [DEVICE_OK]; so an
    [Initialize] that follows one that returned [DEVICE_OK] does nothing.
    (The vendor's success code is the host's.) *)
Theorem Initialize_once (s : ThorlabsUSBCam) :
  IS_SUCCESS = DEVICE_OK ->
  let r := fst (Initialize W s) in
  let s' := snd (Initialize W s) in
  (initialized_ s = true -> r = DEVICE_OK /\ s' = s) /\
  (initialized_ s = false -> (initialized_ s' = true <-> r = DEVICE_OK)) /\
  (r = DEVICE_OK -> Initialize W s' = (DEVICE_OK, s')).
Proof.
  intros Hc. cbn zeta. split; [|split].
  - intros H. rewrite Initialize_again by exact H. split; reflexivity.
  - apply Initialize_flag; exact Hc.
  - intros Hok. apply Initialize_again.
    destruct (initialized_ s) eqn:Hi.
    + rewrite Initialize_again by exact Hi. exact Hi.
    + apply (Initialize_flag s Hc Hi). exact Hok.
Qed.

(** **** The size of a frame *)

Lemma to_unsigned_wrap_long (z : Z) : to_unsigned (wrap_long z) = to_unsigned z.
Proof.
  unfold to_unsigned, wrap_long.
  rewrite Zminus_mod_idemp_l.
  f_equal. lia.
Qed.

Lemma to_unsigned_umul (a b : Z) : to_unsigned (umul a b) = umul a b.
Proof. unfold umul, to_unsigned. apply Z.mod_mod. lia. Qed.

Lemma to_unsigned_small (z : Z) : 0 <= z < 2 ^ 32 -> to_unsigned z = z.
Proof. intros H. unfold to_unsigned. apply Z.mod_small. exact H. Qed.

Lemma GetImageBufferSize_run (s : ThorlabsUSBCam) :
  GetImageBufferSize s = (wrap_long (frame_bytes s), s).
Proof. reflexivity. Qed.

(** X6. [GetImageBufferSize] changes nothing and returns the product of
    the width, the height and the byte depth of [img_], formed in
    [unsigned] arithmetic and returned as a [long]: the product itself
    when that is below 2^31.  The copies of a frame in [SnapImage] and in
    [ThreadRun] move that many bytes.  [SnapImage] returns the code of
    [is_FreezeVideo] without a copy when that is not [IS_SUCCESS], and
    [DEVICE_OK] after the copy otherwise. *)
Theorem copies_move_buffer_size (s : ThorlabsUSBCam) :
  let n := fst (GetImageBufferSize s) in
  let w := ImgBuffer.Width (img_ s) in
  let h := ImgBuffer.Height (img_ s) in
  let d := ImgBuffer.Depth (img_ s) in
  snd (GetImageBufferSize s) = s /\
  (0 <= w -> 0 <= h -> 0 <= d -> w * h * d < 2 ^ 31 -> n = w * h * d) /\
  (w_code W (tick s) = IS_SUCCESS ->
   SnapImage W s =
     (DEVICE_OK,
      set_tick (S (tick s))
        (set_log (log s ++ [is_FreezeVideo IS_WAIT; memcpy (to_unsigned n)]) s))) /\
  (w_code W (tick s) <> IS_SUCCESS ->
   SnapImage W s =
     (w_code W (tick s),
      set_tick (S (tick s)) (set_log (log s ++ [is_FreezeVideo IS_WAIT]) s))) /\
  (w_code W (tick s) <> WAIT_TIMEOUT -> w_code W (tick s) = WAIT_OBJECT_0 ->
   since (log s) (log (snd (ThreadRun W s))) !! 1%nat = Some (memcpy (to_unsigned n))).
Proof.
  cbn zeta. rewrite GetImageBufferSize_run. cbn [fst snd].
  rewrite to_unsigned_wrap_long. unfold frame_bytes at 2 3. rewrite to_unsigned_umul.
  fold (frame_bytes s).
  split; [reflexivity|]. split; [|split; [|split]].
  - intros Hw Hh Hd Hlt. unfold frame_bytes, umul.
    assert (0 <= ImgBuffer.Width (img_ s) * ImgBuffer.Height (img_ s)) by nia.
    destruct (Z.eq_dec (ImgBuffer.Depth (img_ s)) 0) as [Hz|Hz].
    + rewrite Hz, !Z.mul_0_r. reflexivity.
    + assert (ImgBuffer.Width (img_ s) * ImgBuffer.Height (img_ s) < 2 ^ 31) by nia.
      rewrite (to_unsigned_small (ImgBuffer.Width (img_ s) * ImgBuffer.Height (img_ s))) by lia.
      rewrite to_unsigned_small by lia.
      apply wrap_long_small. unfold LONG_MIN, LONG_MAX. lia.
  - intros Hok. run. rewrite Hok, Z.eqb_refl. cbn. unfold frame_bytes. same.
  - intros Hno. run. destruct (Z.eqb_spec (w_code W (tick s)) IS_SUCCESS); [contradiction|].
    cbn. same.
  - intros Ht Ho. rewrite ThreadRun_log, since_app. unfold after_wait. cbn zeta.
    destruct (Z.eqb_spec (w_code W (tick s)) WAIT_TIMEOUT); [contradiction|].
    rewrite Ho, Z.eqb_refl. reflexivity.
Qed.

(** **** The properties of binning and pixel type *)

Lemma IsCapturing_run (s : ThorlabsUSBCam) :
  IsCapturing s =
    (negb (MySequenceThread.stop_ (thd_ s)),
     set_log (log s ++ [Acquire stopLock_; Release stopLock_]) s).
Proof. run. same. Qed.

Lemma OnBinning_set (pProp : Z) (s : ThorlabsUSBCam) :
  OnBinning W pProp AfterSet s =
    let s1 := set_log (log s ++ [Acquire stopLock_; Release stopLock_]) s in
    if negb (MySequenceThread.stop_ (thd_ s)) then
      ((DEVICE_CAMERA_BUSY_ACQUIRING, pProp), s1)
    else if (0 <? pProp) && (pProp <? 10) then
      ((DEVICE_OK, pProp),
       set_tick (S (tick s))
         (set_log (log s1 ++ [OnPropertyChanged g_Keyword_Binning pProp])
            (set_binSize_ pProp
               (set_img_ (ImgBuffer.Resize (udiv (nMaxWidth (sensorInfo s)) pProp)
                                           (udiv (nMaxHeight (sensorInfo s)) pProp)
                                           (img_ s)) s1))))
    else ((DEVICE_ERR, pProp), s1).
Proof.
  unfold OnBinning. rewrite bind_run, IsCapturing_run. cbn [fst snd].
  destruct (negb (MySequenceThread.stop_ (thd_ s))); [reflexivity|].
  destruct ((0 <? pProp) && (pProp <? 10)); [|reflexivity].
  repeat (first [rewrite bind_assoc | rewrite bind_run; prim]; cbn beta).
  same.
Qed.

(** X7. With no sequence being captured, a binning factor from 1 to 9
    that is set is the one read back: [OnBinning] after a set returns
    [DEVICE_OK] and tells the host of the change, and before a get it
    gives the property that factor.  A factor outside 1..9 is refused with
    [DEVICE_ERR], nothing but the stop lock being touched; an action other
    than a set or a get returns [DEVICE_ERR] and does nothing. *)
Theorem OnBinning_round_trip (pProp : Z) (s : ThorlabsUSBCam) :
  MySequenceThread.stop_ (thd_ s) = true ->
  let s' := snd (OnBinning W pProp AfterSet s) in
  (0 < pProp < 10 ->
   fst (OnBinning W pProp AfterSet s) = (DEVICE_OK, pProp) /\
   since (log s) (log s')
     = [Acquire stopLock_; Release stopLock_; OnPropertyChanged g_Keyword_Binning pProp] /\
   forall q : Z, OnBinning W q BeforeGet s' = ((DEVICE_OK, pProp), s')) /\
  (~ 0 < pProp < 10 ->
   OnBinning W pProp AfterSet s =
     ((DEVICE_ERR, pProp),
      set_log (log s ++ [Acquire stopLock_; Release stopLock_]) s)) /\
  (forall eAct : ActionType, eAct <> AfterSet -> eAct <> BeforeGet ->
   OnBinning W pProp eAct s = ((DEVICE_ERR, pProp), s)).
Proof.
  intros Hstop. cbn zeta. rewrite OnBinning_set, Hstop. cbn [negb].
  split; [|split].
  - intros [H1 H2].
    apply Z.ltb_lt in H1, H2. rewrite H1, H2. cbn [andb fst snd]. prim.
    rewrite <- app_assoc, since_app. repeat split.
  - intros Hout.
    destruct (Z.ltb_spec 0 pProp); destruct (Z.ltb_spec pProp 10); cbn [andb];
      try reflexivity.
    exfalso. apply Hout. lia.
  - intros eAct H1 H2. destruct eAct; try reflexivity; contradiction.
Qed.

Lemma OnPixelType_get (q : string) (s : ThorlabsUSBCam) :
  OnPixelType W q BeforeGet s =
    ((DEVICE_OK, if bitDepth_ s =? 8 then g_PixelType_8bit else g_PixelType_16bit), s).
Proof.
  unfold OnPixelType. cbn [ActionType_eqb]. rewrite bind_run. prim.
  destruct (bitDepth_ s =? 8); reflexivity.
Qed.

Lemma ResizeImageBuffer_bitDepth (s : ThorlabsUSBCam) :
  bitDepth_ (snd (ResizeImageBuffer W s)) = bitDepth_ s.
Proof.
  destruct (ResizeImageBuffer W s) as [r s'] eqn:HR.
  unfold ResizeImageBuffer in HR. exec HR.
  repeat split_if HR; leaf HR; reflexivity.
Qed.

(** X8. A pixel type whose set returns [DEVICE_OK] is one of "8bit" and
    "16bit", the bit depth reported is then 8 or 16 accordingly, and a get
    gives the property that very pixel type.  With no sequence being
    captured, a set of any other pixel type returns
    [ERR_THORCAM_UNKNOWN_PIXEL_TYPE] without a vendor call and leaves the
    adapter at 8 bits, which a get reports as "8bit". *)
Theorem OnPixelType_round_trip (pProp : string) (s : ThorlabsUSBCam) :
  codes_ok ->
  let s' := snd (OnPixelType W pProp AfterSet s) in
  (fst (fst (OnPixelType W pProp AfterSet s)) = DEVICE_OK ->
   (pProp = g_PixelType_8bit \/ pProp = g_PixelType_16bit) /\
   fst (GetBitDepth s') = (if String.eqb pProp g_PixelType_8bit then 8 else 16) /\
   forall q : string, OnPixelType W q BeforeGet s' = ((DEVICE_OK, pProp), s')) /\
  (MySequenceThread.stop_ (thd_ s) = true ->
   pProp <> g_PixelType_8bit -> pProp <> g_PixelType_16bit ->
   OnPixelType W pProp AfterSet s =
     ((ERR_THORCAM_UNKNOWN_PIXEL_TYPE, pProp),
      set_bitDepth_ 8 (set_log (log s ++ [Acquire stopLock_; Release stopLock_]) s)) /\
   forall q : string, OnPixelType W q BeforeGet s' = ((DEVICE_OK, g_PixelType_8bit), s')).
Proof.
  intros (Hc & _ & Hbusy & Hunk). cbn zeta.
  destruct (OnPixelType W pProp AfterSet s) as [[r p] s'] eqn:HP.
  cbn [fst snd].
  unfold OnPixelType in HP. cbn [ActionType_eqb] in HP.
  rewrite bind_run, IsCapturing_run in HP. cbn [fst snd] in HP.
  split.
  - intros Hok.
    destruct (negb (MySequenceThread.stop_ (thd_ s)));
      [injection HP as <- <- <-; contradiction|].
    destruct (String.eqb_spec pProp g_PixelType_8bit) as [H8|H8].
    + repeat step_in HP.
      match type of HP with
      | context [ResizeImageBuffer W ?st] =>
          pose proof (ResizeImageBuffer_bitDepth st) as HR;
          destruct (ResizeImageBuffer W st) as [? ?];
          cbn [fst snd] in HP, HR; prim in HR
      end.
      split_if HP; prim in HP; injection HP as <- <- <-;
        [|exfalso; rewrite <- Hc in Hok; auto].
      split; [left; exact H8|]. cbn [GetBitDepth get fst]. rewrite HR.
      split; [reflexivity|]. intros q. rewrite OnPixelType_get, HR, H8. reflexivity.
    + destruct (String.eqb_spec pProp g_PixelType_16bit) as [H16|H16].
      * repeat step_in HP.
        match type of HP with
        | context [ResizeImageBuffer W ?st] =>
            pose proof (ResizeImageBuffer_bitDepth st) as HR;
            destruct (ResizeImageBuffer W st) as [? ?];
            cbn [fst snd] in HP, HR; prim in HR
        end.
        split_if HP; prim in HP; injection HP as <- <- <-;
          [|exfalso; rewrite <- Hc in Hok; auto].
        split; [right; exact H16|]. cbn [GetBitDepth get fst]. rewrite HR.
        split; [reflexivity|]. intros q. rewrite OnPixelType_get, HR, H16. reflexivity.
      * repeat step_in HP. injection HP as <- <- <-. contradiction.
  - intros Hstop H8 H16. rewrite Hstop in HP. cbn [negb] in HP.
    destruct (String.eqb_spec pProp g_PixelType_8bit) as [|_]; [contradiction|].
    destruct (String.eqb_spec pProp g_PixelType_16bit) as [|_]; [contradiction|].
    repeat step_in HP. injection HP as <- <- <-.
    split; [reflexivity|]. intros q. rewrite OnPixelType_get. reflexivity.
Qed.

(** X9. While a sequence is being captured, a set of the binning or of the
    pixel type returns [DEVICE_CAMERA_BUSY_ACQUIRING] and changes nothing:
    the stop lock is taken and released, and no call is made. *)
Theorem settings_refused_while_capturing (s : ThorlabsUSBCam) :
  fst (IsCapturing s) = true ->
  (forall pProp : Z,
      OnBinning W pProp AfterSet s =
        ((DEVICE_CAMERA_BUSY_ACQUIRING, pProp),
         set_log (log s ++ [Acquire stopLock_; Release stopLock_]) s)) /\
  (forall pProp : string,
      OnPixelType W pProp AfterSet s =
        ((DEVICE_CAMERA_BUSY_ACQUIRING, pProp),
         set_log (log s ++ [Acquire stopLock_; Release stopLock_]) s)).
Proof.
  rewrite IsCapturing_run. cbn [fst]. intros Hcap. split; intros pProp.
  - rewrite OnBinning_set, Hcap. reflexivity.
  - unfold OnPixelType. cbn [ActionType_eqb].
    rewrite bind_run, IsCapturing_run. cbn [fst snd]. rewrite Hcap. reflexivity.
Qed.

(** **** What a computation adds to the record of events *)

Lemma count_cons (p : Event -> bool) (e : Event) (l : list Event) :
  count p (e :: l) = ((if p e then 1 else 0) + count p l)%nat.
Proof.
  unfold count. rewrite filter_cons.
  destruct (p e); case_decide; try discriminate; try congruence; reflexivity.
Qed.

Lemma held_app (m : Mutex) (l1 l2 : list Event) : forall depth,
  held m (l1 ++ l2) depth = held m l2 (held m l1 depth).
Proof.
  induction l1 as [|e l1 IH]; intros depth; [reflexivity|].
  destruct e; cbn [app held]; apply IH.
Qed.

Lemma held_one (m : Mutex) (e : Event) (depth : nat) :
  is_lock e = false -> held m [e] depth = depth.
Proof. destruct e; intros H; try discriminate; reflexivity. Qed.

Lemma guarded_app (p : Event -> bool) (m : Mutex) (l1 l2 : list Event) : forall depth,
  guarded p m (l1 ++ l2) depth
    = guarded p m l1 depth && guarded p m l2 (held m l1 depth).
Proof.
  induction l1 as [|e l1 IH]; intros depth; [reflexivity|].
  cbn [app guarded]. rewrite IH, <- andb_assoc. f_equal. f_equal.
  change (e :: l1) with ([e] ++ l1). rewrite held_app. reflexivity.
Qed.

Section Appends.

Variable Q : list Event -> Prop.
Hypothesis Q_nil : Q [].
Hypothesis Q_app : forall ev1 ev2, Q ev1 -> Q ev2 -> Q (ev1 ++ ev2).

Lemma appends_ret {A : Type} (a : A) : appends Q (ret a).
Proof. intros s. exists []. rewrite app_nil_r. auto. Qed.

Lemma appends_get {A : Type} (f : ThorlabsUSBCam -> A) : appends Q (get f).
Proof. intros s. exists []. rewrite app_nil_r. auto. Qed.

Lemma appends_modify (f : ThorlabsUSBCam -> ThorlabsUSBCam) :
  (forall s, log (f s) = log s) -> appends Q (modify f).
Proof. intros H s. exists []. rewrite app_nil_r. cbn. auto. Qed.

Lemma appends_call (e : Event) : Q [e] -> appends Q (call W e).
Proof. intros H s. exists [e]. auto. Qed.

Lemma appends_emit (e : Event) : Q [e] -> appends Q (emit e).
Proof. intros H s. exists [e]. auto. Qed.

Lemma appends_bind {A B : Type} (m : M A) (k : A -> M B) :
  appends Q m -> (forall a, appends Q (k a)) -> appends Q (bind m k).
Proof.
  intros Hm Hk s. rewrite bind_run.
  destruct (Hm s) as (ev1 & H1 & Q1).
  destruct (Hk (fst (m s)) (snd (m s))) as (ev2 & H2 & Q2).
  exists (ev1 ++ ev2). rewrite H2, H1, app_assoc. auto.
Qed.

Lemma appends_if {A : Type} (c : bool) (m1 m2 : M A) :
  appends Q m1 -> appends Q m2 -> appends Q (if c then m1 else m2).
Proof. destruct c; auto. Qed.

(** A computation run with a mutex held, what it adds satisfying [Q']
    while the mutex is held. *)
Lemma appends_guard {A : Type} (Q' : list Event -> Prop) (m : Mutex) (body : M A) :
  (forall ev, Q' ev -> Q ([Acquire m] ++ ev ++ [Release m])) ->
  appends Q' body -> appends Q (MMThreadGuard m body).
Proof.
  intros HQ Hb s. unfold MMThreadGuard, emit.
  repeat (first [rewrite bind_assoc | rewrite bind_run; prim]; cbn beta).
  match goal with
  | |- context [body ?st] => destruct (Hb st) as (ev & Hev & Qev); prim in Hev
  end.
  exists ([Acquire m] ++ ev ++ [Release m]).
  split; [|apply HQ, Qev].
  rewrite Hev, <- !app_assoc. reflexivity.
Qed.

End Appends.

(** **** Mutexes and the host's buffer *)

Lemma tidy_nil (inside : bool) : tidy inside [].
Proof. split; [intros m d; reflexivity | intros d _; reflexivity]. Qed.

Lemma tidy_app (inside : bool) (ev1 ev2 : list Event) :
  tidy inside ev1 -> tidy inside ev2 -> tidy inside (ev1 ++ ev2).
Proof.
  intros [B1 G1] [B2 G2]. split.
  - intros m d. rewrite held_app, B1, B2. reflexivity.
  - intros d Hd. rewrite guarded_app, B1, G1, G2; auto.
Qed.

Lemma tidy_one (inside : bool) (e : Event) :
  is_lock e = false -> (if inside then True else is_buffer_call e = false) ->
  tidy inside [e].
Proof.
  intros Hl Hb. split.
  - intros m d. apply held_one, Hl.
  - intros d Hd. cbn [guarded]. rewrite andb_true_r.
    destruct inside.
    + destruct d; [lia|]. cbn. apply orb_true_r.
    + rewrite Hb. reflexivity.
Qed.

Lemma tidy_guard (inside : bool) (m : Mutex) (ev : list Event) :
  tidy (inside || bool_decide (m = imgPixelsLock_)) ev ->
  tidy inside ([Acquire m] ++ ev ++ [Release m]).
Proof.
  intros [B G]. split.
  - intros m' d. cbn [app held]. rewrite held_app, B. cbn [held].
    destruct (decide (m = m')); reflexivity.
  - intros d Hd. cbn [app guarded is_buffer_call negb orb andb held].
    rewrite guarded_app, B. cbn [guarded is_buffer_call negb orb andb].
    rewrite andb_true_r. apply G.
    destruct inside; cbn [orb].
    + destruct (decide (m = imgPixelsLock_)); lia.
    + destruct (decide (m = imgPixelsLock_)) as [->|Hne].
      * rewrite bool_decide_eq_true_2 by reflexivity. lia.
      * rewrite bool_decide_eq_false_2 by exact Hne. exact I.
Qed.

(** A computation built from the primitives adds events satisfying [Q]:
    [t_nil] and [t_app] are the lemmas for no event and for two runs of
    events, [t_one] proves [Q] of a single event and [t_guard] of the
    events of a guarded computation. *)
Ltac appending t_nil t_app t_one t_guard :=
  repeat first
    [ progress intros
    | assumption
    | match goal with
      | H : forall _, appends _ _ |- _ => apply H
      end
    | lazymatch goal with
      | |- appends _ (MMThreadGuard _ _) => eapply appends_guard; [t_guard | ]
      | |- appends _ (bind _ _) => apply appends_bind; [apply t_app | | ]
      | |- appends _ (if _ then _ else _) => apply appends_if
      | |- appends _ (ret _) => apply appends_ret; apply t_nil
      | |- appends _ (get _) => apply appends_get; apply t_nil
      | |- appends _ (call _ _) => apply appends_call; t_one
      | |- appends _ (emit _) => apply appends_emit; t_one
      | |- appends _ (modify _) =>
          apply appends_modify; [apply t_nil | intros; reflexivity]
      | |- appends _ (match ?e with _ => _ end) => destruct e
      end ].

Ltac tidying :=
  appending tidy_nil tidy_app
            ltac:(apply tidy_one; [reflexivity | first [exact I | reflexivity]])
            ltac:(exact (tidy_guard _ _)).

Lemma tidy_IsStopped : appends (tidy false) MySequenceThread_IsStopped.
Proof. unfold MySequenceThread_IsStopped. tidying. Qed.

Lemma tidy_IsCapturing : appends (tidy false) IsCapturing.
Proof. unfold IsCapturing. pose proof tidy_IsStopped. tidying. Qed.

Lemma tidy_ResizeImageBuffer : appends (tidy false) (ResizeImageBuffer W).
Proof. unfold ResizeImageBuffer, call_is_AllocImageMem. tidying. Qed.

Lemma tidy_Initialize : appends (tidy false) (Initialize W).
Proof.
  pose proof tidy_ResizeImageBuffer.
  unfold Initialize, call_is_InitCamera, call_is_GetSensorInfo, SetAllowedBinning.
  tidying.
Qed.

Lemma tidy_Shutdown : appends (tidy false) (Shutdown W).
Proof. unfold Shutdown. tidying. Qed.

Lemma tidy_SnapImage : appends (tidy false) (SnapImage W).
Proof. unfold SnapImage, copy_frame. tidying. Qed.

Lemma tidy_SetROI (x y xSize ySize : Z) : appends (tidy false) (SetROI W x y xSize ySize).
Proof. pose proof tidy_ResizeImageBuffer. unfold SetROI. tidying. Qed.

Lemma tidy_ClearROI : appends (tidy false) (ClearROI W).
Proof. pose proof tidy_ResizeImageBuffer. unfold ClearROI. tidying. Qed.

Lemma tidy_OnBinning (pProp : Z) (eAct : ActionType) :
  appends (tidy false) (OnBinning W pProp eAct).
Proof. pose proof tidy_IsCapturing. unfold OnBinning. destruct eAct; tidying. Qed.

Lemma tidy_OnPixelType (pProp : string) (eAct : ActionType) :
  appends (tidy false) (OnPixelType W pProp eAct).
Proof.
  pose proof tidy_IsCapturing. pose proof tidy_ResizeImageBuffer.
  unfold OnPixelType. tidying.
Qed.

Lemma tidy_InsertImage : appends (tidy false) (InsertImage W).
Proof.
  unfold InsertImage, GetImageBuffer, GetImageWidth, GetImageHeight,
         GetImageBytesPerPixel.
  tidying.
Qed.

Lemma tidy_ThreadRun : appends (tidy false) (ThreadRun W).
Proof.
  pose proof tidy_InsertImage.
  unfold ThreadRun, ThreadRun_after, copy_frame. tidying.
Qed.

Lemma tidy_svc_iteration : appends (tidy false) (svc_iteration W).
Proof.
  pose proof tidy_ThreadRun. pose proof tidy_IsStopped.
  unfold svc_iteration, loop_condition, set_thd. tidying.
Qed.

Lemma tidy_svc_loop (fuel : nat) : appends (tidy false) (svc_loop W fuel).
Proof.
  pose proof tidy_svc_iteration.
  induction fuel as [|fuel IH]; cbn [svc_loop]; tidying.
Qed.

Lemma tidy_svc : appends (tidy false) (MySequenceThread_svc W).
Proof.
  pose proof tidy_svc_loop. pose proof tidy_IsStopped.
  unfold MySequenceThread_svc, svc_leave, svc_return, OnThreadExiting, set_thd. tidying.
Qed.

Lemma tidy_run_threads (n : nat) : appends (tidy false) (run_threads W n).
Proof.
  pose proof tidy_svc.
  induction n as [|n IH]; cbn [run_threads]; tidying.
Qed.

Lemma tidy_Stop : appends (tidy false) (StopSequenceAcquisition W).
Proof.
  pose proof tidy_run_threads. pose proof tidy_IsStopped.
  unfold StopSequenceAcquisition, MySequenceThread_Stop, MySequenceThread_wait, set_thd.
  tidying.
Qed.

Lemma tidy_Start (numImages : Z) (stopOnOverflow : bool) :
  appends (tidy false) (StartSequenceAcquisition W numImages stopOnOverflow).
Proof.
  pose proof tidy_IsCapturing.
  unfold StartSequenceAcquisition, MySequenceThread_Start, set_thd.
  tidying.
Qed.

Lemma appends_since {A : Type} (Q : list Event -> Prop) (m : M A) (s : ThorlabsUSBCam) :
  appends Q m -> Q (since (log s) (log (snd (m s)))).
Proof. intros H. destruct (H s) as (ev & -> & HQ). now rewrite since_app. Qed.

(** X10. Every member of the adapter releases the mutexes it takes: after
    each of them every mutex is held as many times as before, whatever the
    world answers and whichever way the member returns. *)
Theorem mutexes_released (s : ThorlabsUSBCam) :
  let released {A : Type} (m : M A) := balanced (since (log s) (log (snd (m s)))) in
  (released (Initialize W) /\ released (Shutdown W) /\ released (SnapImage W) /\
   released (ResizeImageBuffer W) /\ released (ClearROI W) /\
   released GetImageBuffer /\ released IsCapturing) /\
  (forall x y xSize ySize : Z, released (SetROI W x y xSize ySize)) /\
  (forall (pProp : Z) (eAct : ActionType), released (OnBinning W pProp eAct)) /\
  (forall (pProp : string) (eAct : ActionType), released (OnPixelType W pProp eAct)) /\
  (forall (numImages : Z) (stopOnOverflow : bool),
      released (StartSequenceAcquisition W numImages stopOnOverflow)) /\
  (released (InsertImage W) /\ released (ThreadRun W) /\
   released (MySequenceThread_svc W) /\ released (StopSequenceAcquisition W)).
Proof.
  cbn zeta.
  assert (H : forall (A : Type) (m : M A),
             appends (tidy false) m -> balanced (since (log s) (log (snd (m s))))).
  { intros A m Hm. destruct (Hm s) as (ev & -> & [Hb _]). now rewrite since_app. }
  repeat split; intros; apply H;
    first [ apply tidy_Initialize | apply tidy_Shutdown | apply tidy_SnapImage
          | apply tidy_ResizeImageBuffer | apply tidy_ClearROI | apply tidy_IsCapturing
          | apply tidy_SetROI | apply tidy_OnBinning | apply tidy_OnPixelType
          | apply tidy_Start | apply tidy_InsertImage | apply tidy_ThreadRun
          | apply tidy_svc | apply tidy_Stop
          | unfold GetImageBuffer; tidying ].
Qed.

(** X11. The host's circular buffer is called (to insert an image, to
    clear the buffer) only with the pixel mutex held: in what
    [InsertImage], [ThreadRun], [svc] and [StopSequenceAcquisition] add to
    the record of events every such call comes between an acquire and the
    matching release of [imgPixelsLock_]; [InsertImage] makes at least one
    such call. *)
Theorem buffer_calls_under_pixel_lock (s : ThorlabsUSBCam) :
  let under ev := guarded is_buffer_call imgPixelsLock_ ev 0 = true in
  (under (since (log s) (log (snd (InsertImage W s)))) /\
   (1 <= count is_buffer_call (since (log s) (log (snd (InsertImage W s)))))%nat) /\
  under (since (log s) (log (snd (ThreadRun W s)))) /\
  under (since (log s) (log (snd (MySequenceThread_svc W s)))) /\
  under (since (log s) (log (snd (StopSequenceAcquisition W s)))).
Proof.
  cbn zeta. split; [split|split; [|split]].
  - apply (appends_since (tidy false) _ s tidy_InsertImage). exact I.
  - rewrite InsertImage_run. cbn zeta. prim. rewrite since_app.
    unfold frame_of.
    destruct (negb (stopOnOverFlow_ s) && (w_code W (tick s) =? DEVICE_BUFFER_OVERFLOW));
      cbn [app]; rewrite !count_cons; cbn [is_buffer_call]; lia.
  - apply (appends_since (tidy false) _ s tidy_ThreadRun). exact I.
  - apply (appends_since (tidy false) _ s tidy_svc). exact I.
  - apply (appends_since (tidy false) _ s tidy_Stop). exact I.
Qed.

(** **** Starting a sequence *)

Lemma StartSequenceAcquisition_run (numImages : Z) (stopOnOverflow : bool)
      (s : ThorlabsUSBCam) :
  MySequenceThread.stop_ (thd_ s) = true ->
  StartSequenceAcquisition W numImages stopOnOverflow s =
    let t := tick s in
    let hEv := w_code W (1 + t)%nat in
    let checked := [Acquire stopLock_; Release stopLock_; PrepareForAcq] in
    let video := [CreateEvent; is_InitEvent hEv; is_EnableEvent; is_CaptureVideo IS_WAIT] in
    if w_code W t !=? DEVICE_OK then
      (w_code W t, set_tick (1 + t)%nat (set_log (log s ++ checked) s))
    else if w_code W (4 + t)%nat !=? IS_SUCCESS then
      (w_code W (4 + t)%nat,
       set_tick (5 + t)%nat
         (set_log (log s ++ checked ++ video)
            (set_hEvent hEv (set_imageCounter_ 0 s))))
    else
      (DEVICE_OK,
       set_threads (S (threads s))
         (set_tick (5 + t)%nat
            (set_log (log s ++ checked ++ video ++
                      [Acquire stopLock_; Release stopLock_;
                       Acquire suspendLock_; Release suspendLock_; activate])
               (set_thd_ (MySequenceThread.mk numImages 0 false false)
                  (set_stopOnOverFlow_ stopOnOverflow
                     (set_hEvent hEv (set_imageCounter_ 0 s))))))).
Proof.
  intros Hstop. unfold StartSequenceAcquisition. run. rewrite Hstop. cbn.
  destruct (w_code W (tick s) !=? DEVICE_OK); cbn; [same|].
  destruct (w_code W (S (S (S (S (tick s))))) !=? IS_SUCCESS); cbn; same.
Qed.

(** X12. Called when no sequence is being captured,
    [StartSequenceAcquisition] returns [DEVICE_OK] exactly when
    [PrepareForAcq] and [is_CaptureVideo] succeed.  It has then started
    one thread, for [numImages] images and with the thread's counter at 0,
    has reset the adapter's image counter and stored [stopOnOverflow], and
    the adapter is capturing.  When it returns another code, that is the
    code of the call that failed; no thread has been started, the thread
    object and [stopOnOverFlow_] are as they were and the adapter is not
    capturing.  (The vendor's success code is the host's.) *)
Theorem StartSequenceAcquisition_starts_thread
        (numImages : Z) (stopOnOverflow : bool) (s : ThorlabsUSBCam) :
  IS_SUCCESS = DEVICE_OK ->
  fst (IsCapturing s) = false ->
  let r := fst (StartSequenceAcquisition W numImages stopOnOverflow s) in
  let s' := snd (StartSequenceAcquisition W numImages stopOnOverflow s) in
  (r = DEVICE_OK <->
     w_code W (tick s) = DEVICE_OK /\ w_code W (4 + tick s)%nat = IS_SUCCESS) /\
  (r = DEVICE_OK ->
   thd_ s' = MySequenceThread.mk numImages 0 false false /\
   threads s' = S (threads s) /\
   count is_activate (since (log s) (log s')) = 1%nat /\
   imageCounter_ s' = 0 /\ stopOnOverFlow_ s' = stopOnOverflow /\
   fst (IsCapturing s') = true) /\
  (r <> DEVICE_OK ->
   (r = w_code W (tick s) \/ r = w_code W (4 + tick s)%nat) /\
   thd_ s' = thd_ s /\ threads s' = threads s /\
   count is_activate (since (log s) (log s')) = 0%nat /\
   stopOnOverFlow_ s' = stopOnOverFlow_ s /\
   fst (IsCapturing s') = false).
Proof.
  intros Hc. rewrite IsCapturing_run. cbn [fst]. intros Hcap.
  apply negb_false_iff in Hcap. cbn zeta.
  rewrite (StartSequenceAcquisition_run _ _ _ Hcap). cbn zeta.
  destruct (Z.eqb_spec (w_code W (tick s)) DEVICE_OK) as [H0|H0]; cbn [negb].
  - destruct (Z.eqb_spec (w_code W (4 + tick s)%nat) IS_SUCCESS) as [H4|H4]; cbn [negb].
    + cbn [fst snd]. prim. rewrite since_app, IsCapturing_run. prim.
      split; [tauto|]. split; [|intros H; contradiction].
      intros _. repeat split; reflexivity.
    + cbn [fst snd]. prim. rewrite since_app, IsCapturing_run. prim. rewrite Hcap.
      split; [split; [intros H; exfalso; congruence | tauto]|].
      split; [intros H; exfalso; congruence|].
      intros _. repeat split; auto.
  - cbn [fst snd]. prim. rewrite since_app, IsCapturing_run. prim. rewrite Hcap.
    split; [split; [intros H; contradiction | tauto]|].
    split; [intros H; contradiction|].
    intros _. repeat split; auto.
Qed.

(** **** The end of [svc] *)

Lemma InsertImage_hEvent : preserves hEvent (InsertImage W).
Proof. unfold InsertImage. open_prims. frame. Qed.

Lemma ThreadRun_hEvent : preserves hEvent (ThreadRun W).
Proof.
  pose proof InsertImage_hEvent.
  unfold ThreadRun, ThreadRun_after, copy_frame, set_thd, emit. frame.
Qed.

Lemma svc_iteration_hEvent : preserves hEvent (svc_iteration W).
Proof.
  pose proof ThreadRun_hEvent.
  unfold svc_iteration, loop_condition, MySequenceThread_IsStopped, MMThreadGuard, emit, set_thd. frame.
Qed.

Lemma svc_loop_hEvent (fuel : nat) : preserves hEvent (svc_loop W fuel).
Proof.
  pose proof svc_iteration_hEvent.
  induction fuel as [|fuel IH]; cbn [svc_loop]; frame.
Qed.

Lemma quiet_nil (p : Event -> bool) : quiet p [].
Proof. reflexivity. Qed.

Lemma quiet_app (p : Event -> bool) (ev1 ev2 : list Event) :
  quiet p ev1 -> quiet p ev2 -> quiet p (ev1 ++ ev2).
Proof. unfold quiet. intros H1 H2. rewrite count_app, H1, H2. reflexivity. Qed.

Lemma quiet_one (p : Event -> bool) (e : Event) : p e = false -> quiet p [e].
Proof. intros H. unfold quiet. rewrite count_cons, H. reflexivity. Qed.

Lemma quiet_guard (p : Event -> bool) (m : Mutex) (ev : list Event) :
  p (Acquire m) = false -> p (Release m) = false ->
  quiet p ev -> quiet p ([Acquire m] ++ ev ++ [Release m]).
Proof.
  intros Ha Hr H. apply quiet_app; [apply quiet_one, Ha|].
  apply quiet_app; [exact H | apply quiet_one, Hr].
Qed.

Ltac quieting :=
  appending quiet_nil quiet_app
            ltac:(apply quiet_one; reflexivity)
            ltac:(intros ? ?; apply quiet_guard; [reflexivity | reflexivity | eassumption]).

Lemma svc_loop_unfinished (fuel : nat) : appends (quiet is_finished) (svc_loop W fuel).
Proof.
  induction fuel as [|fuel IH]; cbn [svc_loop];
    unfold svc_iteration, loop_condition, ThreadRun, ThreadRun_after, InsertImage, copy_frame,
           GetImageBuffer, GetImageWidth, GetImageHeight, GetImageBytesPerPixel,
           MySequenceThread_IsStopped, set_thd;
    quieting.
Qed.

(** X13. [svc] comes to its end however its loop ends: it returns what the
    last [ThreadRun] returned, having disabled and released the frame
    event, closed the handle the acquisition was started with, and told
    the host that the acquisition is finished, once and as the last thing
    it does; afterwards [hEvent] is 0, the stop flag is set and the thread
    is gone. *)
Theorem svc_always_exits_cleanly (s : ThorlabsUSBCam) :
  LONG_MIN <= MySequenceThread.imageCounter_ (thd_ s) <= LONG_MAX ->
  let s' := snd (MySequenceThread_svc W s) in
  exists (r : Z) (s1 : ThorlabsUSBCam),
    svc_loop W (svc_fuel s) s = (Some r, s1) /\
    fst (MySequenceThread_svc W s) = Some r /\
    log s' = log s1
             ++ [Acquire stopLock_; Release stopLock_]
             ++ (if MySequenceThread.stop_ (thd_ s1) then [LogMessage] else [])
             ++ [is_DisableEvent; is_ExitEvent; CloseHandle (hEvent s); LogMessage;
                 AcqFinished] /\
    count is_finished (since (log s) (log s')) = 1%nat /\
    hEvent s' = 0 /\
    MySequenceThread.stop_ (thd_ s') = true /\
    threads s' = pred (threads s).
Proof.
  intros Hc. cbn zeta.
  destruct (svc_loop_run (svc_fuel s) s Hc)
    as (r & s1 & ev & Hrun & _ & _ & _ & Hth & _); [unfold svc_fuel; lia|].
  exists r, s1. split; [exact Hrun|].
  pose proof (svc_loop_hEvent (svc_fuel s) s) as Hh. rewrite Hrun in Hh. cbn [snd] in Hh.
  rewrite (svc_run _ _ _ Hrun). cbn [fst snd]. prim.
  unfold svc_epilogue. rewrite Hh, Hth.
  split; [reflexivity|]. split; [reflexivity|]. split; [|repeat split; reflexivity].
  destruct (svc_loop_unfinished (svc_fuel s) s) as (ev' & Hev & Hq).
  rewrite Hrun in Hev. cbn [snd] in Hev. rewrite Hev, <- app_assoc, since_app.
  rewrite count_app, Hq.
  destruct (MySequenceThread.stop_ (thd_ s1)); reflexivity.
Qed.

(** **** [StopSequenceAcquisition] *)

Lemma StopSequenceAcquisition_run (s : ThorlabsUSBCam) :
  StopSequenceAcquisition W s =
    if MySequenceThread.stop_ (thd_ s) then (DEVICE_OK, stop_asked W s)
    else
      (DEVICE_OK,
       snd (run_threads W (threads s)
              (set_thd_ (MySequenceThread.set_stop_ true (thd_ s))
                 (set_log (log (stop_asked W s) ++ [Acquire stopLock_; Release stopLock_])
                    (stop_asked W s))))).
Proof.
  unfold StopSequenceAcquisition, MySequenceThread_wait, stop_asked. run.
  destruct (w_code W (tick s) !=? IS_SUCCESS);
    cbn -[MySequenceThread_svc run_threads];
    (destruct (MySequenceThread.stop_ (thd_ s));
     cbn -[MySequenceThread_svc run_threads]; [same|]);
    match goal with
    | |- (let (_, _) := run_threads W _ ?a in _) = (_, snd (run_threads W _ ?b)) =>
        replace a with b by same; destruct (run_threads W (threads s) b); reflexivity
    end.
Qed.

Lemma run_threads_one (s : ThorlabsUSBCam) :
  snd (run_threads W 1 s) = snd (MySequenceThread_svc W s).
Proof. cbn [run_threads]. rewrite bind_run. reflexivity. Qed.

(** X14. [StopSequenceAcquisition] always returns [DEVICE_OK], and the
    destructor does what it does.  When no sequence is being captured it
    stops the live video, reads the stop flag and leaves the thread alone.
    When one is, its thread being in [svc], it asks the thread to stop and
    waits for it: when it returns the adapter is not capturing and the
    thread is gone, having told the host that the acquisition is finished
    as the last event, and [hEvent] is 0. *)
Theorem StopSequenceAcquisition_waits_for_thread (s : ThorlabsUSBCam) :
  let s' := snd (StopSequenceAcquisition W s) in
  fst (StopSequenceAcquisition W s) = DEVICE_OK /\
  snd (ThorlabsUSBCam_delete W s) = s' /\
  (fst (IsCapturing s) = false ->
   thd_ s' = thd_ s /\ threads s' = threads s /\
   since (log s) (log s')
     = is_StopLiveVideo IS_DONT_WAIT
       :: (if w_code W (tick s) !=? IS_SUCCESS then [LogMessage] else [])
       ++ [Acquire stopLock_; Release stopLock_]) /\
  (fst (IsCapturing s) = true ->
   threads s = 1%nat ->
   LONG_MIN <= MySequenceThread.imageCounter_ (thd_ s) <= LONG_MAX ->
   fst (IsCapturing s') = false /\ threads s' = 0%nat /\
   last (log s') = Some AcqFinished /\ hEvent s' = 0).
Proof.
  cbn zeta. rewrite !IsCapturing_run. cbn [fst].
  split; [|split; [|split]].
  - rewrite StopSequenceAcquisition_run.
    destruct (MySequenceThread.stop_ (thd_ s)); reflexivity.
  - unfold ThorlabsUSBCam_delete. rewrite !bind_run. reflexivity.
  - intros Hidle. apply negb_false_iff in Hidle.
    rewrite StopSequenceAcquisition_run, Hidle. cbn [snd]. unfold stop_asked. prim.
    rewrite since_app. repeat split; reflexivity.
  - intros Hrun Hth Hc. apply negb_true_iff in Hrun.
    rewrite StopSequenceAcquisition_run, Hrun. cbn [snd].
    rewrite Hth, run_threads_one.
    match goal with
    | |- context [MySequenceThread_svc W ?st] =>
        destruct (svc_loop_run (svc_fuel st) st)
          as (r & s1 & ev & Hloop & _ & _ & _ & Hth1 & _);
          [unfold stop_asked; prim;
           cbn [MySequenceThread.set_stop_ MySequenceThread.imageCounter_]; exact Hc
          |unfold svc_fuel; lia|];
        rewrite (svc_run st s1 r Hloop)
    end.
    cbn [fst snd]. prim.
    cbn [MySequenceThread.set_stop_ MySequenceThread.stop_ negb].
    split; [reflexivity|].
    split; [rewrite Hth1; unfold stop_asked; prim; rewrite Hth; reflexivity|].
    split; [|reflexivity].
    unfold svc_epilogue.
    change [is_DisableEvent; is_ExitEvent; CloseHandle (hEvent s1); LogMessage; AcqFinished]
      with ([is_DisableEvent; is_ExitEvent; CloseHandle (hEvent s1); LogMessage]
            ++ [AcqFinished]).
    rewrite !app_assoc. apply last_snoc.
Qed.

(** **** A wait without a frame, and an overflow *)

Lemma svc_loop_last (fuel : nat) (s : ThorlabsUSBCam) :
  fst (fst (svc_iteration W s)) = false ->
  svc_loop W (S fuel) s = (Some (snd (fst (svc_iteration W s))), snd (svc_iteration W s)).
Proof. intros H. cbn [svc_loop]. rewrite bind_run, H. reflexivity. Qed.

(** X15. A wait of the acquisition thread that ends without a frame ends
    the acquisition.  When [WaitForSingleObject] answers [WAIT_TIMEOUT],
    [ThreadRun] returns [ERR_THORCAM_LIVE_TIMEOUT]; when it answers a code
    that is neither that nor [WAIT_OBJECT_0], [ThreadRun] logs a message
    and returns [ERR_THORCAM_LIVE_UNKNOWN_EVENT]; in both cases no frame is
    copied or inserted, the turn is the last of the loop and consists of
    [ThreadRun] alone, and [svc] returns that code after its epilogue,
    without a second wait.  (The two error codes are not [DEVICE_OK].) *)
Theorem acquisition_ends_without_frame (s : ThorlabsUSBCam) :
  ERR_THORCAM_LIVE_TIMEOUT <> DEVICE_OK ->
  ERR_THORCAM_LIVE_UNKNOWN_EVENT <> DEVICE_OK ->
  w_code W (tick s) = WAIT_TIMEOUT \/ w_code W (tick s) <> WAIT_OBJECT_0 ->
  let timeout := w_code W (tick s) =? WAIT_TIMEOUT in
  let r := if timeout then ERR_THORCAM_LIVE_TIMEOUT else ERR_THORCAM_LIVE_UNKNOWN_EVENT in
  let s1 := snd (ThreadRun W s) in
  fst (ThreadRun W s) = r /\
  since (log s) (log s1)
    = WaitForSingleObject (hEvent s) 2000 :: (if timeout then [] else [LogMessage]) /\
  img_ s1 = img_ s /\ imageCounter_ s1 = imageCounter_ s /\
  svc_iteration W s = ((false, r), s1) /\
  (forall fuel : nat, svc_loop W (S fuel) s = (Some r, s1)) /\
  fst (MySequenceThread_svc W s) = Some r /\
  since (log s) (log (snd (MySequenceThread_svc W s)))
    = WaitForSingleObject (hEvent s) 2000 :: (if timeout then [] else [LogMessage])
      ++ [Acquire stopLock_; Release stopLock_]
      ++ (if MySequenceThread.stop_ (thd_ s) then [LogMessage] else [])
      ++ [is_DisableEvent; is_ExitEvent; CloseHandle (hEvent s); LogMessage; AcqFinished].
Proof.
  intros Ht Hu Hno. cbn zeta.
  assert (Hrun : ThreadRun W s =
                 ((if w_code W (tick s) =? WAIT_TIMEOUT
                   then ERR_THORCAM_LIVE_TIMEOUT else ERR_THORCAM_LIVE_UNKNOWN_EVENT),
                  if w_code W (tick s) =? WAIT_TIMEOUT then waited s
                  else set_tick (S (tick (waited s)))
                         (set_log (log (waited s) ++ [LogMessage]) (waited s)))).
  { rewrite ThreadRun_run. cbn zeta.
    destruct (Z.eqb_spec (w_code W (tick s)) WAIT_TIMEOUT) as [E|E]; [reflexivity|].
    destruct (Z.eqb_spec (w_code W (tick s)) WAIT_OBJECT_0) as [E'|E']; [|reflexivity].
    destruct Hno; contradiction. }
  destruct (waited_fields s) as (Hwt & Hwl & _ & Hwi & _ & _ & Hwth & Hwn & Hwc & Hws).
  assert (Hh : hEvent (waited s) = hEvent s) by reflexivity.
  assert (Hic : imageCounter_ (waited s) = imageCounter_ s) by reflexivity.
  assert (Hit : svc_iteration W s =
                ((false, fst (ThreadRun W s)), snd (ThreadRun W s))).
  { rewrite svc_iteration_run. cbn zeta. rewrite Hrun. cbn [fst snd].
    destruct (w_code W (tick s) =? WAIT_TIMEOUT).
    - destruct (Z.eqb_spec DEVICE_OK ERR_THORCAM_LIVE_TIMEOUT) as [E|E];
        [exfalso; auto | reflexivity].
    - destruct (Z.eqb_spec DEVICE_OK ERR_THORCAM_LIVE_UNKNOWN_EVENT) as [E|E];
        [exfalso; auto | reflexivity]. }
  assert (Hloop : forall fuel, svc_loop W (S fuel) s
                               = (Some (fst (ThreadRun W s)), snd (ThreadRun W s))).
  { intros fuel. rewrite svc_loop_last; rewrite Hit; reflexivity. }
  split; [rewrite Hrun; reflexivity|].
  split; [rewrite Hrun; cbn [snd];
          destruct (w_code W (tick s) =? WAIT_TIMEOUT); prim;
          rewrite Hwl, <- ?app_assoc, since_app; reflexivity|].
  split; [rewrite Hrun; cbn [snd];
          destruct (w_code W (tick s) =? WAIT_TIMEOUT); prim; exact Hwi|].
  split; [rewrite Hrun; cbn [snd];
          destruct (w_code W (tick s) =? WAIT_TIMEOUT); prim; exact Hic|].
  split; [rewrite Hit, Hrun; reflexivity|].
  split; [intros fuel; rewrite Hloop, Hrun; reflexivity|].
  rewrite (svc_run s _ _ (Hloop _)). cbn [fst snd]. prim.
  split; [rewrite Hrun; reflexivity|].
  unfold svc_epilogue. rewrite Hrun. cbn [snd].
  destruct (w_code W (tick s) =? WAIT_TIMEOUT); prim;
    rewrite Hwl, Hws, Hh, <- ?app_assoc, since_app; reflexivity.
Qed.

(** X16. In the acquisition thread, a frame that the host's buffer refuses
    with [DEVICE_BUFFER_OVERFLOW]: with [stopOnOverFlow_] set the loop
    ends with that turn and returns the overflow code, the buffer having
    been called once; with it clear the buffer is cleared and the frame
    inserted again (three calls), the turn returns what the second
    insertion returned, and the loop goes on when that is [DEVICE_OK], no
    stop has been asked for and images are left to capture. *)
Theorem overflow_in_the_thread (s : ThorlabsUSBCam) :
  DEVICE_BUFFER_OVERFLOW <> DEVICE_OK ->
  w_code W (tick s) <> WAIT_TIMEOUT ->
  w_code W (tick s) = WAIT_OBJECT_0 ->
  w_code W (1 + tick s)%nat = DEVICE_BUFFER_OVERFLOW ->
  (stopOnOverFlow_ s = true ->
   fst (svc_iteration W s) = (false, DEVICE_BUFFER_OVERFLOW) /\
   (forall fuel : nat, fst (svc_loop W (S fuel) s) = Some DEVICE_BUFFER_OVERFLOW) /\
   count is_buffer_call (since (log s) (log (snd (ThreadRun W s)))) = 1%nat) /\
  (stopOnOverFlow_ s = false ->
   snd (fst (svc_iteration W s)) = w_code W (3 + tick s)%nat /\
   count is_buffer_call (since (log s) (log (snd (ThreadRun W s)))) = 3%nat /\
   (w_code W (3 + tick s)%nat = DEVICE_OK ->
    MySequenceThread.stop_ (thd_ s) = false ->
    MySequenceThread.imageCounter_ (thd_ s)
      < wrap_long (MySequenceThread.numImages_ (thd_ s) - 1) ->
    fst (fst (svc_iteration W s)) = true)).
Proof.
  intros Hov Ht Ho H1.
  destruct (svc_iteration_facts s) as (Hret & Hagain & _). cbn zeta in *.
  destruct (ThreadRun_thread s) as (_ & _ & _ & Hstop). cbn zeta in Hstop.
  pose proof (ThreadRun_fst s) as Hr. unfold thread_result in Hr. cbn zeta in Hr.
  pose proof (ThreadRun_log s) as Hl. unfold after_wait in Hl. cbn zeta in Hl.
  destruct (Z.eqb_spec (w_code W (tick s)) WAIT_TIMEOUT) as [|_]; [contradiction|].
  rewrite Ho, Z.eqb_refl, H1, Z.eqb_refl in Hr, Hl.
  split; intros Hso; rewrite Hso in Hr, Hl; cbn [negb andb] in Hr, Hl.
  - assert (Hit : fst (svc_iteration W s) = (false, DEVICE_BUFFER_OVERFLOW)).
    { destruct (svc_iteration W s) as [[again r] s1]. cbn [fst snd] in *.
      f_equal; [|congruence].
      destruct again; [|reflexivity].
      destruct Hagain as [Hyes _]. destruct (Hyes eq_refl) as (Hok & _).
      exfalso. congruence. }
    split; [exact Hit|]. split.
    + intros fuel. rewrite svc_loop_last; rewrite Hit; reflexivity.
    + rewrite Hl, since_app. unfold frame_of. cbn [app].
      rewrite !count_cons. reflexivity.
  - split; [congruence|]. split.
    + rewrite Hl, since_app. unfold frame_of. cbn [app].
      rewrite !count_cons. reflexivity.
    + intros H3 Hs Hlt. apply Hagain. rewrite Hstop, Hs.
      repeat split; [congruence | exact Hlt].
Qed.

(** **** A whole sequence *)




Section Delivered.

(** Every call succeeds. *)
Hypothesis all_ok : forall t : nat, w_code W t = DEVICE_OK.
Hypothesis frame_event : WAIT_OBJECT_0 = DEVICE_OK.
Hypothesis no_timeout : WAIT_TIMEOUT <> DEVICE_OK.
Hypothesis no_overflow : DEVICE_BUFFER_OVERFLOW <> DEVICE_OK.





End Delivered.

(** **** [ResizeImageBuffer] that fails *)

(** X18. [ResizeImageBuffer] touches [img_] only when it returns
    [DEVICE_OK]; it frees the driver-owned buffer first, once, when there
    is one, and not at all when there is none; when the vendor refuses to
    free it, the vendor's code is returned with nothing allocated and the
    buffer kept; when it returns [DEVICE_OK] the last thing done is to
    make the buffer just allocated the active one.  It never changes the
    bit depth, the binning, the sensor data, the origin of the region of
    interest or [initialized_].  (The vendor's success code is the
    host's.) *)
Theorem ResizeImageBuffer_failure (s : ThorlabsUSBCam) :
  IS_SUCCESS = DEVICE_OK ->
  let r := fst (ResizeImageBuffer W s) in
  let s' := snd (ResizeImageBuffer W s) in
  let ev := since (log s) (log s') in
  let free := is_FreeImageMem (cameraBuf s) (cameraBufId s) in
  (r <> DEVICE_OK -> img_ s' = img_ s) /\
  (cameraBuf s = 0 -> count is_free ev = 0%nat) /\
  (cameraBuf s <> 0 -> head ev = Some free /\ count is_free ev = 1%nat) /\
  (cameraBuf s <> 0 -> w_code W (tick s) <> IS_SUCCESS ->
   r = w_code W (tick s) /\ ev = [free] /\
   cameraBuf s' = cameraBuf s /\ cameraBufId s' = cameraBufId s) /\
  (r = DEVICE_OK ->
   last ev = Some (is_SetImageMem (cameraBuf s') (cameraBufId s'))) /\
  (bitDepth_ s' = bitDepth_ s /\ binSize_ s' = binSize_ s /\
   sensorInfo s' = sensorInfo s /\ roiX_ s' = roiX_ s /\ roiY_ s' = roiY_ s /\
   initialized_ s' = initialized_ s).
Proof.
  intros Hc. cbn zeta.
  destruct (ResizeImageBuffer W s) as [r s'] eqn:HR. cbn [fst snd].
  unfold ResizeImageBuffer in HR. exec HR.
  repeat split_if HR; leaf HR; prim;
    rewrite <- ?app_assoc, ?since_app; cbn [app head last];
    rewrite ?count_cons; cbn [is_free Nat.add];
    change (count is_free []) with 0%nat;
    repeat split; intros;
    try reflexivity; try contradiction; try congruence;
    try (exfalso; rewrite <- Hc in *; auto; fail).
Qed.

(** **** What leaves the thread alone *)

Ltac quiet_prims :=
  unfold IsCapturing, MySequenceThread_IsStopped, GetImageBuffer, GetImageWidth,
         GetImageHeight, GetImageBytesPerPixel, GetImageBufferSize, GetROI,
         call_is_AllocImageMem, call_is_InitCamera, call_is_GetSensorInfo,
         SetAllowedBinning, copy_frame, set_thd.

Lemma unstarted_ResizeImageBuffer : appends (quiet is_activate) (ResizeImageBuffer W).
Proof. unfold ResizeImageBuffer. quiet_prims. quieting. Qed.

Lemma unstarted_IsCapturing : appends (quiet is_activate) IsCapturing.
Proof. quiet_prims. quieting. Qed.

Lemma keeps_Shutdown : keeps_thread (Shutdown W).
Proof. unfold Shutdown. keeps. Qed.

(** X19. Nothing but [StartSequenceAcquisition], [StopSequenceAcquisition]
    and the thread itself touches the acquisition thread: [Initialize],
    [Shutdown], [SnapImage], [ResizeImageBuffer], [SetROI], [GetROI],
    [ClearROI], [GetImageBuffer], [GetImageBufferSize], [IsCapturing],
    [InsertImage] and the handlers of binning and pixel type start no
    thread and leave the thread object, with its stop flag and its
    counters, as it was. *)
Theorem thread_left_alone (s : ThorlabsUSBCam) :
  let alone {A : Type} (m : M A) :=
    thd_ (snd (m s)) = thd_ s /\ threads (snd (m s)) = threads s /\
    count is_activate (since (log s) (log (snd (m s)))) = 0%nat in
  (alone (Initialize W) /\ alone (Shutdown W) /\ alone (SnapImage W) /\
   alone (ResizeImageBuffer W) /\ alone (ClearROI W) /\ alone GetROI /\
   alone GetImageBuffer /\ alone GetImageBufferSize /\ alone IsCapturing /\
   alone (InsertImage W)) /\
  (forall x y xSize ySize : Z, alone (SetROI W x y xSize ySize)) /\
  (forall (pProp : Z) (eAct : ActionType), alone (OnBinning W pProp eAct)) /\
  (forall (pProp : string) (eAct : ActionType), alone (OnPixelType W pProp eAct)).
Proof.
  cbn zeta.
  assert (H : forall (A : Type) (m : M A),
             keeps_thread m -> appends (quiet is_activate) m ->
             thd_ (snd (m s)) = thd_ s /\ threads (snd (m s)) = threads s /\
             count is_activate (since (log s) (log (snd (m s)))) = 0%nat).
  { intros A m Hk Hq. destruct (Hk s) as [H1 H2].
    split; [exact H1|]. split; [exact H2|]. apply (appends_since _ _ _ Hq). }
  pose proof unstarted_ResizeImageBuffer. pose proof unstarted_IsCapturing.
  repeat split; intros; apply H;
    first [ apply keeps_Initialize | apply keeps_Shutdown | apply keeps_SnapImage
          | apply keeps_ResizeImageBuffer | apply keeps_ClearROI
          | apply keeps_IsCapturing | apply keeps_InsertImage | apply keeps_SetROI
          | apply keeps_OnBinning | apply keeps_OnPixelType
          | quiet_prims; unfold MMThreadGuard; keeps
          | idtac ];
    try (unfold Initialize, Shutdown, SnapImage, ClearROI, InsertImage, SetROI,
                OnPixelType;
         quiet_prims; quieting; fail);
    try (unfold OnBinning; destruct eAct; quieting; fail).
Qed.

(** **** A camera just created *)

(** X20. The module's [CreateDevice] makes a camera exactly for the name
    "ThorCam" (compared as a C string), which is the name
    [InitializeModuleData] registers, and returns the null pointer for a
    null argument and any other name.  A camera just made is not
    initialised and not capturing, has no driver buffer and no event, and
    its properties report the defaults of the constructor: binning 1,
    pixel type "8bit", 8 bits; its destructor stops the live video and
    waits for no thread. *)
Theorem CreateDevice_new_camera (default_numImages : Z) (fresh : ThorlabsUSBCam)
        (deviceName : option string) :
  let created := CreateDevice default_numImages fresh deviceName in
  (is_Some created <->
     exists n : string, deviceName = Some n /\ CStr.c_str n = g_CameraDeviceName) /\
  (forall n d : string,
      (n, d) ∈ InitializeModuleData ->
      is_Some (CreateDevice default_numImages fresh (Some n))) /\
  (forall cam : ThorlabsUSBCam,
      created = Some cam ->
      initialized_ cam = false /\ fst (IsCapturing cam) = false /\
      threads cam = 0%nat /\ cameraBuf cam = 0 /\ hEvent cam = 0 /\
      (forall q : Z, fst (OnBinning W q BeforeGet cam) = (DEVICE_OK, 1)) /\
      (forall q : string,
          fst (OnPixelType W q BeforeGet cam) = (DEVICE_OK, g_PixelType_8bit)) /\
      fst (GetBitDepth cam) = 8 /\
      fst (GetROI cam)
        = (DEVICE_OK, (0, 0, ImgBuffer.Width (img_ fresh), ImgBuffer.Height (img_ fresh))) /\
      count is_wait (log (snd (ThorlabsUSBCam_delete W cam))) = 0%nat /\
      threads (snd (ThorlabsUSBCam_delete W cam)) = 0%nat).
Proof.
  cbn zeta. unfold CreateDevice. split; [|split].
  - destruct deviceName as [n|].
    + destruct (CStr.strcmp n g_CameraDeviceName =? 0) eqn:E.
      * apply CStr.strcmp_eqb in E. split; [|intros _; eexists; reflexivity].
        intros _. exists n. split; [reflexivity | exact E].
      * apply CStr.strcmp_neqb in E. split; [intros [x [=]]|].
        intros (n' & [= <-] & Hn). exfalso. apply E. exact Hn.
    + split; [intros [x [=]] | intros (n & [=] & _)].
  - intros n d Hn. unfold InitializeModuleData in Hn.
    apply list_elem_of_singleton in Hn. injection Hn as -> ->.
    eexists. reflexivity.
  - intros cam Hcam.
    assert (cam = ThorlabsUSBCam_new default_numImages fresh) as ->.
    { destruct deviceName as [n|]; [|discriminate].
      destruct (CStr.strcmp n g_CameraDeviceName =? 0); [|discriminate].
      now injection Hcam. }
    unfold ThorlabsUSBCam_delete. rewrite !bind_run, StopSequenceAcquisition_run.
    unfold stop_asked.
    unfold ThorlabsUSBCam_new. cbn [MySequenceThread.stop_ fst snd]. prim.
    cbn [MySequenceThread.stop_ fst snd app]. prim.
    do 5 (split; [reflexivity|]).
    split; [intros q; reflexivity|].
    split; [intros q; rewrite OnPixelType_get; reflexivity|].
    do 2 (split; [reflexivity|]).
    split; [|reflexivity].
    destruct (w_code W 0 !=? IS_SUCCESS); reflexivity.
Qed.

End Properties.


(** *** The theorems at concrete inputs *)

(** Worlds in which one call fails: the first insertion of a frame
    overflows the host buffer, [is_InitCamera] answers the vendor's
    [IS_NO_SUCCESS] (-1), and every vendor call made after [Initialize]
    answers it. *)
Definition W_overflow : World :=
  world_of (fun t => if (t =? 22)%nat then 22 else 0).

Definition W_nocamera : World :=
  world_of (fun t => if (t =? 1)%nat then -1 else 0).

Definition W_nomemory : World :=
  world_of (fun t => if (t <? 22)%nat then 0 else -1).

(** The adapter with a region of interest of 10 by 20 at (5, 6). *)
Definition cam_roi : ThorlabsUSBCam :=
  snd (@SetROI MMDevice_h K0 W_ok 5 6 10 20 cam_ready).

Lemma codes_ok_headers : @codes_ok MMDevice_h K0.
Proof. repeat split; discriminate. Qed.

Lemma InsertImage_overflow_witness :
  fst (@InsertImage MMDevice_h W_overflow cam_ready) = 0 /\
  fst (@InsertImage MMDevice_h W_overflow
         (set_stopOnOverFlow_ true cam_ready)) = 22.
Proof.
  split.
  - destruct (@InsertImage_overflow MMDevice_h K0 W_overflow cam_ready) as [H _];
      [vm_compute; reflexivity|].
    rewrite H; [reflexivity | vm_compute; reflexivity].
  - destruct (@InsertImage_overflow MMDevice_h K0 W_overflow
                (set_stopOnOverFlow_ true cam_ready)) as (_ & H & _);
      [vm_compute; reflexivity|].
    rewrite H; [reflexivity | vm_compute; reflexivity].
Defined.

(** A world in which the first wait of the acquisition thread times out
    (the 28th call answers [WAIT_TIMEOUT]), and a world in which
    [CreateEvent] returns the handles 1023 and 1030. *)
Definition W_timeout : World :=
  world_of (fun t => if (t =? 27)%nat then 258 else 0).

Definition W_handles : World :=
  world_of (fun t => if (t =? 23)%nat then 1023
                     else if (t =? 30)%nat then 1030 else 0).

Lemma svc_terminates_exactly_when_witness :
  exists (r : Z) (s' : ThorlabsUSBCam) (ev : list Event),
    @svc_loop MMDevice_h K0 W_ok (svc_fuel (cam_live 3 false)) (cam_live 3 false)
      = (Some r, s') /\
    1 <= Z.of_nat (count is_wait ev) <= 3.
Proof.
  destruct (@svc_terminates_exactly_when MMDevice_h K0 W_ok (cam_live 3 false))
    as (_ & (r & s' & ev & Hrun & _ & Hk & _) & _).
  - vm_compute. split; [reflexivity | discriminate].
  - vm_compute. split; discriminate.
  - exists r, s', ev. split; [exact Hrun | exact Hk].
Defined.

Lemma buffer_size_after_operations_witness : buffer_matches cam_ready.
Proof.
  destruct (@buffer_size_after_operations MMDevice_h K0 W_ok cam_new codes_ok_headers)
    as (_ & H & _).
  apply H; vm_compute; reflexivity.
Defined.

Lemma Initialize_vendor_failure_witness :
  fst (@Initialize MMDevice_h K0 W_nocamera cam_new) = -1 /\
  initialized_ (snd (@Initialize MMDevice_h K0 W_nocamera cam_new)) = false.
Proof.
  destruct (@Initialize_vendor_failure MMDevice_h K0 W_nocamera cam_new
              1%nat is_InitCamera) as (H1 & H2 & _).
  - vm_compute; reflexivity.
  - apply list_elem_of_here.
  - vm_compute; reflexivity.
  - vm_compute; discriminate.
  - split; [rewrite H1; reflexivity | exact H2].
Defined.

Lemma ROI_set_get_clear_witness :
  fst (@GetROI MMDevice_h (snd (@SetROI MMDevice_h K0 W_ok 5 6 10 20 cam_ready)))
    = (0, (5, 6, 10, 20)) /\
  buffer_matches (snd (@ClearROI MMDevice_h K0 W_ok cam_roi)).
Proof.
  split.
  - destruct (@ROI_set_get_clear MMDevice_h K0 W_ok 5 6 10 20 cam_ready) as [H _].
    destruct H as [_ H]; [reflexivity|]. exact H.
  - destruct (@ROI_set_get_clear MMDevice_h K0 W_ok 5 6 10 20 cam_roi)
      as (_ & _ & _ & H & _).
    destruct H as [_ H]; [reflexivity | vm_compute; reflexivity | exact H].
Defined.

(** A world in which the host's buffer refuses the first frame of the
    sequence (the 29th call answers [DEVICE_BUFFER_OVERFLOW]). *)
Definition W_full : World :=
  world_of (fun t => if (t =? 28)%nat then 22 else 0).

Lemma Initialize_once_witness :
  Initialize (MM:=MMDevice_h) (K:=K0) W_ok
             (snd (Initialize (MM:=MMDevice_h) (K:=K0) W_ok cam_new))
    = (0, snd (Initialize (MM:=MMDevice_h) (K:=K0) W_ok cam_new)).
Proof.
  destruct (@Initialize_once MMDevice_h K0 W_ok cam_new) as (_ & _ & H);
    [reflexivity|].
  apply H. vm_compute. reflexivity.
Defined.

Lemma ResizeImageBuffer_failure_witness :
  img_ (snd (ResizeImageBuffer (MM:=MMDevice_h) (K:=K0) W_nomemory cam_ready))
    = img_ cam_ready.
Proof.
  destruct (@ResizeImageBuffer_failure MMDevice_h K0 W_nomemory cam_ready) as (H & _);
    [reflexivity|].
  apply H. vm_compute. discriminate.
Defined.

Lemma OnBinning_round_trip_witness :
  fst (OnBinning (MM:=MMDevice_h) W_ok 2 AfterSet cam_ready) = (0, 2) /\
  fst (OnBinning (MM:=MMDevice_h) W_ok 0 BeforeGet
         (snd (OnBinning (MM:=MMDevice_h) W_ok 2 AfterSet cam_ready))) = (0, 2).
Proof.
  destruct (@OnBinning_round_trip MMDevice_h W_ok 2 cam_ready) as [H _];
    [vm_compute; reflexivity|].
  destruct H as (H1 & _ & H3); [lia|].
  split; [exact H1 | rewrite H3; reflexivity].
Defined.

Lemma OnPixelType_round_trip_witness :
  fst (GetBitDepth
         (snd (OnPixelType (MM:=MMDevice_h) (K:=K0) W_ok g_PixelType_16bit AfterSet
                           cam_ready))) = 16.
Proof.
  destruct (@OnPixelType_round_trip MMDevice_h K0 W_ok g_PixelType_16bit cam_ready
              codes_ok_headers) as [H _].
  destruct H as (_ & H & _); [vm_compute; reflexivity|]. exact H.
Defined.

Lemma settings_refused_while_capturing_witness :
  fst (OnBinning (MM:=MMDevice_h) W_ok 2 AfterSet (cam_live 3 false)) = (30, 2).
Proof.
  destruct (@settings_refused_while_capturing MMDevice_h K0 W_ok (cam_live 3 false))
    as [H _]; [vm_compute; reflexivity|].
  rewrite H. reflexivity.
Defined.

Lemma StartSequenceAcquisition_starts_thread_witness :
  threads (snd (StartSequenceAcquisition (MM:=MMDevice_h) (K:=K0) W_ok 3 false cam_ready))
    = S (threads cam_ready) /\
  fst (IsCapturing
         (snd (StartSequenceAcquisition (MM:=MMDevice_h) (K:=K0) W_ok 3 false cam_ready)))
    = true.
Proof.
  destruct (@StartSequenceAcquisition_starts_thread MMDevice_h K0 W_ok 3 false cam_ready)
    as (_ & H & _); [reflexivity | vm_compute; reflexivity |].
  destruct H as (_ & H1 & _ & _ & _ & H2); [vm_compute; reflexivity|].
  split; [exact H1 | exact H2].
Defined.

Lemma svc_always_exits_cleanly_witness :
  hEvent (snd (MySequenceThread_svc (MM:=MMDevice_h) (K:=K0) W_ok (cam_live 3 false))) = 0.
Proof.
  destruct (@svc_always_exits_cleanly MMDevice_h K0 W_ok (cam_live 3 false))
    as (r & s1 & _ & _ & _ & _ & H & _).
  - vm_compute. split; discriminate.
  - exact H.
Defined.

Lemma acquisition_ends_without_frame_witness :
  fst (MySequenceThread_svc (MM:=MMDevice_h) (K:=K0) W_timeout (cam_live 3 false))
    = Some 10001.
Proof.
  destruct (@acquisition_ends_without_frame MMDevice_h K0 W_timeout (cam_live 3 false))
    as (_ & _ & _ & _ & _ & _ & H & _).
  - discriminate.
  - discriminate.
  - left. vm_compute. reflexivity.
  - rewrite H. vm_compute. reflexivity.
Defined.

Lemma overflow_in_the_thread_witness :
  fst (svc_iteration (MM:=MMDevice_h) (K:=K0) W_full (cam_live 3 true)) = (false, 22).
Proof.
  destruct (@overflow_in_the_thread MMDevice_h K0 W_full (cam_live 3 true)) as [H _].
  - discriminate.
  - vm_compute. discriminate.
  - vm_compute. reflexivity.
  - vm_compute. reflexivity.
  - destruct H as [H _]; [vm_compute; reflexivity|]. exact H.
Defined.


(** *** Where the claims fail *)

(** C2: a turn of the loop whose wait times out reads the stop flag not
    once: the only event of the turn is the wait. *)
Lemma stop_check_counterexample :
  fst (@svc_iteration MMDevice_h K0 W_timeout (cam_live 3 false)) = (false, 10001) /\
  since (log (cam_live 3 false))
        (log (snd (@svc_iteration MMDevice_h K0 W_timeout (cam_live 3 false))))
    = [WaitForSingleObject 0 2000] /\
  count is_stop_check
    (since (log (cam_live 3 false))
           (log (snd (@svc_iteration MMDevice_h K0 W_timeout (cam_live 3 false)))))
    = 0%nat.
Proof. repeat split; vm_compute; reflexivity. Qed.

(** C3.  [StartSequenceAcquisition] called while [IsCapturing] holds
    returns [DEVICE_CAMERA_BUSY_ACQUIRING], having done nothing but take
    and release the stop lock.  But [IsCapturing] ceases to hold before the
    thread is gone: [svc] sets [stop_] and only then runs
    [OnThreadExiting].  A sequence of one image is started and its thread
    has set [stop_]; [StartSequenceAcquisition] called then returns
    [DEVICE_OK] and starts a second thread, two being in [svc]; the first
    thread, going on, closes the event handle of the second acquisition
    and sets [hEvent] to 0. *)
Theorem second_thread_while_first_exits :
  (forall (MM : MMDeviceConstants) (K : Constants) (W : World)
          (numImages : Z) (stopOnOverflow : bool) (s : ThorlabsUSBCam),
      fst (IsCapturing s) = true ->
      StartSequenceAcquisition W numImages stopOnOverflow s =
        (DEVICE_CAMERA_BUSY_ACQUIRING,
         set_log (log s ++ [Acquire stopLock_; Release stopLock_]) s)) /\
  let Start := @StartSequenceAcquisition MMDevice_h K0 W_handles in
  let s1 := snd (Start 1 false cam_ready) in
  let loop := @svc_loop MMDevice_h K0 W_handles (svc_fuel s1) s1 in
  let s2 := snd (svc_leave W_handles (snd loop)) in
  let s3 := snd (Start 5 false s2) in
  let s4 := snd (@svc_return W_handles s3) in
  (fst (Start 1 false cam_ready) = 0 /\
   fst (IsCapturing s1) = true /\ threads s1 = 1%nat /\ hEvent s1 = 1023) /\
  (fst loop = Some 0 /\
   fst (IsCapturing s2) = false /\ threads s2 = 1%nat /\
   count is_finished (log s2) = 0%nat) /\
  (fst (Start 5 false s2) = 0 /\
   fst (IsCapturing s3) = true /\ threads s3 = 2%nat /\ hEvent s3 = 1030) /\
  (since (log s3) (log s4)
     = [is_DisableEvent; is_ExitEvent; CloseHandle 1030; LogMessage; AcqFinished] /\
   hEvent s4 = 0 /\ threads s4 = 1%nat /\ fst (IsCapturing s4) = true).
Proof.
  split.
  - intros MM K W numImages stopOnOverflow s Hcap.
    apply StartSequenceAcquisition_busy.
    cbn in Hcap. now apply negb_true_iff in Hcap.
  - repeat split; vm_compute; reflexivity.
Qed.

(** C4: [SetROI (0, 0, 10, 10)] returns [DEVICE_OK] and leaves [img_] 10
    by 10, while the full frame is 1280 by 1024. *)
Lemma buffer_size_counterexample :
  fst (@SetROI MMDevice_h K0 W_ok 0 0 10 10 cam_ready) = @DEVICE_OK MMDevice_h /\
  ~ buffer_matches (snd (@SetROI MMDevice_h K0 W_ok 0 0 10 10 cam_ready)).
Proof.
  split; [vm_compute; reflexivity|].
  intros [H _]. vm_compute in H. discriminate.
Qed.

(** C5: the copy in [SnapImage] and the copy in [ThreadRun] are both made
    with the pixel mutex free. *)
Lemma copies_guarded_counterexample :
  copies_guarded imgPixelsLock_
    (log (snd (@SnapImage MMDevice_h K0 W_ok cam_ready))) 0 = false /\
  copies_guarded imgPixelsLock_
    (log (snd (@ThreadRun MMDevice_h K0 W_ok (cam_live 3 false)))) 0 = false.
Proof. split; vm_compute; reflexivity. Qed.

(** C6: [is_InitCamera] answers -1; [Initialize] returns -1, which is no
    code of the host. *)
Lemma Initialize_host_code_counterexample :
  since (log cam_new) (log (snd (@Initialize MMDevice_h K0 W_nocamera cam_new)))
    !! 1%nat = Some is_InitCamera /\
  w_code W_nocamera 1 <> @IS_SUCCESS K0 /\
  host_error_code (fst (@Initialize MMDevice_h K0 W_nocamera cam_new)) = false.
Proof.
  split; [vm_compute; reflexivity|].
  split; [vm_compute; discriminate | vm_compute; reflexivity].
Qed.

(** C9: the vendor refuses to free the driver buffer; [ClearROI] returns
    [DEVICE_OK] with the origin reset, and [img_] is still 10 by 20. *)
Lemma ClearROI_counterexample :
  fst (@ClearROI MMDevice_h K0 W_nomemory cam_roi) = @DEVICE_OK MMDevice_h /\
  fst (@GetROI MMDevice_h (snd (@ClearROI MMDevice_h K0 W_nomemory cam_roi)))
    = (0, (0, 0, 10, 20)) /\
  ~ buffer_matches (snd (@ClearROI MMDevice_h K0 W_nomemory cam_roi)).
Proof.
  split; [vm_compute; reflexivity|].
  split; [vm_compute; reflexivity|].
  intros [H _]. vm_compute in H. discriminate.
Qed.

End Thorlabs.
